(** * BioSync gaze overlay: a shallow embedding of [gaze-overlay.tsx]

    The component polls a gaze service, maps each sample to a viewport
    point, resolves the activatable element below it and moves a
    highlight ring to that element.  JavaScript numbers are IEEE-754
    binary64 values, so they are embedded as Rocq's primitive floats;
    DOM elements are object references and are embedded as identifiers
    into a finite map of class lists. *)

From Stdlib Require Import ZArith Floats Uint63.
From stdpp Require Import gmap strings list fin_maps.

Local Open Scope float_scope.

(** ** JavaScript numbers *)

Module JsNumber.

(** [Number.isNaN] on a value that is already a number. *)
Definition Number_isNaN (v : float) : bool := PrimFloat.is_nan v.

(** The zero with its sign bit set, which [Math.min] and [Math.max]
    order below the positive zero. *)
Definition is_negative_zero (v : float) : bool :=
  PrimFloat.is_zero v && PrimFloat.get_sign v.

(** [Math.min(a, b)]: NaN if either argument is, and -0 below +0. *)
Definition Math_min (a b : float) : float :=
  if PrimFloat.is_nan a || PrimFloat.is_nan b then nan
  else if a <? b then a
  else if b <? a then b
  else if is_negative_zero a then a else b.

(** [Math.max(a, b)]: NaN if either argument is, and +0 above -0. *)
Definition Math_max (a b : float) : float :=
  if PrimFloat.is_nan a || PrimFloat.is_nan b then nan
  else if a <? b then b
  else if b <? a then a
  else if is_negative_zero a then b else a.

(** The number held by an integer-valued attribute such as
    [window.innerWidth] (a WebIDL [long]). *)
Definition of_long (z : Z) : float :=
  if (z <? 0)%Z then - PrimFloat.of_uint63 (Uint63.of_Z (- z))
  else PrimFloat.of_uint63 (Uint63.of_Z z).

End JsNumber.
Import JsNumber.

(** ** Data model (lines 5-7 and the response shape read at 147-154) *)

Record Point := { x : float; y : float }.

(** [type DotPosition = { x: number; y: number } | null] *)
Definition DotPosition := option Point.

Record CalibrationDims := { width : float; height : float }.

(** [type Calibration = { width: number; height: number } | null] *)
Definition Calibration := option CalibrationDims.

(** The decoded body of [GET /api/gaze].  Both fields are optional; a
    present field is an object and therefore truthy in the tests at
    lines 147 and 152.  A [null] body reads as both fields absent
    through the optional chaining [data?.].  A coordinate missing from
    a present field reads as [undefined], which the products of lines
    150-154 turn into NaN: it is the coordinate [nan] here. *)
Record GazeData := {
  calibrated_position : option Point;
  normalized_pupil : option Point
}.

(** [window.innerWidth] and [window.innerHeight]. *)
Record Viewport := { innerWidth : Z; innerHeight : Z }.

(** ** Coordinate mapping (lines 143-171 of [pollGaze]) *)

(** Lines 143-155: [px] and [py] start as [null] and are assigned by
    the calibrated branch, else by the normalized branch. *)
Definition raw_point (data : GazeData) (calibration : Calibration)
    (vp : Viewport) : option float * option float :=
  match calibrated_position data, calibration with
  | Some cp, Some cal =>
      let scaleX := of_long (innerWidth vp) / width cal in
      let scaleY := of_long (innerHeight vp) / height cal in
      (Some (x cp * scaleX), Some (y cp * scaleY))
  | _, _ =>
      match normalized_pupil data with
      | Some np =>
          (Some (x np * of_long (innerWidth vp)),
           Some (y np * of_long (innerHeight vp)))
      | None => (None, None)
      end
  end.

(** Lines 168-169: [Math.max(12, Math.min(dimension - 12, value))]. *)
Definition clamp (dimension : Z) (value : float) : float :=
  Math_max 12 (Math_min (of_long dimension - 12) value).

(** Lines 157-169: the guard on [null] and NaN, then the clamp.  The
    result is the argument of [setPosition] at line 171, or [None] when
    the guard at 157-166 fires. *)
Definition map_point (data : GazeData) (calibration : Calibration)
    (vp : Viewport) : DotPosition :=
  match raw_point data calibration vp with
  | (Some px, Some py) =>
      if Number_isNaN px || Number_isNaN py then None
      else Some {| x := clamp (innerWidth vp) px;
                   y := clamp (innerHeight vp) py |}
  | _ => None
  end.

(** ** The component's state (lines 26-33) and the page it decorates *)

(** A DOM element is an object reference; references are compared with
    [===] at line 44, so an identifier stands for the object. *)
Abbreviation Element := positive.

(** Lines 14-21. *)
Definition highlightClasses : list string :=
  [ "ring-2"; "ring-[#0affad]"; "ring-offset-2"; "ring-offset-white";
    "dark:ring-offset-gray-950"; "shadow-[0_0_0_6px_rgba(10,255,173,0.18)]" ].

Definition BACKEND_URL_STORAGE_KEY : string := "eye-tracker-backend-url".
Definition CALIBRATION_STORAGE_KEY : string := "eye-tracker-calibration".
Definition OVERLAY_ENABLED_KEY : string := "eye-tracker-overlay-enabled".

(** [DOMTokenList.add]: an ordered set, so a token already present is
    not added again. *)
Definition token_add (cls : string) (l : list string) : list string :=
  if bool_decide (cls ∈ l) then l else l ++ [cls].

(** [DOMTokenList.remove]. *)
Definition token_remove (cls : string) (l : list string) : list string :=
  filter (λ c, c ≠ cls) l.

(** The component: its two pieces of state, each as last set by its
    setter, its refs, the page and the console. *)
Record Overlay := {
  enabled : bool;                        (* useState(false), line 26 *)
  position : DotPosition;                (* useState(null), line 27 *)
  backendRef : option string;            (* line 29 *)
  calibrationRef : Calibration;          (* line 30 *)
  pollTimerRef : option positive;        (* line 31, an interval handle *)
  pollingBusyRef : bool;                 (* line 32 *)
  highlightedRef : option Element;       (* line 33 *)
  classLists : gmap positive (list string);  (* [classList] of each element *)
  console : list string                  (* messages of [console.warn] *)
}.

(** The state of a freshly rendered component over a given page. *)
Definition mounted (page : gmap positive (list string)) : Overlay :=
  {| enabled := false; position := None; backendRef := None;
     calibrationRef := None; pollTimerRef := None; pollingBusyRef := false;
     highlightedRef := None; classLists := page; console := [] |}.

Definition setEnabled (b : bool) (st : Overlay) : Overlay :=
  {| enabled := b; position := position st; backendRef := backendRef st;
     calibrationRef := calibrationRef st; pollTimerRef := pollTimerRef st;
     pollingBusyRef := pollingBusyRef st; highlightedRef := highlightedRef st;
     classLists := classLists st; console := console st |}.

Definition setPosition (p : DotPosition) (st : Overlay) : Overlay :=
  {| enabled := enabled st; position := p; backendRef := backendRef st;
     calibrationRef := calibrationRef st; pollTimerRef := pollTimerRef st;
     pollingBusyRef := pollingBusyRef st; highlightedRef := highlightedRef st;
     classLists := classLists st; console := console st |}.

Definition set_backendRef (v : option string) (st : Overlay) : Overlay :=
  {| enabled := enabled st; position := position st; backendRef := v;
     calibrationRef := calibrationRef st; pollTimerRef := pollTimerRef st;
     pollingBusyRef := pollingBusyRef st; highlightedRef := highlightedRef st;
     classLists := classLists st; console := console st |}.

Definition set_calibrationRef (v : Calibration) (st : Overlay) : Overlay :=
  {| enabled := enabled st; position := position st; backendRef := backendRef st;
     calibrationRef := v; pollTimerRef := pollTimerRef st;
     pollingBusyRef := pollingBusyRef st; highlightedRef := highlightedRef st;
     classLists := classLists st; console := console st |}.

Definition set_pollTimerRef (v : option positive) (st : Overlay) : Overlay :=
  {| enabled := enabled st; position := position st; backendRef := backendRef st;
     calibrationRef := calibrationRef st; pollTimerRef := v;
     pollingBusyRef := pollingBusyRef st; highlightedRef := highlightedRef st;
     classLists := classLists st; console := console st |}.

Definition set_pollingBusyRef (v : bool) (st : Overlay) : Overlay :=
  {| enabled := enabled st; position := position st; backendRef := backendRef st;
     calibrationRef := calibrationRef st; pollTimerRef := pollTimerRef st;
     pollingBusyRef := v; highlightedRef := highlightedRef st;
     classLists := classLists st; console := console st |}.

Definition set_highlightedRef (v : option Element) (st : Overlay) : Overlay :=
  {| enabled := enabled st; position := position st; backendRef := backendRef st;
     calibrationRef := calibrationRef st; pollTimerRef := pollTimerRef st;
     pollingBusyRef := pollingBusyRef st; highlightedRef := v;
     classLists := classLists st; console := console st |}.

Definition set_classLists (v : gmap positive (list string)) (st : Overlay) : Overlay :=
  {| enabled := enabled st; position := position st; backendRef := backendRef st;
     calibrationRef := calibrationRef st; pollTimerRef := pollTimerRef st;
     pollingBusyRef := pollingBusyRef st; highlightedRef := highlightedRef st;
     classLists := v; console := console st |}.

Definition console_warn (msg : string) (st : Overlay) : Overlay :=
  {| enabled := enabled st; position := position st; backendRef := backendRef st;
     calibrationRef := calibrationRef st; pollTimerRef := pollTimerRef st;
     pollingBusyRef := pollingBusyRef st; highlightedRef := highlightedRef st;
     classLists := classLists st; console := console st ++ [msg] |}.

(** [element.classList] as the page holds it; an element the map does
    not list has no class. *)
Definition classList (st : Overlay) (el : Element) : list string :=
  default [] (classLists st !! el).

(** ** Highlight manager (lines 35-54)

    Each call is a short run of primitive mutations.  The run is kept
    as data so that the states in between can be inspected. *)

Inductive Mutation :=
  | ClassRemove (el : Element) (cls : string)   (* el.classList.remove(cls) *)
  | ClassAdd (el : Element) (cls : string)      (* el.classList.add(cls) *)
  | RefAssign (target : option Element).        (* highlightedRef.current = target *)

Definition mutate (st : Overlay) (m : Mutation) : Overlay :=
  match m with
  | ClassRemove el cls =>
      set_classLists (<[el := token_remove cls (classList st el)]> (classLists st)) st
  | ClassAdd el cls =>
      set_classLists (<[el := token_add cls (classList st el)]> (classLists st)) st
  | RefAssign target => set_highlightedRef target st
  end.

(** Lines 35-41. *)
Definition clearHighlight_steps (st : Overlay) : list Mutation :=
  match highlightedRef st with
  | Some previous => (ClassRemove previous <$> highlightClasses) ++ [RefAssign None]
  | None => []
  end.

(** Lines 43-54. *)
Definition applyHighlight_steps (st : Overlay) (element : option Element) : list Mutation :=
  if decide (highlightedRef st = element) then []
  else match element with
       | None => clearHighlight_steps st
       | Some el =>
           clearHighlight_steps st
             ++ RefAssign (Some el) :: (ClassAdd el <$> highlightClasses)
       end.

Definition run_steps (st : Overlay) (ms : list Mutation) : Overlay :=
  foldl mutate st ms.

Definition clearHighlight (st : Overlay) : Overlay :=
  run_steps st (clearHighlight_steps st).

Definition applyHighlight (element : option Element) (st : Overlay) : Overlay :=
  run_steps st (applyHighlight_steps st element).

(** Every state a run of mutations passes through, the first and the
    last included. *)
Fixpoint steps_trace (st : Overlay) (ms : list Mutation) : list Overlay :=
  match ms with
  | [] => [st]
  | m :: ms' => st :: steps_trace (mutate st m) ms'
  end.

(** Every state a sequence of [applyHighlight] calls passes through. *)
Fixpoint calls_trace (st : Overlay) (targets : list (option Element)) : list Overlay :=
  match targets with
  | [] => [st]
  | t :: ts =>
      steps_trace st (applyHighlight_steps st t) ++ calls_trace (applyHighlight t st) ts
  end.

(** An element carries the highlight marker when its class list holds
    one of the highlight classes. *)
Definition carries_marker (st : Overlay) (el : Element) : bool :=
  bool_decide (Exists (λ c, c ∈ highlightClasses) (classList st el)).

(** At most one element carries the marker. *)
Definition exclusive (st : Overlay) : Prop :=
  ∀ e1 e2, carries_marker st e1 = true → carries_marker st e2 = true → e1 = e2.

(** Every element that carries the marker is [owner]; with no owner,
    no element carries it. *)
Definition marks_within (owner : option Element) (st : Overlay) : Prop :=
  ∀ el, carries_marker st el = true → owner = Some el.

(** The marker is only ever on the element the manager holds. *)
Definition marker_owned (st : Overlay) : Prop :=
  ∀ el, carries_marker st el = true → highlightedRef st = Some el.

(** ** Exceptions and state

    [syncFromStorage] and [pollGaze] thread the component state through
    calls that may throw, inside [try] blocks.  A computation takes the
    state and completes normally or abruptly. *)

Inductive Completion (A : Type) :=
  | Normal (a : A)
  | Throw (error : string).
Arguments Normal {A} a.
Arguments Throw {A} error.

Definition Js (A : Type) : Type := Overlay → Completion A * Overlay.

#[export] Instance Js_ret : MRet Js := λ A a st, (Normal a, st).

#[export] Instance Js_bind : MBind Js := λ A B f m st,
  match m st with
  | (Normal a, st') => f a st'
  | (Throw e, st') => (Throw e, st')
  end.

Definition throw {A : Type} (error : string) : Js A := λ st, (Throw error, st).

Definition update (f : Overlay → Overlay) : Js unit := λ st, (Normal (), f st).

Definition read {A : Type} (f : Overlay → A) : Js A := λ st, (Normal (f st), st).

(** [try { body } catch (error) { handler }] *)
Definition try_catch {A : Type} (body : Js A) (handler : string → Js A) : Js A :=
  λ st, match body st with
        | (Throw e, st') => handler e st'
        | r => r
        end.

(** The state a computation leaves behind. *)
Definition state_after {A : Type} (m : Js A) (st : Overlay) : Overlay := snd (m st).

(** JavaScript truthiness of a string: every string but the empty one. *)
Definition truthy (s : string) : bool := negb (String.eqb s "").

Definition truthy_opt (s : option string) : bool :=
  match s with
  | Some s => truthy s
  | None => false
  end.

(** ** Settings (lines 56-74) *)

(** [localStorage]: access throws when the browser blocks storage. *)
Inductive LocalStorage :=
  | StorageBlocked
  | StorageItems (items : gmap string string).

Definition getItem (ls : LocalStorage) (key : string) : Js (option string) :=
  match ls with
  | StorageBlocked => throw "SecurityError"
  | StorageItems items => mret (items !! key)
  end.

(** Asynchronous plumbing of one [pollGaze] call: where it is suspended,
    and what the awaited promises settle to. *)
Inductive Cycle :=
  | Done                         (* the call has returned *)
  | AwaitFetch (url : string)    (* suspended at [await fetch(url)], line 133 *)
  | AwaitJson.                   (* suspended at [await response.json()], line 141 *)

Inductive FetchResult :=
  | FetchRejected                   (* network failure *)
  | FetchResolved (status : Z).     (* a response with this status code *)

Inductive JsonResult :=
  | JsonRejected                    (* the body is not JSON *)
  | JsonResolved (data : GazeData).

(** [response.ok]: the status is in the range 200-299. *)
Definition response_ok (status : Z) : bool :=
  (200 <=? status)%Z && (status <=? 299)%Z.

(** What a poll cycle reads from the page when it resumes: the window
    size, and the result of lines 173-174 (hit test at the point, then
    [closest("[data-gaze-activate]")], or [null]). *)
Record Env := {
  viewport : Viewport;
  activateTargetAt : Point → option Element
}.

Section Platform.

(** [JSON.parse] on a stored calibration, [None] when it throws
    [SyntaxError]; the value [Some None] is the JSON text [null]. *)
Variable JSON_parse : string → option Calibration.

(** [new URL(path, base).toString()], [None] when the constructor
    throws [TypeError] on an invalid base. *)
Variable new_URL : string → string → option string.

Definition JSON_decode (raw : string) : Js Calibration :=
  match JSON_parse raw with
  | Some c => mret c
  | None => throw "SyntaxError"
  end.

(** Lines 57-67, the body of the [try]. *)
Definition syncFromStorage_try (ls : LocalStorage) : Js unit :=
  backend ← getItem ls BACKEND_URL_STORAGE_KEY;
  update (set_backendRef backend);;
  calibrationRaw ← getItem ls CALIBRATION_STORAGE_KEY;
  calibration ← (match calibrationRaw with
                 | Some raw => if truthy raw then JSON_decode raw else mret None
                 | None => mret None
                 end);
  update (set_calibrationRef calibration);;
  flag ← getItem ls OVERLAY_ENABLED_KEY;
  let overlayEnabled := bool_decide (flag = Some "true") in
  backendNow ← read backendRef;
  let canEnable := overlayEnabled && truthy_opt backendNow in
  update (setEnabled canEnable);;
  if canEnable then mret ()
  else update (setPosition None);; update clearHighlight.

(** Lines 68-73, the [catch]. *)
Definition syncFromStorage_catch (error : string) : Js unit :=
  update (console_warn "Gaze overlay storage sync");;
  update (setEnabled false);;
  update (setPosition None);;
  update clearHighlight.

(** Lines 56-74. *)
Definition syncFromStorage (ls : LocalStorage) : Js unit :=
  try_catch (syncFromStorage_try ls) syncFromStorage_catch.

(** ** Poll cycle (lines 121-182) *)

(** Lines 176-178. *)
Definition pollGaze_catch : Js unit :=
  update (setPosition None);; update (applyHighlight None).

(** Lines 179-181. *)
Definition pollGaze_finally : Js unit :=
  update (set_pollingBusyRef false).

(** A stretch of the [try] block of lines 131-175.  When it ends the
    call (falls off the end, returns or throws), [catch] and [finally]
    run; when it suspends at an [await] they do not run yet. *)
Definition in_try (body : Js Cycle) : Js Cycle :=
  λ st, match body st with
        | (Normal Done, st') => (pollGaze_finally;; mret Done) st'
        | (Normal c, st') => (Normal c, st')
        | (Throw _, st') => (pollGaze_catch;; pollGaze_finally;; mret Done) st'
        end.

(** Lines 122-133: from the call up to the first [await].
    [enabled_seen] is the value of [enabled] that the closure captured
    when the effect ran. *)
Definition pollGaze_tick (enabled_seen : bool) : Js Cycle :=
  busy ← read pollingBusyRef;
  if negb enabled_seen || busy then mret Done
  else
    backendUrl ← read backendRef;
    if truthy_opt backendUrl then
      update (set_pollingBusyRef true);;
      in_try (match new_URL "/api/gaze" (default "" backendUrl) with
              | Some url => mret (AwaitFetch url)
              | None => throw "TypeError"
              end)
    else update (setEnabled false);; mret Done.

(** Lines 133-141: the fetch has settled. *)
Definition pollGaze_fetched (r : FetchResult) : Js Cycle :=
  in_try (match r with
          | FetchRejected => throw "TypeError"
          | FetchResolved status =>
              if response_ok status then mret AwaitJson else throw "Error"
          end).

(** Lines 141-175: the body has settled. *)
Definition pollGaze_decoded (env : Env) (r : JsonResult) : Js Cycle :=
  in_try (data ← (match r with
                  | JsonRejected => throw "SyntaxError"
                  | JsonResolved data => mret data
                  end);
          calibration ← read calibrationRef;
          match map_point data calibration (viewport env) with
          | None => update (setPosition None);; update (applyHighlight None);; mret Done
          | Some p =>
              update (setPosition (Some p));;
              update (applyHighlight (activateTargetAt env p));;
              mret Done
          end).

(** ** The polling effect (lines 109-194) *)

(** Lines 187-193, the cleanup returned when the effect ran enabled. *)
Definition poll_effect_cleanup : Js unit :=
  update (set_pollTimerRef None);; update (set_pollingBusyRef false).

(** Lines 110-185.  [en] is the value of [enabled] in the render the
    effect belongs to: the body tests it at line 110 and the [pollGaze]
    closure it creates tests it at line 122.  [timer] is the handle
    [setInterval] returns. *)
Definition poll_effect (en : bool) (timer : positive) : Js Cycle :=
  if negb en then
    update (set_pollTimerRef None);;
    update (set_pollingBusyRef false);;
    update (setPosition None);;
    update clearHighlight;;
    mret Done
  else
    c ← pollGaze_tick en;
    update (set_pollTimerRef (Some timer));;
    mret c.

(** The dependency list of line 194: the effect runs again when the
    [enabled] of a render differs from that of the render before.  The
    cleanup the earlier run returned comes first (there is one only if
    that run was enabled), then the body. *)
Definition rerun_effect (before now : bool) (timer : positive) : Js (list Cycle) :=
  if eqb before now then mret []
  else
    (if before then poll_effect_cleanup else mret ());;
    c ← poll_effect now timer;
    mret [c].

End Platform.

(** ** Listeners and teardown (lines 83-106 and 196-230) *)

(** The fields of a [KeyboardEvent] that [handleKeyDown] reads:
    [event.repeat], the tag name of [event.target] (none when the
    target is null), [event.code] and [event.key]. *)
Record KeyboardEvent := {
  event_repeat : bool;
  event_target_tagName : option string;
  event_code : string;
  event_key : string
}.

(** What a key press does outside the component state: whether
    [event.preventDefault()] ran, the element whose [click()] ran, and
    the storage it leaves. *)
Record KeyEffects := {
  defaultPrevented : bool;
  clicked : option Element;
  storage_after : LocalStorage
}.

(** [localStorage.removeItem(key)] *)
Definition removeItem (ls : LocalStorage) (key : string) : Js LocalStorage :=
  match ls with
  | StorageBlocked => throw "SecurityError"
  | StorageItems items => mret (StorageItems (delete key items))
  end.

(** Lines 205-208: the target is an [INPUT] or a [TEXTAREA]. *)
Definition in_text_input (ev : KeyboardEvent) : bool :=
  match event_target_tagName ev with
  | Some tag => bool_decide (tag ∈ ["INPUT"; "TEXTAREA"])
  | None => false
  end.

(** Line 209. *)
Definition is_space (ev : KeyboardEvent) : bool :=
  String.eqb (event_code ev) "Space" || String.eqb (event_key ev) " ".

Section Handlers.

Variable JSON_parse : string → option Calibration.

(** Lines 83-91: the listener of the [storage] event; [key] is
    [event.key], null when the whole storage was cleared. *)
Definition handleStorage (key : option string) (ls : LocalStorage) : Js unit :=
  if bool_decide (key = Some BACKEND_URL_STORAGE_KEY)
     || bool_decide (key = Some CALIBRATION_STORAGE_KEY)
     || bool_decide (key = Some OVERLAY_ENABLED_KEY)
  then syncFromStorage JSON_parse ls
  else mret ().

(** Line 93: the listener of the overlay event. *)
Definition handleOverlayEvent (ls : LocalStorage) : Js unit :=
  syncFromStorage JSON_parse ls.

(** Lines 98-106, the cleanup of the mount effect. *)
Definition mount_cleanup : Js unit :=
  update (set_pollTimerRef None);; update clearHighlight.

(** Lines 201-223.  [window.dispatchEvent] runs the listener of the
    overlay event before it returns, on the storage as [removeItem]
    left it. *)
Definition handleKeyDown (ev : KeyboardEvent) (ls : LocalStorage) : Js KeyEffects :=
  let idle := {| defaultPrevented := false; clicked := None; storage_after := ls |} in
  if event_repeat ev then mret idle
  else if in_text_input ev then mret idle
  else if is_space ev then
    target ← read highlightedRef;
    mret {| defaultPrevented := true; clicked := target; storage_after := ls |}
  else if String.eqb (event_key ev) "Escape" then
    try_catch
      (ls' ← removeItem ls OVERLAY_ENABLED_KEY;
       handleOverlayEvent ls';;
       mret {| defaultPrevented := false; clicked := None; storage_after := ls' |})
      (λ error, update (console_warn "Disable overlay via escape");; mret idle)
  else mret idle.

End Handlers.

(** ** The event loop

    JavaScript runs one task at a time, each to completion: a listener,
    a tick of the interval, or the stretch of a [pollGaze] call between
    two [await]s.  React is one more source of tasks.  [setEnabled]
    only records the new state; the component is rendered again in a
    later task, and the effects of that render run in a later task
    still.  Other tasks may run in between, and they find the interval
    and the refs as the last effect run left them.  Before a further
    render React runs the effects still pending from the last one. *)

Section EventLoop.

Variable JSON_parse : string → option Calibration.
Variable new_URL : string → string → option string.

Record World := {
  overlay : Overlay;          (* refs and page; state as last set *)
  rendered : bool;            (* [enabled] in the last render *)
  effective : bool;           (* [enabled] in the render whose effects ran last *)
  suspended : list Cycle;     (* [pollGaze] calls waiting at an [await] *)
  fetched : list string;      (* every URL requested so far, oldest first *)
  next_timer : positive
}.

Inductive Event :=
  | SettingsChanged (ls : LocalStorage)   (* mount (line 81) and the overlay event *)
  | StorageEvent (key : option string) (ls : LocalStorage)
  | KeyDown (ev : KeyboardEvent) (ls : LocalStorage)
  | TimerTick                             (* the 140 ms interval fires *)
  | FetchSettled (i : nat) (r : FetchResult)
  | BodySettled (i : nat) (env : Env) (r : JsonResult)
  | Render                                (* React renders the component again *)
  | EffectsRun.                           (* React runs the effects of the last render *)

Definition is_suspended (c : Cycle) : bool :=
  match c with Done => false | _ => true end.

Definition requests_of (cs : list Cycle) : list string :=
  omap (λ c, match c with AwaitFetch url => Some url | _ => None end) cs.

(** One task: the handler runs to completion on the component state.
    The calls it leaves suspended join those of [keep]; no render and
    no effect is part of the task. *)
Definition dispatch (w : World) (handler : Js (list Cycle)) (keep : list Cycle) : World :=
  let '(r, st1) := handler (overlay w) in
  let started := match r with Normal cs => cs | Throw _ => [] end in
  {| overlay := st1;
     rendered := rendered w;
     effective := effective w;
     suspended := keep ++ filter (λ c, is_suspended c = true) started;
     fetched := fetched w ++ requests_of started;
     next_timer := next_timer w |}.

(** The effects of the last render, if they have not run yet. *)
Definition flush_effects (w : World) : World :=
  let w' := dispatch w (rerun_effect new_URL (effective w) (rendered w) (next_timer w))
              (suspended w) in
  {| overlay := overlay w';
     rendered := rendered w;
     effective := rendered w;
     suspended := suspended w';
     fetched := fetched w';
     next_timer := if rendered w && negb (effective w)
                   then Pos.succ (next_timer w) else next_timer w |}.

(** A render: pending effects run first, then the component function
    reads the state.  Its closures hold that value of [enabled] from
    then on. *)
Definition render (w : World) : World :=
  let w' := flush_effects w in
  {| overlay := overlay w';
     rendered := enabled (overlay w');
     effective := effective w';
     suspended := suspended w';
     fetched := fetched w';
     next_timer := next_timer w' |}.

(** A key press: the listener is registered by the effect of lines
    196-230, so it exists while that effect last ran enabled. *)
Definition keydown (w : World) (ev : KeyboardEvent) (ls : LocalStorage) : World :=
  if effective w
  then dispatch w (handleKeyDown JSON_parse ev ls ≫= λ _, mret []) (suspended w)
  else w.

(** A [storage] event; its listener is registered from mount on. *)
Definition storage_event (w : World) (key : option string) (ls : LocalStorage) : World :=
  dispatch w (handleStorage JSON_parse key ls ≫= λ _, mret []) (suspended w).

(** The interval calls the [pollGaze] closure of the effect run that
    registered it; that run was enabled, so the closure holds [true]. *)
Definition step (w : World) (ev : Event) : World :=
  match ev with
  | SettingsChanged ls =>
      dispatch w (syncFromStorage JSON_parse ls;; mret []) (suspended w)
  | StorageEvent key ls => storage_event w key ls
  | KeyDown key ls => keydown w key ls
  | TimerTick =>
      match pollTimerRef (overlay w) with
      | Some _ => dispatch w (c ← pollGaze_tick new_URL true; mret [c]) (suspended w)
      | None => w
      end
  | FetchSettled i r =>
      match suspended w !! i with
      | Some (AwaitFetch _) =>
          dispatch w (c ← pollGaze_fetched r; mret [c]) (delete i (suspended w))
      | _ => w
      end
  | BodySettled i env r =>
      match suspended w !! i with
      | Some AwaitJson =>
          dispatch w (c ← pollGaze_decoded env r; mret [c]) (delete i (suspended w))
      | _ => w
      end
  | Render => render w
  | EffectsRun => flush_effects w
  end.

Definition run (w : World) (evs : list Event) : World := foldl step w evs.

(** The events of a running loop: ticks and settled promises. *)
Definition is_loop_event (ev : Event) : bool :=
  match ev with
  | TimerTick | FetchSettled _ _ | BodySettled _ _ _ => true
  | _ => false
  end.

(** A component just mounted over a page: it was rendered once, with
    [enabled] false.  Of the effects of that render, the first (line
    81) is the event [SettingsChanged] a run starts with.  The polling
    effect takes the disabled branch of lines 110-118, which changes
    nothing at mount (no timer runs, the busy flag is down, no point
    is displayed and no element is held), and the key effect registers
    no listener; both count as run. *)
Definition boot (page : gmap positive (list string)) : World :=
  {| overlay := mounted page; rendered := false; effective := false;
     suspended := []; fetched := []; next_timer := 1%positive |}.

(** Single flight: the busy flag is up exactly while one call of the
    loop is suspended, and no second one is. *)
Definition single_flight (w : World) : Prop :=
  (pollingBusyRef (overlay w) = false ∧ suspended w = [])
  ∨ (pollingBusyRef (overlay w) = true ∧ length (suspended w) = 1%nat).

(** Nothing is pending: the last render saw the current state and its
    effects have run. *)
Definition settled (w : World) : Prop :=
  rendered w = enabled (overlay w) ∧ effective w = rendered w.

End EventLoop.

(** ** Sample inputs *)

Definition vp_1920_1080 : Viewport := {| innerWidth := 1920; innerHeight := 1080 |}.

(** A viewport narrower than the two margins together. *)
Definition vp_20_1080 : Viewport := {| innerWidth := 20; innerHeight := 1080 |}.

Definition calibration_1280_720 : CalibrationDims := {| width := 1280; height := 720 |}.

Definition calibrated_sample (px py : float) : GazeData :=
  {| calibrated_position := Some {| x := px; y := py |}; normalized_pupil := None |}.

Definition normalized_sample (px py : float) : GazeData :=
  {| calibrated_position := None; normalized_pupil := Some {| x := px; y := py |} |}.

(** A page with two activatable buttons, neither highlighted. *)
Definition page_two_buttons : gmap positive (list string) :=
  {[ 1%positive := ["btn"]; 2%positive := ["btn"; "btn-primary"] ]}.

(** Every point of the window lies over button 1. *)
Definition env_over_button_1 : Env :=
  {| viewport := vp_1920_1080; activateTargetAt := λ _, Some 1%positive |}.

(** [JSON.parse] on the two stored texts the examples use: the text
    [null], and the truncated text of one opening brace, on which
    [JSON.parse] throws. *)
Definition JSON_parse_sample (raw : string) : option Calibration :=
  if String.eqb raw "null" then Some None else None.

(** [new URL(path, base)] for a base that is a bare http origin, such
    as [http://localhost:8000]; any other base is taken as invalid. *)
Definition new_URL_origin (path base : string) : option string :=
  if String.prefix "http://" base then Some (base +:+ path) else None.

Definition storage_on : LocalStorage :=
  StorageItems {[ BACKEND_URL_STORAGE_KEY := "http://localhost:8000";
                  OVERLAY_ENABLED_KEY := "true" ]}.

(** The same settings after the Escape handler of lines 215-218 has
    removed the enabled flag. *)
Definition storage_off : LocalStorage :=
  StorageItems {[ BACKEND_URL_STORAGE_KEY := "http://localhost:8000" ]}.

(** Backend and flag set, calibration text malformed. *)
Definition storage_bad_calibration : LocalStorage :=
  StorageItems {[ BACKEND_URL_STORAGE_KEY := "http://localhost:8000";
                  CALIBRATION_STORAGE_KEY := "{";
                  OVERLAY_ENABLED_KEY := "true" ]}.

(** The settings are read; React renders and runs the effects at once. *)
Definition settings_applied (ls : LocalStorage) : list Event :=
  [SettingsChanged ls; Render; EffectsRun].

(** The world once the settings [storage_on] are read at mount: the
    overlay is enabled, the interval runs and the first request is
    outstanding. *)
Definition world_polling : World :=
  run JSON_parse_sample new_URL_origin (boot page_two_buttons)
    (settings_applied storage_on).

(** Or the first request fails at once: the interval runs, the busy
    flag is down and the next tick polls again. *)
Definition world_idle : World :=
  step JSON_parse_sample new_URL_origin world_polling (FetchSettled 0 FetchRejected).

(** Escape is pressed in [world_polling]: the flag is removed and the
    settings are read again, while the first request is still
    outstanding. *)
Definition world_disabled : World :=
  run JSON_parse_sample new_URL_origin world_polling (settings_applied storage_off).

(** Then the request resolves with a pupil at the centre of the window. *)
Definition world_late : World :=
  run JSON_parse_sample new_URL_origin world_disabled
    [FetchSettled 0 (FetchResolved 200);
     BodySettled 0 env_over_button_1 (JsonResolved (normalized_sample 0.5 0.5))].

(** Or, instead, the overlay is switched on again while that request is
    still outstanding: the effect starts a new loop, whose first call
    issues a request of its own. *)
Definition world_restarted : World :=
  run JSON_parse_sample new_URL_origin world_disabled (settings_applied storage_on).

(** Then the request of the first loop fails. *)
Definition world_stale_end : World :=
  step JSON_parse_sample new_URL_origin world_restarted (FetchSettled 0 FetchRejected).

(** ** Conditions kept along every run *)

(** An enabled overlay has a non-empty backend URL. *)
Definition backend_known (st : Overlay) : Prop :=
  enabled st = true → truthy_opt (backendRef st) = true.

(** The interval timer exists exactly while the polling effect last ran
    enabled, and an enabled overlay has a non-empty backend URL. *)
Definition lifecycle_ok (w : World) : Prop :=
  (pollTimerRef (overlay w) ≠ None ↔ effective w = true)
  ∧ backend_known (overlay w).

(** The displayed point, if any, is at least 12 pixels from the left
    and top edges. *)
Definition point_clamped (st : Overlay) : Prop :=
  ∀ p, position st = Some p → (12 <=? x p) = true ∧ (12 <=? y p) = true.

(** The held element has every highlight class. *)
Definition held_marked (st : Overlay) : Prop :=
  ∀ el c, highlightedRef st = Some el → c ∈ highlightClasses → c ∈ classList st el.

(** The highlight is on the held element and nowhere else. *)
Definition highlight_consistent (st : Overlay) : Prop :=
  marker_owned st ∧ held_marked st.

(** The state after a sequence of [applyHighlight] calls. *)
Definition applyHighlight_all (targets : list (option Element)) (st : Overlay) : Overlay :=
  foldl (λ s t, applyHighlight t s) st targets.

(** What every handler does to the conditions above: it leaves the
    timer alone, enables only with a backend URL, and keeps the point
    clamped and the highlight consistent. *)
Definition handled (st0 st1 : Overlay) : Prop :=
  pollTimerRef st1 = pollTimerRef st0
  ∧ (backend_known st0 → backend_known st1)
  ∧ (point_clamped st0 → point_clamped st1)
  ∧ (highlight_consistent st0 → highlight_consistent st1).

(** A page none of whose elements has a highlight class. *)
Definition unmarked_page (page : gmap positive (list string)) : Prop :=
  ∀ el c, c ∈ highlightClasses → c ∉ default [] (page !! el).

(** The Escape key, pressed outside a text input. *)
Definition escape_key : KeyboardEvent :=
  {| event_repeat := false; event_target_tagName := Some "BODY";
     event_code := "Escape"; event_key := "Escape" |}.

(** The space bar, pressed outside a text input. *)
Definition space_key : KeyboardEvent :=
  {| event_repeat := false; event_target_tagName := Some "BODY";
     event_code := "Space"; event_key := " " |}.

(** Stored settings with the backend URL and the flag, no calibration. *)
Definition items_on : gmap string string :=
  {[ BACKEND_URL_STORAGE_KEY := "http://localhost:8000";
     OVERLAY_ENABLED_KEY := "true" ]}.

(** Mount with [items_on], Escape, then the late result of the first
    request: the events that lead to [world_late]. *)
Definition events_late : list Event :=
  settings_applied storage_on ++ settings_applied storage_off ++
  [FetchSettled 0 (FetchResolved 200);
   BodySettled 0 env_over_button_1 (JsonResolved (normalized_sample 0.5 0.5))].


(** * Properties *)

(** ** Facts about binary64 comparison and rounding *)

Lemma SFcompare_refl s : s ≠ S754_nan → SFcompare s s = Some Eq.
Proof.
  destruct s as [[]|[]| |[] m e]; simpl; try congruence; intros _;
    rewrite Z.compare_refl; f_equal;
    change (Pos.compare_cont Eq m m) with (Pos.compare m m);
    rewrite Pos.compare_refl; reflexivity.
Qed.

Lemma SFcompare_total a b :
  a ≠ S754_nan → b ≠ S754_nan → ∃ c, SFcompare a b = Some c.
Proof.
  destruct a as [?|?| |? ? ?], b as [?|?| |? ? ?]; simpl; intros; try congruence; eauto.
Qed.

Lemma SFcompare_antisym a b c :
  SFcompare a b = Some c → SFcompare b a = Some (CompOpp c).
Proof.
  destruct a as [[]|[]| |[] m1 e1], b as [[]|[]| |[] m2 e2]; simpl;
    intros H; inversion H; subst; clear H; try reflexivity;
    rewrite (Z.compare_antisym e1 e2);
    change (Pos.compare_cont Eq m1 m2) with (Pos.compare m1 m2);
    change (Pos.compare_cont Eq m2 m1) with (Pos.compare m2 m1);
    rewrite (Pos.compare_antisym m1 m2);
    destruct (e1 ?= e2)%Z; simpl; try reflexivity;
    destruct (m1 ?= m2)%positive; reflexivity.
Qed.

Lemma SFcompare_lt_trans a b c :
  SFcompare a b = Some Lt → SFcompare b c = Some Lt → SFcompare a c = Some Lt.
Proof.
  destruct a as [[]|[]| |[] m1 e1], b as [[]|[]| |[] m2 e2], c as [[]|[]| |[] m3 e3];
    simpl; try congruence;
    change (Pos.compare_cont Eq m1 m2) with (Pos.compare m1 m2);
    change (Pos.compare_cont Eq m2 m3) with (Pos.compare m2 m3);
    change (Pos.compare_cont Eq m1 m3) with (Pos.compare m1 m3);
    destruct (Z.compare_spec e1 e2), (Z.compare_spec e2 e3), (Z.compare_spec e1 e3);
    try lia; try congruence;
    destruct (Pos.compare_spec m1 m2), (Pos.compare_spec m2 m3), (Pos.compare_spec m1 m3);
    simpl; try lia; try congruence.
Qed.

Lemma SFcompare_eq_lt_trans a b c :
  SFcompare a b = Some Eq → SFcompare c b = Some Lt → SFcompare c a = Some Lt.
Proof.
  destruct a as [[]|[]| |[] m1 e1], b as [[]|[]| |[] m2 e2], c as [[]|[]| |[] m3 e3];
    simpl; try congruence;
    change (Pos.compare_cont Eq m1 m2) with (Pos.compare m1 m2);
    change (Pos.compare_cont Eq m3 m2) with (Pos.compare m3 m2);
    change (Pos.compare_cont Eq m3 m1) with (Pos.compare m3 m1);
    destruct (Z.compare_spec e1 e2), (Z.compare_spec e3 e2), (Z.compare_spec e3 e1);
    try lia; try congruence;
    destruct (Pos.compare_spec m1 m2), (Pos.compare_spec m3 m2), (Pos.compare_spec m3 m1);
    simpl; try lia; try congruence.
Qed.

Lemma is_nan_Prim2SF v : PrimFloat.is_nan v = true ↔ Prim2SF v = S754_nan.
Proof.
  unfold PrimFloat.is_nan. rewrite FloatAxioms.eqb_spec. unfold SFeqb.
  destruct (Prim2SF v) as [s|s| |s m e] eqn:E.
  - simpl. split; intros; congruence.
  - destruct s; simpl; split; intros; congruence.
  - simpl. split; intros; congruence.
  - rewrite (SFcompare_refl (S754_finite s m e)) by congruence.
    simpl. split; intros; congruence.
Qed.

Lemma not_nan_Prim2SF v : PrimFloat.is_nan v = false ↔ Prim2SF v ≠ S754_nan.
Proof.
  rewrite <- is_nan_Prim2SF. destruct (PrimFloat.is_nan v); split; congruence.
Qed.

(** Rounding a non-negative mantissa never yields NaN. *)
Lemma shr_1_nonneg mrs : (0 ≤ shr_m mrs)%Z → (0 ≤ shr_m (shr_1 mrs))%Z.
Proof.
  destruct mrs as [m r s]. simpl.
  destruct m as [|[p|p|]|[p|p|]]; simpl; lia.
Qed.

Lemma iter_pos_shr_1_nonneg p : ∀ mrs,
  (0 ≤ shr_m mrs)%Z → (0 ≤ shr_m (SpecFloat.iter_pos shr_1 p mrs))%Z.
Proof.
  induction p as [p IH|p IH|]; intros mrs H; simpl.
  - apply IH, IH, shr_1_nonneg, H.
  - apply IH, IH, H.
  - apply shr_1_nonneg, H.
Qed.

Lemma shr_fexp_nonneg m e l :
  (0 ≤ m)%Z → (0 ≤ shr_m (fst (shr_fexp prec emax m e l)))%Z.
Proof.
  intros Hm. unfold shr_fexp, shr.
  assert (H0 : (0 ≤ shr_m (shr_record_of_loc m l))%Z).
  { destruct l as [|[]]; simpl; exact Hm. }
  destruct (fexp prec emax (Zdigits2 m + e) - e)%Z; simpl; auto.
  apply iter_pos_shr_1_nonneg, H0.
Qed.

Lemma round_nearest_even_nonneg m l :
  (0 ≤ m)%Z → (0 ≤ round_nearest_even m l)%Z.
Proof.
  intros Hm. unfold round_nearest_even.
  destruct l as [|[]]; try destruct (Z.even m); lia.
Qed.

Lemma binary_round_aux_not_nan sx mx ex lx :
  (0 ≤ mx)%Z → binary_round_aux prec emax sx mx ex lx ≠ S754_nan.
Proof.
  intros Hm. unfold binary_round_aux.
  pose proof (shr_fexp_nonneg mx ex lx Hm) as H1.
  destruct (shr_fexp prec emax mx ex lx) as [mrs' e'].
  pose proof (shr_fexp_nonneg _ e' loc_Exact
    (round_nearest_even_nonneg _ (loc_of_shr_record mrs') H1)) as H2.
  destruct (shr_fexp prec emax _ e' loc_Exact) as [mrs'' e''].
  simpl in H2.
  destruct (shr_m mrs'') as [|p|p]; try lia; try congruence.
  destruct (e'' <=? emax - prec)%Z; congruence.
Qed.

Lemma binary_normalize_not_nan m e sz :
  binary_normalize prec emax m e sz ≠ S754_nan.
Proof.
  unfold binary_normalize, binary_round.
  destruct m as [|p|p]; try congruence;
    destruct (shl_align p e _) as [mz ez];
    apply binary_round_aux_not_nan; lia.
Qed.

Lemma of_long_not_nan z : PrimFloat.is_nan (of_long z) = false.
Proof.
  apply not_nan_Prim2SF. unfold of_long.
  destruct (z <? 0)%Z.
  - rewrite FloatAxioms.opp_spec, of_uint63_spec.
    pose proof (binary_normalize_not_nan (to_Z (of_Z (- z))) 0 false) as H.
    destruct (binary_normalize _ _ _ _ _); simpl; congruence.
  - rewrite of_uint63_spec. apply binary_normalize_not_nan.
Qed.

(** [dimension - 12] is a number for every window size. *)
Lemma upper_bound_not_nan z : PrimFloat.is_nan (of_long z - 12) = false.
Proof.
  apply not_nan_Prim2SF. rewrite FloatAxioms.sub_spec.
  pose proof (proj1 (not_nan_Prim2SF _) (of_long_not_nan z)) as Hz.
  change (Prim2SF 12) with (S754_finite false 6755399441055744 (-49)).
  unfold SF64sub, SFsub.
  destruct (Prim2SF (of_long z)) as [sa|sa| |sa ma ea]; try congruence.
  apply binary_normalize_not_nan.
Qed.

Lemma ltb_leb a b : (a <? b) = true → (a <=? b) = true.
Proof.
  rewrite FloatAxioms.ltb_spec, FloatAxioms.leb_spec. unfold SFltb, SFleb.
  destruct (SFcompare _ _) as [[]|]; congruence.
Qed.

Lemma ltb_asym a b : (a <? b) = true → (b <? a) = false.
Proof.
  rewrite !FloatAxioms.ltb_spec. unfold SFltb.
  destruct (SFcompare (Prim2SF a) (Prim2SF b)) as [[]|] eqn:E; try congruence.
  rewrite (SFcompare_antisym _ _ _ E). reflexivity.
Qed.

Lemma ltb_trans a b c : (a <? b) = true → (b <? c) = true → (a <? c) = true.
Proof.
  rewrite !FloatAxioms.ltb_spec. unfold SFltb.
  destruct (SFcompare (Prim2SF a) (Prim2SF b)) as [[]|] eqn:E1; try congruence.
  destruct (SFcompare (Prim2SF b) (Prim2SF c)) as [[]|] eqn:E2; try congruence.
  rewrite (SFcompare_lt_trans _ _ _ E1 E2). reflexivity.
Qed.

(** Two numbers of which neither is below the other compare as equal,
    so whatever is below one is below the other. *)
Lemma ltb_incomparable a b c :
  PrimFloat.is_nan a = false → PrimFloat.is_nan b = false →
  (a <? b) = false → (b <? a) = false → (c <? b) = true → (c <? a) = true.
Proof.
  intros Ha Hb. apply not_nan_Prim2SF in Ha, Hb.
  rewrite !FloatAxioms.ltb_spec. unfold SFltb.
  destruct (SFcompare_total _ _ Ha Hb) as [r E]. rewrite E.
  rewrite (SFcompare_antisym _ _ _ E).
  destruct r; simpl; try congruence. intros _ _.
  destruct (SFcompare (Prim2SF c) (Prim2SF b)) as [[]|] eqn:E2; try congruence.
  rewrite (SFcompare_eq_lt_trans _ _ _ E E2). reflexivity.
Qed.

(** ** Facts about [Math.min], [Math.max] and the clamp *)

Lemma Math_min_cases a b :
  PrimFloat.is_nan a = false → PrimFloat.is_nan b = false →
  Math_min a b = a ∨ Math_min a b = b.
Proof.
  intros Ha Hb. unfold Math_min. rewrite Ha, Hb. simpl.
  destruct (a <? b); [auto|]. destruct (b <? a); [auto|].
  destruct (is_negative_zero a); auto.
Qed.

Lemma Math_min_not_nan a b :
  PrimFloat.is_nan a = false → PrimFloat.is_nan b = false →
  PrimFloat.is_nan (Math_min a b) = false.
Proof.
  intros Ha Hb. destruct (Math_min_cases a b Ha Hb) as [-> | ->]; assumption.
Qed.

(** The minimum is not above anything its first argument is below. *)
Lemma Math_min_below a b bound :
  PrimFloat.is_nan a = false → PrimFloat.is_nan b = false →
  (a <? bound) = true → (bound <? Math_min a b) = false.
Proof.
  intros Ha Hb Hlt. pose proof (ltb_asym _ _ Hlt) as Hge.
  unfold Math_min. rewrite Ha, Hb. simpl.
  destruct (a <? b) eqn:Eab; [exact Hge|].
  destruct (bound <? b) eqn:Ebb.
  - destruct (b <? a) eqn:Eba.
    + rewrite (ltb_trans _ _ _ Ebb Eba) in Hge. discriminate.
    + rewrite (ltb_incomparable a b bound Ha Hb Eab Eba Ebb) in Hge. discriminate.
  - destruct (b <? a); [exact Ebb|].
    destruct (is_negative_zero a); assumption.
Qed.

Lemma Math_max_12 m :
  PrimFloat.is_nan m = false → Math_max 12 m = if 12 <? m then m else 12.
Proof.
  intros Hm. unfold Math_max. rewrite Hm.
  change (PrimFloat.is_nan 12) with false.
  change (is_negative_zero 12) with false. simpl.
  destruct (12 <? m); [reflexivity|]. destruct (m <? 12); reflexivity.
Qed.

Lemma clamp_at_least_12 d v :
  PrimFloat.is_nan v = false → (12 <=? clamp d v) = true.
Proof.
  intros Hv. unfold clamp.
  rewrite Math_max_12 by (apply Math_min_not_nan; [apply upper_bound_not_nan | exact Hv]).
  destruct (12 <? Math_min _ _) eqn:E.
  - apply ltb_leb, E.
  - reflexivity.
Qed.

Lemma narrow_upper_bound d :
  (0 ≤ d < 24)%Z → (of_long d - 12 <? 12) = true.
Proof.
  intros [H0 H24]. destruct d as [|p|p]; [vm_compute; reflexivity| |lia].
  do 5 (try destruct p as [p|p|]); try lia; vm_compute; reflexivity.
Qed.

Lemma clamp_narrow d v :
  (0 ≤ d < 24)%Z → PrimFloat.is_nan v = false → clamp d v = 12.
Proof.
  intros Hd Hv. unfold clamp.
  rewrite Math_max_12 by (apply Math_min_not_nan; [apply upper_bound_not_nan | exact Hv]).
  rewrite (Math_min_below _ _ 12 (upper_bound_not_nan d) Hv (narrow_upper_bound d Hd)).
  reflexivity.
Qed.

(** ** The coordinate mapping *)

(** [map_point] is [null] exactly when the guard of lines 157-166
    fires: a coordinate was never assigned, or one is NaN. *)
Lemma map_point_None data cal vp :
  map_point data cal vp = None ↔
  match raw_point data cal vp with
  | (Some px, Some py) => Number_isNaN px = true ∨ Number_isNaN py = true
  | _ => True
  end.
Proof.
  unfold map_point. destruct (raw_point data cal vp) as [[px|] [py|]]; try tauto.
  destruct (Number_isNaN px), (Number_isNaN py); simpl;
    split; intros H; try reflexivity; try discriminate H; auto;
    destruct H as [H|H]; discriminate H.
Qed.

Lemma map_point_Some data cal vp p :
  map_point data cal vp = Some p →
  ∃ px py, raw_point data cal vp = (Some px, Some py)
    ∧ Number_isNaN px = false ∧ Number_isNaN py = false
    ∧ p = {| x := clamp (innerWidth vp) px; y := clamp (innerHeight vp) py |}.
Proof.
  unfold map_point. destruct (raw_point data cal vp) as [[px|] [py|]]; try discriminate.
  destruct (Number_isNaN px) eqn:Ex, (Number_isNaN py) eqn:Ey; simpl; try discriminate.
  intros [= <-]. eauto 10.
Qed.

(** ** The highlight manager *)

Lemma carries_marker_iff st el :
  carries_marker st el = true ↔ ∃ c, c ∈ highlightClasses ∧ c ∈ classList st el.
Proof.
  unfold carries_marker. rewrite bool_decide_eq_true, Exists_exists.
  split; intros (c & ? & ?); exists c; split; assumption.
Qed.

Lemma carries_marker_false st el :
  carries_marker st el = false ↔ ∀ c, c ∈ highlightClasses → c ∉ classList st el.
Proof.
  rewrite <- not_true_iff_false, carries_marker_iff. split.
  - intros H c Hc Hin. apply H. exists c. split; assumption.
  - intros H (c & Hc & Hin). exact (H c Hc Hin).
Qed.

Lemma elem_of_token_remove cls l c : c ∈ token_remove cls l ↔ c ∈ l ∧ c ≠ cls.
Proof. unfold token_remove. rewrite list_elem_of_filter. tauto. Qed.

Lemma elem_of_token_add cls l c : c ∈ token_add cls l ↔ c ∈ l ∨ c = cls.
Proof.
  unfold token_add. case_bool_decide as H.
  - split; [auto | intros [?| ->]; auto].
  - rewrite elem_of_app, list_elem_of_singleton. tauto.
Qed.

Lemma classList_mutate st m el :
  classList (mutate st m) el =
  match m with
  | ClassRemove e cls => if decide (e = el) then token_remove cls (classList st e) else classList st el
  | ClassAdd e cls => if decide (e = el) then token_add cls (classList st e) else classList st el
  | RefAssign _ => classList st el
  end.
Proof.
  destruct m as [e cls|e cls|t]; unfold classList; simpl; try reflexivity;
    rewrite lookup_insert; case_decide; reflexivity.
Qed.

(** The mutations of the highlight manager touch the held reference and
    the class lists, nothing else. *)
Lemma run_steps_frame ms : ∀ st,
  enabled (run_steps st ms) = enabled st
  ∧ position (run_steps st ms) = position st
  ∧ backendRef (run_steps st ms) = backendRef st
  ∧ calibrationRef (run_steps st ms) = calibrationRef st
  ∧ pollTimerRef (run_steps st ms) = pollTimerRef st
  ∧ pollingBusyRef (run_steps st ms) = pollingBusyRef st
  ∧ console (run_steps st ms) = console st.
Proof.
  induction ms as [|m ms IH]; intros st; [repeat split|].
  change (run_steps st (m :: ms)) with (run_steps (mutate st m) ms).
  destruct (IH (mutate st m)) as (-> & -> & -> & -> & -> & -> & ->).
  destruct m; repeat split.
Qed.

Lemma run_steps_app st a b : run_steps st (a ++ b) = run_steps (run_steps st a) b.
Proof. apply foldl_app. Qed.

Lemma run_removes prev L : ∀ st,
  highlightedRef (run_steps st (ClassRemove prev <$> L)) = highlightedRef st
  ∧ ∀ el c, c ∈ classList (run_steps st (ClassRemove prev <$> L)) el
            ↔ c ∈ classList st el ∧ (el = prev → c ∉ L).
Proof.
  induction L as [|cls L IH]; intros st.
  - simpl. split; [reflexivity|]. intros el c. split; [|tauto].
    intros H; split; [exact H|]. intros _. apply not_elem_of_nil.
  - change (run_steps st (ClassRemove prev <$> cls :: L))
      with (run_steps (mutate st (ClassRemove prev cls)) (ClassRemove prev <$> L)).
    destruct (IH (mutate st (ClassRemove prev cls))) as [Href Hcl].
    split; [rewrite Href; reflexivity|].
    intros el c. rewrite Hcl, classList_mutate, elem_of_cons.
    case_decide as E.
    + subst el. rewrite elem_of_token_remove. tauto.
    + split; [|tauto]. intros [? ?]; split; [assumption|]. intros ->. congruence.
Qed.

Lemma run_adds el0 L : ∀ st,
  highlightedRef (run_steps st (ClassAdd el0 <$> L)) = highlightedRef st
  ∧ ∀ el c, c ∈ classList (run_steps st (ClassAdd el0 <$> L)) el
            ↔ c ∈ classList st el ∨ (el = el0 ∧ c ∈ L).
Proof.
  induction L as [|cls L IH]; intros st.
  - simpl. split; [reflexivity|]. intros el c. split; [tauto|].
    intros [H|[_ H]]; [exact H|]. exfalso. revert H. apply not_elem_of_nil.
  - change (run_steps st (ClassAdd el0 <$> cls :: L))
      with (run_steps (mutate st (ClassAdd el0 cls)) (ClassAdd el0 <$> L)).
    destruct (IH (mutate st (ClassAdd el0 cls))) as [Href Hcl].
    split; [rewrite Href; reflexivity|].
    intros el c. rewrite Hcl, classList_mutate, elem_of_cons.
    case_decide as E.
    + subst el. rewrite elem_of_token_add. intuition auto.
    + split; [tauto|]. intros [?|[-> ?]]; [left; assumption | congruence].
Qed.

(** What [clearHighlight] leaves: nothing held, and the element that
    was held stripped of every highlight class. *)
Lemma clearHighlight_spec st :
  highlightedRef (clearHighlight st) = None
  ∧ (∀ el, highlightedRef st = Some el → carries_marker (clearHighlight st) el = false)
  ∧ (∀ el c, c ∈ classList (clearHighlight st) el → c ∈ classList st el).
Proof.
  unfold clearHighlight, clearHighlight_steps.
  destruct (highlightedRef st) as [prev|] eqn:E.
  - rewrite run_steps_app.
    destruct (run_removes prev highlightClasses st) as [Href Hcl].
    set (st1 := run_steps st (ClassRemove prev <$> highlightClasses)) in *.
    assert (Hsame : ∀ el, classList (run_steps st1 [RefAssign None]) el = classList st1 el)
      by reflexivity.
    split; [reflexivity|]. split.
    + intros el [= <-]. apply carries_marker_false. intros c Hc.
      rewrite Hsame, Hcl. intros [_ H]. exact (H eq_refl Hc).
    + intros el c. rewrite Hsame, Hcl. tauto.
  - simpl. split; [exact E|]. split; [discriminate|tauto].
Qed.

Lemma applyHighlight_ref t st : highlightedRef (applyHighlight t st) = t.
Proof.
  unfold applyHighlight, applyHighlight_steps. case_decide as E; [exact E|].
  destruct t as [el|].
  - rewrite run_steps_app.
    change (run_steps ?s (RefAssign (Some el) :: ?l))
      with (run_steps (mutate s (RefAssign (Some el))) l).
    rewrite (proj1 (run_adds el highlightClasses _)). reflexivity.
  - apply clearHighlight_spec.
Qed.

(** [applyHighlight(null)] leaves no element held and the one that was
    held without any highlight class. *)
Lemma applyHighlight_None_spec st :
  highlightedRef (applyHighlight None st) = None
  ∧ ∀ el, highlightedRef st = Some el → carries_marker (applyHighlight None st) el = false.
Proof.
  split; [apply applyHighlight_ref|].
  unfold applyHighlight, applyHighlight_steps. case_decide as E.
  - intros el H. congruence.
  - apply clearHighlight_spec.
Qed.

Lemma Forall_steps_trace_app (P : Overlay → Prop) a : ∀ st b,
  Forall P (steps_trace st a) → Forall P (steps_trace (run_steps st a) b) →
  Forall P (steps_trace st (a ++ b)).
Proof.
  induction a as [|m a IH]; intros st b Ha Hb; [exact Hb|].
  simpl in *. inversion Ha; subst. constructor; [assumption|].
  apply IH; assumption.
Qed.

Lemma marks_within_exclusive owner st : marks_within owner st → exclusive st.
Proof.
  intros H e1 e2 H1 H2. pose proof (H e1 H1). pose proof (H e2 H2). congruence.
Qed.

Lemma marks_within_none owner st : marks_within None st → marks_within owner st.
Proof. intros H el Hel. discriminate (H el Hel). Qed.

Lemma removes_trace prev L : ∀ st,
  marks_within (Some prev) st →
  Forall (marks_within (Some prev)) (steps_trace st (ClassRemove prev <$> L)).
Proof.
  induction L as [|cls L IH]; intros st H.
  - constructor; [exact H|constructor].
  - rewrite fmap_cons. cbn [steps_trace].
    constructor; [exact H|]. apply IH. intros el Hel.
    apply carries_marker_iff in Hel as (c & Hc & Hin).
    rewrite classList_mutate in Hin. case_decide as E; [congruence|].
    apply H, carries_marker_iff. eauto.
Qed.

Lemma adds_trace el0 L : ∀ st,
  marks_within (Some el0) st →
  Forall (marks_within (Some el0)) (steps_trace st (ClassAdd el0 <$> L)).
Proof.
  induction L as [|cls L IH]; intros st H.
  - constructor; [exact H|constructor].
  - rewrite fmap_cons. cbn [steps_trace].
    constructor; [exact H|]. apply IH. intros el Hel.
    apply carries_marker_iff in Hel as (c & Hc & Hin).
    rewrite classList_mutate in Hin. case_decide as E; [congruence|].
    apply H, carries_marker_iff. eauto.
Qed.

Lemma Forall_exclusive owner l : Forall (marks_within owner) l → Forall exclusive l.
Proof.
  intros H. eapply Forall_impl; [exact H|]. intros st. apply marks_within_exclusive.
Qed.

(** Clearing passes only through states with at most one marked
    element, and ends with none. *)
Lemma clear_trace st :
  marker_owned st →
  Forall exclusive (steps_trace st (clearHighlight_steps st))
  ∧ marks_within None (clearHighlight st).
Proof.
  intros Hown. unfold clearHighlight, clearHighlight_steps.
  destruct (highlightedRef st) as [prev|] eqn:E.
  - assert (H0 : marks_within (Some prev) st).
    { intros el Hel. rewrite <- E. apply Hown, Hel. }
    destruct (run_removes prev highlightClasses st) as [Href Hcl].
    assert (H1 : marks_within None (run_steps st (ClassRemove prev <$> highlightClasses))).
    { intros el Hel. apply carries_marker_iff in Hel as (c & Hc & Hin).
      apply Hcl in Hin as [Hin Hnot].
      assert (Some prev = Some el) as [= <-] by (apply H0, carries_marker_iff; eauto).
      destruct (Hnot eq_refl Hc). }
    split.
    + apply Forall_steps_trace_app.
      * apply (Forall_exclusive (Some prev)), removes_trace, H0.
      * cbn [steps_trace].
        repeat constructor; apply (marks_within_exclusive None); exact H1.
    + rewrite run_steps_app. exact H1.
  - assert (H1 : marks_within None st).
    { intros el Hel. rewrite <- E. apply Hown, Hel. }
    split; [|exact H1]. repeat constructor. apply (marks_within_exclusive None), H1.
Qed.

(** Marking a new element on a page without marks passes only through
    states where no other element is marked. *)
Lemma mark_trace st el :
  marks_within None st →
  Forall exclusive (steps_trace st (RefAssign (Some el) :: (ClassAdd el <$> highlightClasses)))
  ∧ marker_owned (run_steps st (RefAssign (Some el) :: (ClassAdd el <$> highlightClasses))).
Proof.
  intros H0.
  change (run_steps st (RefAssign (Some el) :: ?l))
    with (run_steps (mutate st (RefAssign (Some el))) l).
  set (st1 := mutate st (RefAssign (Some el))).
  assert (H1 : marks_within (Some el) st1) by (apply marks_within_none; exact H0).
  split.
  - cbn [steps_trace]. constructor; [apply (marks_within_exclusive None), H0|].
    apply (Forall_exclusive (Some el)), adds_trace, H1.
  - destruct (run_adds el highlightClasses st1) as [Href Hcl].
    intros e He. rewrite Href. simpl.
    apply carries_marker_iff in He as (c & Hc & Hin).
    apply Hcl in Hin as [Hin|[-> _]]; [|reflexivity].
    apply H1, carries_marker_iff. eauto.
Qed.

Lemma applyHighlight_trace st t :
  marker_owned st →
  Forall exclusive (steps_trace st (applyHighlight_steps st t))
  ∧ marker_owned (applyHighlight t st).
Proof.
  intros Hown. unfold applyHighlight, applyHighlight_steps.
  case_decide as E.
  - split; [|exact Hown]. repeat constructor.
    apply (marks_within_exclusive (highlightedRef st)), Hown.
  - destruct (clear_trace st Hown) as [Htr Hnone]. destruct t as [el|].
    + destruct (mark_trace (clearHighlight st) el Hnone) as [Htr' Hown'].
      split.
      * apply Forall_steps_trace_app; assumption.
      * rewrite run_steps_app. exact Hown'.
    + split; [exact Htr|]. intros el Hel. discriminate (Hnone el Hel).
Qed.

Lemma calls_trace_exclusive targets : ∀ st,
  marker_owned st → Forall exclusive (calls_trace st targets).
Proof.
  induction targets as [|t ts IH]; intros st Hown; simpl.
  - repeat constructor. apply (marks_within_exclusive (highlightedRef st)), Hown.
  - destruct (applyHighlight_trace st t Hown) as [Htr Hown'].
    apply Forall_app. split; [exact Htr|]. apply IH, Hown'.
Qed.

(** A page on which no element has a highlight class, as rendered. *)
Lemma mounted_two_buttons_owned : marker_owned (mounted page_two_buttons).
Proof.
  intros el Hel. exfalso.
  apply carries_marker_iff in Hel as (c & Hc & Hin). revert Hin.
  unfold classList, mounted, page_two_buttons. simpl.
  destruct (decide (el = 1%positive)) as [->|N1];
    [|destruct (decide (el = 2%positive)) as [->|N2]].
  - rewrite lookup_insert_eq. simpl. intros Hin.
    apply list_elem_of_singleton in Hin as ->. revert Hc. vm_compute.
    intros Hc. repeat (apply elem_of_cons in Hc as [Hc|Hc]; [discriminate Hc|]).
    revert Hc. apply not_elem_of_nil.
  - rewrite lookup_insert_ne, lookup_singleton_eq by congruence. simpl. intros Hin.
    apply elem_of_cons in Hin as [->|Hin];
      [|apply list_elem_of_singleton in Hin as ->];
      repeat (apply elem_of_cons in Hc as [Hc|Hc]; [discriminate Hc|]);
      revert Hc; apply not_elem_of_nil.
  - rewrite lookup_insert_ne, lookup_singleton_ne by congruence. simpl.
    apply not_elem_of_nil.
Qed.

(** C6.  Starting from a page whose only marked element, if any, is the
    held one, every state that any sequence of [applyHighlight] calls
    passes through, between the single class-list mutations included,
    has at most one element carrying a highlight class.  A call with a
    new non-null target first strips every highlight class from the
    element held before and only then marks the new one. *)
Theorem highlight_exclusive :
  (∀ st targets, marker_owned st → Forall exclusive (calls_trace st targets))
  ∧ (∀ st prev el,
       highlightedRef st = Some prev → Some prev ≠ Some el →
       applyHighlight_steps st (Some el)
         = ((ClassRemove prev <$> highlightClasses) ++ [RefAssign None])
             ++ RefAssign (Some el) :: (ClassAdd el <$> highlightClasses)
       ∧ carries_marker (run_steps st (ClassRemove prev <$> highlightClasses)) prev = false).
Proof.
  split.
  - intros st targets Hown. apply calls_trace_exclusive, Hown.
  - intros st prev el Hprev Hne. split.
    + unfold applyHighlight_steps, clearHighlight_steps. rewrite Hprev.
      case_decide as E; [congruence|reflexivity].
    + apply carries_marker_false. intros c Hc Hin.
      apply (proj2 (run_removes prev highlightClasses st)) in Hin as [_ Hnot].
      exact (Hnot eq_refl Hc).
Qed.

Lemma highlight_exclusive_witness :
  marker_owned (mounted page_two_buttons)
  ∧ Forall exclusive
      (calls_trace (mounted page_two_buttons)
         [Some 1%positive; Some 2%positive; Some 2%positive; None; Some 1%positive]).
Proof.
  split; [exact mounted_two_buttons_owned|].
  apply (proj1 highlight_exclusive). exact mounted_two_buttons_owned.
Defined.

(** C7.  For every target, null included, and from every state, a
    second [applyHighlight] with the same target performs no mutation:
    its run of mutations is empty and the state is unchanged. *)
Theorem applyHighlight_repeat (t : option Element) (st : Overlay) :
  applyHighlight_steps (applyHighlight t st) t = []
  ∧ applyHighlight t (applyHighlight t st) = applyHighlight t st.
Proof.
  assert (H : applyHighlight_steps (applyHighlight t st) t = []).
  { unfold applyHighlight_steps at 1. rewrite applyHighlight_ref.
    case_decide; [reflexivity|congruence]. }
  split; [exact H|]. unfold applyHighlight at 1. rewrite H. reflexivity.
Qed.

(** ** The poll cycle *)

(** Split a conjunction into its parts, leaving each part as stated. *)
Ltac split_conj := repeat match goal with |- _ ∧ _ => split end.

(** Unfold the plumbing of [Js] down to plain state passing. *)
Ltac js_unfold :=
  unfold mbind, mret, Js_bind, Js_ret, read, update, throw; cbn beta iota.

(** The state left by [catch] and [finally] of [pollGaze], and by its
    no-signal branch (lines 163-165 and 180). *)
Lemma cleared_spec st :
  let st' := set_pollingBusyRef false (applyHighlight None (setPosition None st)) in
  position st' = None
  ∧ highlightedRef st' = None
  ∧ (∀ el, highlightedRef st = Some el → carries_marker st' el = false)
  ∧ pollingBusyRef st' = false
  ∧ enabled st' = enabled st
  ∧ backendRef st' = backendRef st
  ∧ pollTimerRef st' = pollTimerRef st.
Proof.
  intros st'. subst st'.
  destruct (run_steps_frame (applyHighlight_steps (setPosition None st) None)
              (setPosition None st)) as (He & Hp & Hb & _ & Ht & _ & _).
  destruct (applyHighlight_None_spec (setPosition None st)) as [Hr Hm].
  repeat split; assumption.
Qed.

Lemma pollGaze_tick_eq new_URL seen st :
  pollGaze_tick new_URL seen st =
  if negb seen || pollingBusyRef st then (Normal Done, st)
  else if truthy_opt (backendRef st) then
    match new_URL "/api/gaze" (default "" (backendRef st)) with
    | Some url => (Normal (AwaitFetch url), set_pollingBusyRef true st)
    | None =>
        (Normal Done,
         set_pollingBusyRef false
           (applyHighlight None (setPosition None (set_pollingBusyRef true st))))
    end
  else (Normal Done, setEnabled false st).
Proof.
  unfold pollGaze_tick, in_try. js_unfold.
  destruct (negb seen || pollingBusyRef st); [reflexivity|].
  destruct (truthy_opt (backendRef st)); [|reflexivity].
  destruct (new_URL "/api/gaze" (default "" (backendRef st))); reflexivity.
Qed.

Lemma pollGaze_fetched_eq r st :
  pollGaze_fetched r st =
  match r with
  | FetchResolved status =>
      if response_ok status then (Normal AwaitJson, st)
      else (Normal Done, set_pollingBusyRef false (applyHighlight None (setPosition None st)))
  | FetchRejected =>
      (Normal Done, set_pollingBusyRef false (applyHighlight None (setPosition None st)))
  end.
Proof.
  unfold pollGaze_fetched, in_try. destruct r as [|status]; [reflexivity|].
  destruct (response_ok status); reflexivity.
Qed.

Lemma pollGaze_decoded_eq env r st :
  pollGaze_decoded env r st =
  (Normal Done,
   set_pollingBusyRef false
     match r with
     | JsonRejected => applyHighlight None (setPosition None st)
     | JsonResolved data =>
         match map_point data (calibrationRef st) (viewport env) with
         | None => applyHighlight None (setPosition None st)
         | Some p => applyHighlight (activateTargetAt env p) (setPosition (Some p) st)
         end
     end).
Proof.
  unfold pollGaze_decoded, in_try. js_unfold. destruct r as [|data]; [reflexivity|]. cbn beta iota.
  destruct (map_point data (calibrationRef st) (viewport env)); reflexivity.
Qed.

Lemma response_ok_false status :
  (status < 200 ∨ 299 < status)%Z → response_ok status = false.
Proof. unfold response_ok. intros H. apply andb_false_iff. lia. Qed.

(** ** Claims about the coordinate mapping *)

(** C1, as the code has it.  For a sample with [calibrated_position]
    [{x, y}] and a calibration [{w, h}], whenever neither of the numbers
    [x * (innerWidth / w)] and [y * (innerHeight / h)] is NaN, the
    mapped point is that pair with each axis clamped by
    [max(12, min(dimension - 12, _))]; when one of them is NaN the
    mapping yields no point.  With a 1920x1080 window, calibration
    1280x720 and the position (640, 360), the pair is (960, 540) before
    the clamp and after it. *)
Theorem calibrated_mapping :
  (∀ cp np cal vp,
     let px := x cp * (of_long (innerWidth vp) / width cal) in
     let py := y cp * (of_long (innerHeight vp) / height cal) in
     let data := {| calibrated_position := Some cp; normalized_pupil := np |} in
     (Number_isNaN px = false → Number_isNaN py = false →
      map_point data (Some cal) vp
        = Some {| x := clamp (innerWidth vp) px; y := clamp (innerHeight vp) py |})
     ∧ (Number_isNaN px = true ∨ Number_isNaN py = true →
        map_point data (Some cal) vp = None))
  ∧ raw_point (calibrated_sample 640 360) (Some calibration_1280_720) vp_1920_1080
      = (Some 960, Some 540)
  ∧ map_point (calibrated_sample 640 360) (Some calibration_1280_720) vp_1920_1080
      = Some {| x := 960; y := 540 |}.
Proof.
  split; [|split; vm_compute; reflexivity].
  intros cp np cal vp px py data. split.
  - intros Hx Hy. unfold map_point, raw_point. simpl. fold px py.
    rewrite Hx, Hy. reflexivity.
  - intros H. apply map_point_None. unfold raw_point. simpl. exact H.
Qed.

Lemma calibrated_mapping_witness :
  Number_isNaN (640 * (of_long 1920 / 1280)) = false
  ∧ Number_isNaN (360 * (of_long 1080 / 720)) = false
  ∧ map_point (calibrated_sample 640 360) (Some calibration_1280_720) vp_1920_1080
      = Some {| x := clamp 1920 (640 * (of_long 1920 / 1280));
                y := clamp 1080 (360 * (of_long 1080 / 720)) |}.
Proof.
  split; [vm_compute; reflexivity|]. split; [vm_compute; reflexivity|].
  apply (proj1 (proj1 calibrated_mapping {| x := 640; y := 360 |} None
                  calibration_1280_720 vp_1920_1080));
    vm_compute; reflexivity.
Defined.

(** C1 as stated fails: a calibration of width 0 and a position with
    x = 0 give 0 * Infinity = NaN, and the mapping yields no point. *)
Lemma calibrated_zero_width_unmapped :
  Number_isNaN (0 * (of_long 1920 / 0)) = true
  ∧ map_point (calibrated_sample 0 360) (Some {| width := 0; height := 720 |}) vp_1920_1080
      = None
  ∧ map_point (calibrated_sample 0 360) (Some {| width := 0; height := 720 |}) vp_1920_1080
      ≠ Some {| x := clamp 1920 (0 * (of_long 1920 / 0));
                y := clamp 1080 (360 * (of_long 1080 / 720)) |}.
Proof.
  assert (H : map_point (calibrated_sample 0 360) (Some {| width := 0; height := 720 |})
                vp_1920_1080 = None) by (vm_compute; reflexivity).
  split; [vm_compute; reflexivity|]. split; [exact H|]. rewrite H. discriminate.
Qed.

(** C2, as the code has it.  For a sample with [normalized_pupil]
    [{x, y}] when the calibrated branch does not apply (no
    [calibrated_position], or no calibration), whenever neither of
    [x * innerWidth] and [y * innerHeight] is NaN the mapped point is
    that pair, clamped as above; when one is NaN there is no point.
    The pupil (0, 0) in a 1920x1080 window gives (0, 0) before the
    clamp and (12, 12) after it. *)
Theorem normalized_mapping :
  (∀ data np cal vp,
     let px := x np * of_long (innerWidth vp) in
     let py := y np * of_long (innerHeight vp) in
     normalized_pupil data = Some np →
     calibrated_position data = None ∨ cal = None →
     (Number_isNaN px = false → Number_isNaN py = false →
      map_point data cal vp
        = Some {| x := clamp (innerWidth vp) px; y := clamp (innerHeight vp) py |})
     ∧ (Number_isNaN px = true ∨ Number_isNaN py = true →
        map_point data cal vp = None))
  ∧ raw_point (normalized_sample 0 0) None vp_1920_1080 = (Some 0, Some 0)
  ∧ map_point (normalized_sample 0 0) None vp_1920_1080 = Some {| x := 12; y := 12 |}.
Proof.
  split; [|split; vm_compute; reflexivity].
  intros data np cal vp px py Hnp Hcal.
  assert (Hraw : raw_point data cal vp = (Some px, Some py)).
  { unfold raw_point. rewrite Hnp.
    destruct Hcal as [-> | ->]; [reflexivity|].
    destruct (calibrated_position data); reflexivity. }
  split.
  - intros Hx Hy. unfold map_point. rewrite Hraw, Hx, Hy. reflexivity.
  - intros H. apply map_point_None. rewrite Hraw. exact H.
Qed.

Lemma normalized_mapping_witness :
  Number_isNaN (0 * of_long 1920) = false
  ∧ Number_isNaN (0 * of_long 1080) = false
  ∧ map_point (normalized_sample 0 0) None vp_1920_1080
      = Some {| x := clamp 1920 (0 * of_long 1920); y := clamp 1080 (0 * of_long 1080) |}.
Proof.
  split; [vm_compute; reflexivity|]. split; [vm_compute; reflexivity|].
  apply (proj1 (proj1 normalized_mapping (normalized_sample 0 0) {| x := 0; y := 0 |}
                  None vp_1920_1080 eq_refl (or_intror eq_refl)));
    vm_compute; reflexivity.
Defined.

(** C2 as stated fails: the pupil x = Infinity (the JSON number 1e999)
    in a window of width 0 gives Infinity * 0 = NaN and no point. *)
Lemma normalized_infinite_unmapped :
  Number_isNaN (infinity * of_long 0) = true
  ∧ map_point (normalized_sample infinity 0) None {| innerWidth := 0; innerHeight := 1080 |}
      = None
  ∧ map_point (normalized_sample infinity 0) None {| innerWidth := 0; innerHeight := 1080 |}
      ≠ Some {| x := clamp 0 (infinity * of_long 0); y := clamp 1080 (0 * of_long 1080) |}.
Proof.
  assert (H : map_point (normalized_sample infinity 0) None
                {| innerWidth := 0; innerHeight := 1080 |} = None)
    by (vm_compute; reflexivity).
  split; [vm_compute; reflexivity|]. split; [exact H|]. rewrite H. discriminate.
Qed.




(** C10.  Whenever the mapping returns a point, each coordinate is at
    least 12, the lower bound being applied last.  In a window whose
    width (height) is below 24 the returned x (y) is exactly 12, which
    is above the upper bound [dimension - 12]. *)
Theorem clamp_lower_bound_wins :
  (∀ data cal vp p,
     map_point data cal vp = Some p →
     (12 <=? x p) = true ∧ (12 <=? y p) = true)
  ∧ (∀ data cal vp p,
       map_point data cal vp = Some p →
       ((0 ≤ innerWidth vp < 24)%Z →
        x p = 12 ∧ (of_long (innerWidth vp) - 12 <? x p) = true)
       ∧ ((0 ≤ innerHeight vp < 24)%Z →
          y p = 12 ∧ (of_long (innerHeight vp) - 12 <? y p) = true)).
Proof.
  split.
  - intros data cal vp p H.
    apply map_point_Some in H as (px & py & _ & Hx & Hy & ->). simpl.
    split; apply clamp_at_least_12; assumption.
  - intros data cal vp p H.
    apply map_point_Some in H as (px & py & _ & Hx & Hy & ->). simpl.
    split; intros Hd; rewrite clamp_narrow by assumption;
      (split; [reflexivity | apply narrow_upper_bound, Hd]).
Qed.

Lemma clamp_lower_bound_wins_witness :
  map_point (normalized_sample 0.5 0.5) None vp_20_1080 = Some {| x := 12; y := 540 |}
  ∧ (0 ≤ innerWidth vp_20_1080 < 24)%Z
  ∧ x {| x := 12; y := 540 |} = 12
  ∧ (of_long (innerWidth vp_20_1080) - 12 <? x {| x := 12; y := 540 |}) = true.
Proof.
  assert (H : map_point (normalized_sample 0.5 0.5) None vp_20_1080
              = Some {| x := 12; y := 540 |}) by (vm_compute; reflexivity).
  assert (Hd : (0 ≤ innerWidth vp_20_1080 < 24)%Z) by (simpl; lia).
  split; [exact H|]. split; [exact Hd|].
  exact (proj1 (proj2 clamp_lower_bound_wins _ _ _ _ H) Hd).
Defined.


(** ** The event loop *)

Section Loop.

Variable JSON_parse : string → option Calibration.
Variable new_URL : string → string → option string.

(** A task whose handler returns normally. *)
Lemma dispatch_eq w handler keep cs st1 :
  handler (overlay w) = (Normal cs, st1) →
  dispatch w handler keep
  = {| overlay := st1; rendered := rendered w; effective := effective w;
       suspended := keep ++ filter (λ c, is_suspended c = true) cs;
       fetched := fetched w ++ requests_of cs;
       next_timer := next_timer w |}.
Proof. intros Hh. unfold dispatch. rewrite Hh. reflexivity. Qed.

(** A handler that starts no call and leaves the state alone. *)
Lemma dispatch_nothing w handler cs :
  handler (overlay w) = (Normal cs, overlay w) →
  Forall (λ c, c = Done) cs →
  dispatch w handler (suspended w) = w.
Proof.
  intros Hh Hcs. rewrite (dispatch_eq w handler _ cs (overlay w) Hh).
  assert (Hf : filter (λ c, is_suspended c = true) cs = []
               ∧ requests_of cs = []).
  { clear Hh. induction Hcs as [|c cs' Hc _ [IH1 IH2]]; [split; reflexivity|]. subst c.
    split; [|exact IH2]. rewrite filter_cons_False by discriminate. exact IH1. }
  destruct Hf as [-> ->]. rewrite !app_nil_r. destruct w; reflexivity.
Qed.

Lemma tick_handler seen st :
  (c ← pollGaze_tick new_URL seen; mret [c]) st
  = (let '(r, st') := pollGaze_tick new_URL seen st in
     match r with
     | Normal c => (Normal [c], st')
     | Throw e => (Throw e, st')
     end).
Proof.
  unfold mbind, Js_bind, mret, Js_ret.
  destruct (pollGaze_tick new_URL seen st) as [[c|e] st']; reflexivity.
Qed.

Lemma decoded_handler env r st :
  (c ← pollGaze_decoded env r; mret [c]) st
  = (Normal [Done], snd (pollGaze_decoded env r st)).
Proof.
  unfold mbind, Js_bind, mret, Js_ret. rewrite pollGaze_decoded_eq. reflexivity.
Qed.

Lemma fetched_handler r st :
  (c ← pollGaze_fetched r; mret [c]) st
  = (let '(res, st') := pollGaze_fetched r st in
     match res with
     | Normal c => (Normal [c], st')
     | Throw e => (Throw e, st')
     end).
Proof.
  unfold mbind, Js_bind, mret, Js_ret.
  destruct (pollGaze_fetched r st) as [[c|e] st']; reflexivity.
Qed.

(** A tick that finds the busy flag up changes nothing at all. *)
Lemma step_tick_busy w :
  pollingBusyRef (overlay w) = true → step JSON_parse new_URL w TimerTick = w.
Proof.
  intros Hbusy. unfold step. destruct (pollTimerRef (overlay w)) eqn:Et; [|reflexivity].
  apply (dispatch_nothing w _ [Done]); [|repeat constructor].
  rewrite tick_handler, pollGaze_tick_eq, Hbusy. reflexivity.
Qed.

(** A tick that finds the flag down, with a backend URL that resolves:
    one request, one more call suspended, the flag up. *)
Lemma step_tick_idle w timer backend url :
  pollTimerRef (overlay w) = Some timer → pollingBusyRef (overlay w) = false →
  backendRef (overlay w) = Some backend → truthy backend = true →
  new_URL "/api/gaze" backend = Some url →
  step JSON_parse new_URL w TimerTick
  = {| overlay := set_pollingBusyRef true (overlay w);
       rendered := rendered w; effective := effective w;
       suspended := suspended w ++ [AwaitFetch url];
       fetched := fetched w ++ [url];
       next_timer := next_timer w |}.
Proof.
  intros Ht Hbusy Hback Htruthy Hurl. unfold step. rewrite Ht.
  apply (dispatch_eq w _ _ [AwaitFetch url]).
  rewrite tick_handler, pollGaze_tick_eq, Hbusy, Hback. cbn [negb orb truthy_opt].
  rewrite Htruthy. change (default "" (Some backend)) with backend. rewrite Hurl.
  reflexivity.
Qed.

Lemma applyHighlight_frame t st :
  enabled (applyHighlight t st) = enabled st
  ∧ position (applyHighlight t st) = position st
  ∧ backendRef (applyHighlight t st) = backendRef st
  ∧ pollTimerRef (applyHighlight t st) = pollTimerRef st
  ∧ pollingBusyRef (applyHighlight t st) = pollingBusyRef st.
Proof.
  destruct (run_steps_frame (applyHighlight_steps st t) st) as (? & ? & ? & _ & ? & ? & _).
  unfold applyHighlight. auto.
Qed.

Lemma clearHighlight_frame st :
  enabled (clearHighlight st) = enabled st
  ∧ position (clearHighlight st) = position st
  ∧ pollingBusyRef (clearHighlight st) = pollingBusyRef st.
Proof.
  destruct (run_steps_frame (clearHighlight_steps st) st) as (? & ? & _ & _ & _ & ? & _).
  unfold clearHighlight. auto.
Qed.

(** The state and the result of a fetch that fails, by rejection or by
    a status outside 200-299. *)
Lemma fetch_failed r st :
  r = FetchRejected ∨ (∃ status, r = FetchResolved status ∧ response_ok status = false) →
  pollGaze_fetched r st
  = (Normal Done, set_pollingBusyRef false (applyHighlight None (setPosition None st))).
Proof.
  intros [-> | (status & -> & Hok)]; rewrite pollGaze_fetched_eq; [|rewrite Hok]; reflexivity.
Qed.

Lemma step_fetch_failed w i u r :
  suspended w !! i = Some (AwaitFetch u) →
  r = FetchRejected ∨ (∃ status, r = FetchResolved status ∧ response_ok status = false) →
  step JSON_parse new_URL w (FetchSettled i r)
  = {| overlay := set_pollingBusyRef false (applyHighlight None (setPosition None (overlay w)));
       rendered := rendered w; effective := effective w;
       suspended := delete i (suspended w);
       fetched := fetched w;
       next_timer := next_timer w |}.
Proof.
  intros Hi Hr. unfold step. rewrite Hi.
  rewrite (dispatch_eq w _ _ [Done]
             (set_pollingBusyRef false (applyHighlight None (setPosition None (overlay w))))).
  - cbn [filter list_filter requests_of omap list_omap is_suspended].
    rewrite decide_False by discriminate. rewrite !app_nil_r. reflexivity.
  - rewrite fetched_handler, (fetch_failed r (overlay w) Hr). reflexivity.
Qed.

(** Ticks and settled promises keep the single-flight condition. *)
Lemma single_flight_step w ev :
  is_loop_event ev = true → single_flight w →
  single_flight (step JSON_parse new_URL w ev).
Proof.
  intros Hev Hinv.
  destruct ev as [ls|key ls|key ls| |i r|i env r| |]; try discriminate Hev.
  - destruct (pollingBusyRef (overlay w)) eqn:Hbusy.
    { rewrite step_tick_busy by exact Hbusy. exact Hinv. }
    destruct Hinv as [[_ Hs]|[Hb _]]; [|congruence].
    unfold step. destruct (pollTimerRef (overlay w)) eqn:Et; [|left; auto].
    pose proof (pollGaze_tick_eq new_URL true (overlay w)) as Htick.
    rewrite Hbusy in Htick. cbn [negb orb] in Htick.
    destruct (truthy_opt (backendRef (overlay w))) eqn:Hback.
    + destruct (new_URL "/api/gaze" (default "" (backendRef (overlay w)))) as [url|] eqn:Hurl.
      * rewrite (dispatch_eq w _ _ [AwaitFetch url] (set_pollingBusyRef true (overlay w)));
          [|rewrite tick_handler, Htick; reflexivity].
        right. cbn [overlay suspended]. rewrite Hs. split; reflexivity.
      * rewrite (dispatch_eq w _ _ [Done]
                   (set_pollingBusyRef false (applyHighlight None
                      (setPosition None (set_pollingBusyRef true (overlay w))))));
          [|rewrite tick_handler, Htick; reflexivity].
        left. cbn [overlay suspended]. rewrite Hs. split; reflexivity.
    + rewrite (dispatch_eq w _ _ [Done] (setEnabled false (overlay w)));
        [|rewrite tick_handler, Htick; reflexivity].
      left. cbn [overlay suspended]. rewrite Hs. split; [exact Hbusy|reflexivity].
  - unfold step. destruct (suspended w !! i) as [[|url|]|] eqn:Ei; try exact Hinv.
    destruct Hinv as [[_ Hs]|[Hb Hlen]]; [rewrite Hs in Ei; discriminate Ei|].
    destruct (suspended w) as [|c [|c' rest]] eqn:Hs; try discriminate Hlen.
    destruct i as [|i]; [|discriminate Ei].
    pose proof (pollGaze_fetched_eq r (overlay w)) as Hf.
    destruct r as [|status]; [|destruct (response_ok status)].
    + rewrite (dispatch_eq w _ _ [Done]
                 (set_pollingBusyRef false (applyHighlight None (setPosition None (overlay w)))));
        [|rewrite fetched_handler, Hf; reflexivity].
      left. split; reflexivity.
    + rewrite (dispatch_eq w _ _ [AwaitJson] (overlay w));
        [|rewrite fetched_handler, Hf; reflexivity].
      right. split; [exact Hb|reflexivity].
    + rewrite (dispatch_eq w _ _ [Done]
                 (set_pollingBusyRef false (applyHighlight None (setPosition None (overlay w)))));
        [|rewrite fetched_handler, Hf; reflexivity].
      left. split; reflexivity.
  - unfold step. destruct (suspended w !! i) as [[|url|]|] eqn:Ei; try exact Hinv.
    destruct Hinv as [[_ Hs]|[Hb Hlen]]; [rewrite Hs in Ei; discriminate Ei|].
    destruct (suspended w) as [|c [|c' rest]] eqn:Hs; try discriminate Hlen.
    destruct i as [|i]; [|discriminate Ei].
    rewrite (dispatch_eq w _ _ [Done] _ (decoded_handler env r (overlay w))).
    left. rewrite pollGaze_decoded_eq. split; reflexivity.
Qed.

Lemma single_flight_run evs : ∀ w,
  single_flight w → Forall (λ ev, is_loop_event ev = true) evs →
  single_flight (run JSON_parse new_URL w evs).
Proof.
  induction evs as [|ev evs IH]; intros w Hinv Hevs; [exact Hinv|].
  inversion Hevs; subst. apply IH; [|assumption].
  apply single_flight_step; assumption.
Qed.

(** C8.  A response whose status is outside 200-299 takes the very path
    of a rejected fetch, in every world where the call is waiting for
    it: the two leave the same world.  The cycle ends there, with
    nothing further awaited and no request issued, so nothing is
    retried within it; the displayed point is null, no element is held,
    the one that was held has lost its highlight classes and the busy
    flag is down.  The interval, [enabled] and the backend URL are as
    before, so the loop goes on: with the interval registered and a
    backend URL that resolves, the next tick issues one request for it
    and suspends at the fetch. *)
Theorem non_2xx_is_network_failure (w : World) (i : nat) (u : string) (status : Z) :
  (status < 200 ∨ 299 < status)%Z →
  suspended w !! i = Some (AwaitFetch u) →
  let w' := step JSON_parse new_URL w (FetchSettled i (FetchResolved status)) in
  w' = step JSON_parse new_URL w (FetchSettled i FetchRejected)
  ∧ (∀ st, pollGaze_fetched (FetchResolved status) st = pollGaze_fetched FetchRejected st
           ∧ fst (pollGaze_fetched (FetchResolved status) st) = Normal Done)
  ∧ position (overlay w') = None
  ∧ highlightedRef (overlay w') = None
  ∧ (∀ el, highlightedRef (overlay w) = Some el → carries_marker (overlay w') el = false)
  ∧ pollingBusyRef (overlay w') = false
  ∧ suspended w' = delete i (suspended w)
  ∧ fetched w' = fetched w
  ∧ (enabled (overlay w') = enabled (overlay w)
     ∧ pollTimerRef (overlay w') = pollTimerRef (overlay w)
     ∧ backendRef (overlay w') = backendRef (overlay w)
     ∧ rendered w' = rendered w
     ∧ effective w' = effective w)
  ∧ (∀ timer backend url,
       pollTimerRef (overlay w) = Some timer →
       backendRef (overlay w) = Some backend → truthy backend = true →
       new_URL "/api/gaze" backend = Some url →
       let w'' := step JSON_parse new_URL w' TimerTick in
       fetched w'' = fetched w ++ [url]
       ∧ suspended w'' = delete i (suspended w) ++ [AwaitFetch url]
       ∧ pollingBusyRef (overlay w'') = true
       ∧ position (overlay w'') = None).
Proof.
  intros Hstatus Hi w'.
  pose proof (response_ok_false status Hstatus) as Hok.
  assert (Hw' : w' = {| overlay := set_pollingBusyRef false
                                     (applyHighlight None (setPosition None (overlay w)));
                        rendered := rendered w; effective := effective w;
                        suspended := delete i (suspended w);
                        fetched := fetched w;
                        next_timer := next_timer w |}).
  { apply (step_fetch_failed w i u _ Hi). right. eauto. }
  destruct (cleared_spec (overlay w)) as (Hp & Hr & Hm & Hb & He & Hback & Ht).
  rewrite Hw'. cbn [overlay rendered effective suspended fetched].
  split_conj; try assumption; try reflexivity.
  - symmetry. apply (step_fetch_failed w i u _ Hi). left. reflexivity.
  - intros st. rewrite !pollGaze_fetched_eq, Hok. split; reflexivity.
  - intros timer backend url Htimer Hbackend Htruthy Hurl.
    rewrite (step_tick_idle _ timer backend url);
      cbn [overlay rendered effective suspended fetched];
      try assumption; try congruence.
    cbn [pollingBusyRef position set_pollingBusyRef].
    split_conj; try reflexivity. exact Hp.
Qed.

(** X23.  The busy flag, as far as it carries.  A tick that finds it up
    returns at once: the world is unchanged, no request is issued and
    nothing is queued.  A tick that issues a request found it down and
    has raised it first, and every way a cycle ends lowers it.  From a
    world where the flag is up exactly while one call is suspended,
    ticks and settled promises keep it so, and a tick fired while that
    call is outstanding is skipped; a call left over from an earlier
    loop is outside this condition. *)
Theorem busy_flag_discipline :
  (∀ seen st, pollingBusyRef st = true →
     pollGaze_tick new_URL seen st = (Normal Done, st))
  ∧ (∀ w, pollingBusyRef (overlay w) = true → step JSON_parse new_URL w TimerTick = w)
  ∧ (∀ seen st url st',
       pollGaze_tick new_URL seen st = (Normal (AwaitFetch url), st') →
       pollingBusyRef st = false ∧ st' = set_pollingBusyRef true st)
  ∧ (∀ seen st st',
       pollingBusyRef st = false → truthy_opt (backendRef st) = true →
       pollGaze_tick new_URL seen st = (Normal Done, st') → pollingBusyRef st' = false)
  ∧ (∀ r st st', pollGaze_fetched r st = (Normal Done, st') → pollingBusyRef st' = false)
  ∧ (∀ env r st,
       fst (pollGaze_decoded env r st) = Normal Done
       ∧ pollingBusyRef (state_after (pollGaze_decoded env r) st) = false)
  ∧ (∀ w evs,
       single_flight w → Forall (λ ev, is_loop_event ev = true) evs →
       single_flight (run JSON_parse new_URL w evs))
  ∧ (∀ w, single_flight w → suspended w ≠ [] →
       step JSON_parse new_URL w TimerTick = w).
Proof.
  repeat apply conj.
  - intros seen st Hb. rewrite pollGaze_tick_eq, Hb, orb_true_r. reflexivity.
  - exact step_tick_busy.
  - intros seen st url st'. rewrite pollGaze_tick_eq.
    destruct (pollingBusyRef st); [rewrite orb_true_r; discriminate|].
    destruct (negb seen); [discriminate|]. cbn [orb].
    destruct (truthy_opt (backendRef st)); [|discriminate].
    destruct (new_URL _ _); [|discriminate]. intros [= _ <-]. auto.
  - intros seen st st' Hb Hback. rewrite pollGaze_tick_eq, Hb, Hback, orb_false_r.
    destruct (negb seen); [intros [= <-]; exact Hb|].
    destruct (new_URL _ _); [discriminate|]. intros [= <-]. reflexivity.
  - intros r st st'. rewrite pollGaze_fetched_eq.
    destruct r as [|status]; [|destruct (response_ok status); [discriminate|]];
      intros [= <-]; reflexivity.
  - intros env r st. unfold state_after. rewrite pollGaze_decoded_eq. split; reflexivity.
  - intros w evs. apply single_flight_run.
  - intros w [[_ Hs]|[Hb _]] Hne; [contradiction|]. apply step_tick_busy, Hb.
Qed.

(** ** Settings *)

(** No exception leaves [syncFromStorage]. *)
Lemma syncFromStorage_returns ls st :
  fst (syncFromStorage JSON_parse ls st) = Normal ().
Proof.
  unfold syncFromStorage, try_catch.
  destruct (syncFromStorage_try JSON_parse ls st) as [[[]|e] st']; reflexivity.
Qed.

Lemma syncFromStorage_blocked st :
  state_after (syncFromStorage JSON_parse StorageBlocked) st
  = clearHighlight (setPosition None (setEnabled false
      (console_warn "Gaze overlay storage sync" st))).
Proof. reflexivity. Qed.

Lemma syncFromStorage_bad_calibration items raw st :
  items !! CALIBRATION_STORAGE_KEY = Some raw → truthy raw = true →
  JSON_parse raw = None →
  state_after (syncFromStorage JSON_parse (StorageItems items)) st
  = clearHighlight (setPosition None (setEnabled false
      (console_warn "Gaze overlay storage sync"
         (set_backendRef (items !! BACKEND_URL_STORAGE_KEY) st)))).
Proof.
  intros Hraw Htruthy Hparse.
  unfold state_after, syncFromStorage, try_catch, syncFromStorage_try, getItem,
    JSON_decode. js_unfold. rewrite Hraw, Htruthy, Hparse. reflexivity.
Qed.

(** When nothing throws, the calibration is the decoded one (none for a
    missing or empty item) and the overlay is enabled exactly when the
    flag is the text [true] and the backend URL is a non-empty string. *)
Lemma syncFromStorage_ok items cal st :
  match items !! CALIBRATION_STORAGE_KEY with
  | Some raw => if truthy raw then JSON_parse raw = Some cal else cal = None
  | None => cal = None
  end →
  let st' := state_after (syncFromStorage JSON_parse (StorageItems items)) st in
  calibrationRef st' = cal
  ∧ backendRef st' = items !! BACKEND_URL_STORAGE_KEY
  ∧ enabled st' = bool_decide (items !! OVERLAY_ENABLED_KEY = Some "true")
                  && truthy_opt (items !! BACKEND_URL_STORAGE_KEY).
Proof.
  intros Hcal st'. subst st'.
  unfold state_after, syncFromStorage, try_catch, syncFromStorage_try, getItem,
    JSON_decode. js_unfold.
  assert (Hframe : ∀ s0, enabled (clearHighlight s0) = enabled s0
                         ∧ backendRef (clearHighlight s0) = backendRef s0
                         ∧ calibrationRef (clearHighlight s0) = calibrationRef s0).
  { intros s0. destruct (run_steps_frame (clearHighlight_steps s0) s0)
      as (He & _ & Hb & Hc & _). unfold clearHighlight. auto. }
  destruct (items !! CALIBRATION_STORAGE_KEY) as [raw|];
    [destruct (truthy raw)|]; rewrite Hcal; cbn beta iota;
    (destruct (bool_decide (items !! OVERLAY_ENABLED_KEY = Some "true")
               && truthy_opt (items !! BACKEND_URL_STORAGE_KEY)) eqn:E;
     [cbn; rewrite E; auto
     |cbn -[clearHighlight]; rewrite E; cbn -[clearHighlight];
      rewrite (proj1 (Hframe _)), (proj1 (proj2 (Hframe _))), (proj2 (proj2 (Hframe _)));
      auto]).
Qed.

(** C9, as the code has it.  No exception leaves [syncFromStorage],
    whatever the storage holds.  A storage read error or a calibration
    text that does not decode is caught: a warning is logged, the
    effective enabled state is forced to false, the displayed point and
    the highlight are cleared, and the calibration held before stays in
    place.  With a calibration that decodes (or none stored) the
    enabled state is the flag combined with the presence of the
    backend URL. *)
Theorem storage_failure_disables (ls : LocalStorage) (st : Overlay) :
  let st' := state_after (syncFromStorage JSON_parse ls) st in
  fst (syncFromStorage JSON_parse ls st) = Normal ()
  ∧ ((ls = StorageBlocked
      ∨ ∃ items raw, ls = StorageItems items
          ∧ items !! CALIBRATION_STORAGE_KEY = Some raw
          ∧ truthy raw = true ∧ JSON_parse raw = None) →
     enabled st' = false
     ∧ position st' = None
     ∧ highlightedRef st' = None
     ∧ (∀ el, highlightedRef st = Some el → carries_marker st' el = false)
     ∧ calibrationRef st' = calibrationRef st
     ∧ console st' = console st ++ ["Gaze overlay storage sync"])
  ∧ (∀ items cal,
       ls = StorageItems items →
       match items !! CALIBRATION_STORAGE_KEY with
       | Some raw => if truthy raw then JSON_parse raw = Some cal else cal = None
       | None => cal = None
       end →
       calibrationRef st' = cal
       ∧ enabled st' = bool_decide (items !! OVERLAY_ENABLED_KEY = Some "true")
                       && truthy_opt (items !! BACKEND_URL_STORAGE_KEY)).
Proof.
  intros st'. split; [apply syncFromStorage_returns|]. split.
  - intros Hfail.
    assert (H : ∃ base, highlightedRef base = highlightedRef st
                  ∧ calibrationRef base = calibrationRef st
                  ∧ console base = console st ++ ["Gaze overlay storage sync"]
                  ∧ st' = clearHighlight (setPosition None (setEnabled false base))).
    { destruct Hfail as [-> | (items & raw & -> & Hraw & Htruthy & Hparse)].
      - exists (console_warn "Gaze overlay storage sync" st).
        repeat split.
      - exists (console_warn "Gaze overlay storage sync"
                  (set_backendRef (items !! BACKEND_URL_STORAGE_KEY) st)).
        repeat split.
        apply (syncFromStorage_bad_calibration items raw st Hraw Htruthy Hparse). }
    destruct H as (base & Hr & Hc & Hcon & ->).
    set (s0 := setPosition None (setEnabled false base)).
    destruct (run_steps_frame (clearHighlight_steps s0) s0) as (He & Hp & _ & Hcal & _ & _ & Hlog).
    destruct (clearHighlight_spec s0) as (Href & Hm & _).
    unfold clearHighlight in *. rewrite He, Hp, Hcal, Hlog.
    repeat split; try assumption. intros el Hel. apply Hm. cbn. congruence.
  - intros items cal -> Hcal.
    destruct (syncFromStorage_ok items cal st Hcal) as (? & _ & ?). auto.
Qed.

End Loop.

(** ** Instances on the sample page *)

Lemma non_2xx_is_network_failure_witness :
  (503 < 200 ∨ 299 < 503)%Z
  ∧ suspended world_polling !! 0%nat = Some (AwaitFetch "http://localhost:8000/api/gaze")
  ∧ step JSON_parse_sample new_URL_origin world_polling (FetchSettled 0 (FetchResolved 503))
    = step JSON_parse_sample new_URL_origin world_polling (FetchSettled 0 FetchRejected)
  ∧ fetched world_polling = ["http://localhost:8000/api/gaze"]
  ∧ fetched (run JSON_parse_sample new_URL_origin world_polling
               [FetchSettled 0 (FetchResolved 503)])
    = ["http://localhost:8000/api/gaze"]
  ∧ fetched (run JSON_parse_sample new_URL_origin world_polling
               [FetchSettled 0 (FetchResolved 503); TimerTick])
    = ["http://localhost:8000/api/gaze"; "http://localhost:8000/api/gaze"]
  ∧ suspended (run JSON_parse_sample new_URL_origin world_polling
                 [FetchSettled 0 (FetchResolved 503); TimerTick])
    = [AwaitFetch "http://localhost:8000/api/gaze"].
Proof.
  assert (H : (503 < 200 ∨ 299 < 503)%Z) by (right; lia).
  assert (Hi : suspended world_polling !! 0%nat
               = Some (AwaitFetch "http://localhost:8000/api/gaze"))
    by (vm_compute; reflexivity).
  assert (Hf : fetched world_polling = ["http://localhost:8000/api/gaze"])
    by (vm_compute; reflexivity).
  destruct (non_2xx_is_network_failure JSON_parse_sample new_URL_origin world_polling 0
              "http://localhost:8000/api/gaze" 503 H Hi)
    as (Hsame & _ & _ & _ & _ & _ & _ & Hquiet & _ & Hnext).
  destruct (Hnext 1%positive "http://localhost:8000" "http://localhost:8000/api/gaze")
    as (Hreq & Hsus & _); try (vm_compute; reflexivity).
  split; [exact H|]. split; [exact Hi|]. split; [exact Hsame|]. split; [exact Hf|].
  unfold run. cbn [foldl]. rewrite Hquiet, Hreq, Hsus, Hf.
  split_conj; vm_compute; reflexivity.
Defined.

Lemma busy_flag_discipline_witness :
  single_flight world_polling
  ∧ suspended world_polling = [AwaitFetch "http://localhost:8000/api/gaze"]
  ∧ step JSON_parse_sample new_URL_origin world_polling TimerTick = world_polling
  ∧ single_flight
      (run JSON_parse_sample new_URL_origin world_polling
         [TimerTick; FetchSettled 0 (FetchResolved 200); TimerTick;
          BodySettled 0 env_over_button_1 (JsonResolved (normalized_sample 0.5 0.5));
          TimerTick]).
Proof.
  assert (Hs : suspended world_polling = [AwaitFetch "http://localhost:8000/api/gaze"])
    by (vm_compute; reflexivity).
  assert (Hsf : single_flight world_polling).
  { right. split; [vm_compute; reflexivity|rewrite Hs; reflexivity]. }
  destruct (busy_flag_discipline JSON_parse_sample new_URL_origin)
    as (_ & _ & _ & _ & _ & _ & Hrun & Hskip).
  split; [exact Hsf|]. split; [exact Hs|]. split.
  - apply Hskip; [exact Hsf|]. rewrite Hs. discriminate.
  - apply Hrun; [exact Hsf|]. repeat constructor.
Defined.

Lemma storage_failure_disables_witness :
  enabled (overlay world_polling) = true
  ∧ enabled (state_after (syncFromStorage JSON_parse_sample StorageBlocked)
               (overlay world_polling)) = false
  ∧ console (state_after (syncFromStorage JSON_parse_sample StorageBlocked)
               (overlay world_polling)) = ["Gaze overlay storage sync"].
Proof.
  split; [vm_compute; reflexivity|].
  destruct (proj1 (proj2 (storage_failure_disables JSON_parse_sample StorageBlocked
                            (overlay world_polling))) (or_introl eq_refl))
    as (He & _ & _ & _ & _ & Hlog).
  split; [exact He|]. rewrite Hlog. vm_compute. reflexivity.
Defined.

(** C9 as stated fails: with the backend URL present and the flag set,
    a calibration text that does not decode turns the overlay off,
    where the same settings without it turn it on. *)
Lemma malformed_calibration_disables :
  JSON_parse_sample "{" = None
  ∧ enabled (state_after (syncFromStorage JSON_parse_sample storage_on)
               (mounted page_two_buttons)) = true
  ∧ enabled (state_after (syncFromStorage JSON_parse_sample storage_bad_calibration)
               (mounted page_two_buttons)) = false
  ∧ enabled (state_after (syncFromStorage JSON_parse_sample storage_bad_calibration)
               (overlay world_polling)) = false.
Proof. split_conj; vm_compute; reflexivity. Qed.

(** C4 does not hold of the code.  The busy flag is one ref shared by
    every [pollGaze] call the component ever makes, and a call resumed
    after its loop was stopped still lowers it (line 180).  The overlay
    is enabled and the request of its first call is outstanding; ticks
    are skipped.  The overlay is switched off, which stops the interval
    and resets the flag, and on again, which starts a second loop
    whose first call issues a request of its own; ticks are skipped
    again.  Then the request of the first loop fails: the [finally] of
    that stale call lowers the flag while the request of the second
    loop is still outstanding, and the next tick of the second loop
    issues a further request instead of being skipped. *)
Theorem stale_call_breaks_single_flight :
  (pollTimerRef (overlay world_polling) = Some 1%positive
   ∧ pollingBusyRef (overlay world_polling) = true
   ∧ suspended world_polling = [AwaitFetch "http://localhost:8000/api/gaze"]
   ∧ fetched world_polling = ["http://localhost:8000/api/gaze"]
   ∧ step JSON_parse_sample new_URL_origin world_polling TimerTick = world_polling)
  ∧ (pollTimerRef (overlay world_disabled) = None
     ∧ pollingBusyRef (overlay world_disabled) = false
     ∧ suspended world_disabled = [AwaitFetch "http://localhost:8000/api/gaze"]
     ∧ fetched world_disabled = ["http://localhost:8000/api/gaze"])
  ∧ (pollTimerRef (overlay world_restarted) = Some 2%positive
     ∧ pollingBusyRef (overlay world_restarted) = true
     ∧ suspended world_restarted
       = [AwaitFetch "http://localhost:8000/api/gaze";
          AwaitFetch "http://localhost:8000/api/gaze"]
     ∧ fetched world_restarted
       = ["http://localhost:8000/api/gaze"; "http://localhost:8000/api/gaze"]
     ∧ step JSON_parse_sample new_URL_origin world_restarted TimerTick = world_restarted)
  ∧ (enabled (overlay world_stale_end) = true
     ∧ pollTimerRef (overlay world_stale_end) = Some 2%positive
     ∧ pollingBusyRef (overlay world_stale_end) = false
     ∧ suspended world_stale_end = [AwaitFetch "http://localhost:8000/api/gaze"]
     ∧ fetched world_stale_end = fetched world_restarted)
  ∧ (suspended (step JSON_parse_sample new_URL_origin world_stale_end TimerTick)
     = [AwaitFetch "http://localhost:8000/api/gaze";
        AwaitFetch "http://localhost:8000/api/gaze"]
     ∧ fetched (step JSON_parse_sample new_URL_origin world_stale_end TimerTick)
       = fetched world_restarted ++ ["http://localhost:8000/api/gaze"]).
Proof. split_conj; vm_compute; reflexivity. Qed.

(** C5 does not hold of the code.  The overlay is enabled and its first
    request is outstanding; the overlay is disabled, which hides the
    point and clears the highlight; the request then resolves, and the
    resumed call applies its result with no check: the point is set
    again and button 1 receives the highlight classes, while the
    overlay stays disabled; nothing is left pending and no timer runs
    that would clear them. *)
Theorem stale_result_applied_after_disable :
  (enabled (overlay world_polling) = true
   ∧ suspended world_polling = [AwaitFetch "http://localhost:8000/api/gaze"])
  ∧ (enabled (overlay world_disabled) = false
     ∧ position (overlay world_disabled) = None
     ∧ highlightedRef (overlay world_disabled) = None
     ∧ pollTimerRef (overlay world_disabled) = None
     ∧ pollingBusyRef (overlay world_disabled) = false
     ∧ suspended world_disabled = [AwaitFetch "http://localhost:8000/api/gaze"])
  ∧ (enabled (overlay world_late) = false
     ∧ position (overlay world_late) = Some {| x := 960; y := 540 |}
     ∧ highlightedRef (overlay world_late) = Some 1%positive
     ∧ carries_marker (overlay world_late) 1%positive = true
     ∧ classList (overlay world_late) 1%positive = "btn" :: highlightClasses
     ∧ suspended world_late = []
     ∧ step JSON_parse_sample new_URL_origin world_late TimerTick = world_late).
Proof. split_conj; vm_compute; reflexivity. Qed.

(** * Further properties of the code *)

(** ** Order on binary64 numbers *)

Lemma SFleb_trans a b c :
  SFleb a b = true → SFleb b c = true → SFleb a c = true.
Proof.
  unfold SFleb.
  destruct a as [[]|[]| |[] m1 e1], b as [[]|[]| |[] m2 e2], c as [[]|[]| |[] m3 e3];
    simpl; try congruence;
    change (Pos.compare_cont Eq m1 m2) with (Pos.compare m1 m2);
    change (Pos.compare_cont Eq m2 m3) with (Pos.compare m2 m3);
    change (Pos.compare_cont Eq m1 m3) with (Pos.compare m1 m3);
    destruct (Z.compare_spec e1 e2), (Z.compare_spec e2 e3), (Z.compare_spec e1 e3);
    try lia; try congruence;
    destruct (Pos.compare_spec m1 m2), (Pos.compare_spec m2 m3), (Pos.compare_spec m1 m3);
    simpl; try lia; try congruence.
Qed.

(** Comparing equal to a finite number is being that number. *)
Lemma SFcompare_eq_finite s m e b :
  SFcompare (S754_finite s m e) b = Some Eq → b = S754_finite s m e.
Proof.
  destruct s, b as [[]|[]| |[] m2 e2]; simpl; try congruence;
    change (Pos.compare_cont Eq m m2) with (Pos.compare m m2);
    destruct (Z.compare_spec e e2); try congruence;
    destruct (Pos.compare_spec m m2); simpl; try congruence.
Qed.

Lemma SFcompare_eq_infinity s b :
  SFcompare (S754_infinity s) b = Some Eq → b = S754_infinity s.
Proof. destruct s, b as [[]|[]| |[] m2 e2]; simpl; congruence. Qed.

Lemma leb_not_nan a b :
  (a <=? b) = true → PrimFloat.is_nan a = false ∧ PrimFloat.is_nan b = false.
Proof.
  rewrite FloatAxioms.leb_spec. unfold SFleb. intros H.
  split; apply not_nan_Prim2SF; intros E; rewrite E in H;
    [|destruct (Prim2SF a)]; discriminate H.
Qed.

Lemma leb_refl a : PrimFloat.is_nan a = false → (a <=? a) = true.
Proof.
  intros Ha. apply not_nan_Prim2SF in Ha.
  rewrite FloatAxioms.leb_spec. unfold SFleb. rewrite (SFcompare_refl _ Ha). reflexivity.
Qed.

Lemma leb_trans a b c : (a <=? b) = true → (b <=? c) = true → (a <=? c) = true.
Proof. rewrite !FloatAxioms.leb_spec. apply SFleb_trans. Qed.

(** Of two numbers, the one that is not below the other is at least it. *)
Lemma ltb_false_leb a b :
  PrimFloat.is_nan a = false → PrimFloat.is_nan b = false →
  (a <? b) = false → (b <=? a) = true.
Proof.
  intros Ha Hb. apply not_nan_Prim2SF in Ha, Hb.
  rewrite FloatAxioms.ltb_spec, FloatAxioms.leb_spec. unfold SFltb, SFleb.
  destruct (SFcompare_total _ _ Ha Hb) as [r E]. rewrite E.
  rewrite (SFcompare_antisym _ _ _ E). destruct r; simpl; congruence.
Qed.

Lemma leb_ltb_false a b : (a <=? b) = true → (b <? a) = false.
Proof.
  rewrite FloatAxioms.ltb_spec, FloatAxioms.leb_spec. unfold SFltb, SFleb.
  destruct (SFcompare (Prim2SF a) (Prim2SF b)) as [r|] eqn:E; [|discriminate].
  rewrite (SFcompare_antisym _ _ _ E). destruct r; simpl; congruence.
Qed.

(** Neither below the other, and the first a finite non-zero number:
    the two are the same number. *)
Lemma incomparable_finite a b s m e :
  Prim2SF a = S754_finite s m e → PrimFloat.is_nan b = false →
  (a <? b) = false → (b <? a) = false → b = a.
Proof.
  intros Ea Hb. apply not_nan_Prim2SF in Hb.
  rewrite !FloatAxioms.ltb_spec. unfold SFltb. rewrite Ea.
  assert (Ha : S754_finite s m e ≠ S754_nan) by discriminate.
  destruct (SFcompare_total _ _ Ha Hb) as [r E]. rewrite E.
  rewrite (SFcompare_antisym _ _ _ E).
  destruct r; simpl; try congruence. intros _ _.
  apply Prim2SF_inj. rewrite Ea. apply (SFcompare_eq_finite _ _ _ _ E).
Qed.

(** ** [Math.min] and [Math.max] as bounds *)

Lemma Math_min_le_l a b :
  PrimFloat.is_nan a = false → PrimFloat.is_nan b = false →
  (Math_min a b <=? a) = true.
Proof.
  intros Ha Hb. unfold Math_min. rewrite Ha, Hb. simpl.
  destruct (a <? b) eqn:Eab; [apply leb_refl, Ha|].
  destruct (b <? a) eqn:Eba; [apply ltb_leb, Eba|].
  destruct (is_negative_zero a); [apply leb_refl, Ha|].
  apply ltb_false_leb; assumption.
Qed.

Lemma Math_min_le_r a b :
  PrimFloat.is_nan a = false → PrimFloat.is_nan b = false →
  (Math_min a b <=? b) = true.
Proof.
  intros Ha Hb. unfold Math_min. rewrite Ha, Hb. simpl.
  destruct (a <? b) eqn:Eab; [apply ltb_leb, Eab|].
  destruct (b <? a) eqn:Eba; [apply leb_refl, Hb|].
  destruct (is_negative_zero a); [|apply leb_refl, Hb].
  apply ltb_false_leb; assumption.
Qed.

Lemma Math_max_cases a b :
  PrimFloat.is_nan a = false → PrimFloat.is_nan b = false →
  Math_max a b = a ∨ Math_max a b = b.
Proof.
  intros Ha Hb. unfold Math_max. rewrite Ha, Hb. simpl.
  destruct (a <? b); [auto|]. destruct (b <? a); [auto|].
  destruct (is_negative_zero a); auto.
Qed.

Lemma Math_max_ge_l a b :
  PrimFloat.is_nan a = false → PrimFloat.is_nan b = false →
  (a <=? Math_max a b) = true.
Proof.
  intros Ha Hb. unfold Math_max. rewrite Ha, Hb. simpl.
  destruct (a <? b) eqn:Eab; [apply ltb_leb, Eab|].
  destruct (b <? a) eqn:Eba; [apply leb_refl, Ha|].
  destruct (is_negative_zero a); [|apply leb_refl, Ha].
  apply ltb_false_leb; assumption.
Qed.

Lemma Math_max_ge_r a b :
  PrimFloat.is_nan a = false → PrimFloat.is_nan b = false →
  (b <=? Math_max a b) = true.
Proof.
  intros Ha Hb. unfold Math_max. rewrite Ha, Hb. simpl.
  destruct (a <? b) eqn:Eab; [apply leb_refl, Hb|].
  destruct (b <? a) eqn:Eba; [apply ltb_leb, Eba|].
  destruct (is_negative_zero a); [apply leb_refl, Hb|].
  apply ltb_false_leb; assumption.
Qed.

Lemma clamp_not_nan d v :
  PrimFloat.is_nan v = false → PrimFloat.is_nan (clamp d v) = false.
Proof.
  intros Hv. unfold clamp.
  pose proof (Math_min_not_nan _ _ (upper_bound_not_nan d) Hv) as Hm.
  destruct (Math_max_cases 12 _ eq_refl Hm) as [-> | ->]; [reflexivity|exact Hm].
Qed.

(** ** The clamp of lines 168-169 *)

(** X1.  In a window where [dimension - 12] is not below 12, the clamped
    coordinate lies between 12 and [dimension - 12]. *)
Theorem clamp_within_margins (d : Z) (v : float) :
  PrimFloat.is_nan v = false →
  (12 <=? of_long d - 12) = true →
  (12 <=? clamp d v) = true ∧ (clamp d v <=? of_long d - 12) = true.
Proof.
  intros Hv Hd. split; [apply clamp_at_least_12, Hv|].
  unfold clamp.
  pose proof (upper_bound_not_nan d) as Hhi.
  pose proof (Math_min_not_nan _ _ Hhi Hv) as Hm.
  destruct (Math_max_cases 12 _ eq_refl Hm) as [-> | ->]; [exact Hd|].
  apply Math_min_le_l; assumption.
Qed.

Lemma clamp_within_margins_witness :
  PrimFloat.is_nan 2500 = false
  ∧ (12 <=? of_long 1920 - 12) = true
  ∧ (12 <=? clamp 1920 2500) = true ∧ (clamp 1920 2500 <=? of_long 1920 - 12) = true.
Proof.
  assert (H1 : PrimFloat.is_nan 2500 = false) by reflexivity.
  assert (H2 : (12 <=? of_long 1920 - 12) = true) by (vm_compute; reflexivity).
  split; [exact H1|]. split; [exact H2|].
  exact (clamp_within_margins 1920 2500 H1 H2).
Defined.

(** X2.  The clamp is monotone: a coordinate further right (down) is never
    displayed further left (up). *)
Theorem clamp_monotone (d : Z) (v1 v2 : float) :
  (v1 <=? v2) = true → (clamp d v1 <=? clamp d v2) = true.
Proof.
  intros H12. destruct (leb_not_nan _ _ H12) as [H1 H2]. unfold clamp.
  pose proof (upper_bound_not_nan d) as Hhi.
  pose proof (Math_min_not_nan _ _ Hhi H1) as Hm1.
  pose proof (Math_min_not_nan _ _ Hhi H2) as Hm2.
  assert (Hm : (Math_min (of_long d - 12) v1 <=? Math_min (of_long d - 12) v2) = true).
  { destruct (Math_min_cases _ _ Hhi H2) as [-> | ->].
    - apply Math_min_le_l; assumption.
    - apply (leb_trans _ v1); [apply Math_min_le_r; assumption|exact H12]. }
  destruct (Math_max_cases 12 _ eq_refl Hm1) as [-> | ->].
  - apply Math_max_ge_l; [reflexivity|exact Hm2].
  - apply (leb_trans _ _ _ Hm). apply Math_max_ge_r; [reflexivity|exact Hm2].
Qed.

Lemma clamp_monotone_witness :
  (300 <=? 1915) = true ∧ (clamp 1920 300 <=? clamp 1920 1915) = true.
Proof.
  assert (H : (300 <=? 1915) = true) by reflexivity.
  split; [exact H|]. exact (clamp_monotone 1920 300 1915 H).
Defined.

Lemma at_least_12_not_zero r s : (12 <=? r) = true → Prim2SF r ≠ S754_zero s.
Proof.
  rewrite FloatAxioms.leb_spec. intros H E. rewrite E in H.
  destruct s; discriminate H.
Qed.

(** Neither below the other, and the first not a zero: the two are the
    same number. *)
Lemma incomparable_eq a b :
  PrimFloat.is_nan a = false → PrimFloat.is_nan b = false →
  (∀ s, Prim2SF a ≠ S754_zero s) →
  (a <? b) = false → (b <? a) = false → b = a.
Proof.
  intros Ha Hb Hz. apply not_nan_Prim2SF in Ha, Hb.
  rewrite !FloatAxioms.ltb_spec. unfold SFltb.
  destruct (SFcompare_total _ _ Ha Hb) as [r E]. rewrite E.
  rewrite (SFcompare_antisym _ _ _ E).
  destruct r; simpl; try congruence. intros _ _.
  apply Prim2SF_inj. destruct (Prim2SF a) as [s|s| |s m e] eqn:Ea.
  - destruct (Hz s eq_refl).
  - apply (SFcompare_eq_infinity _ _ E).
  - congruence.
  - apply (SFcompare_eq_finite _ _ _ _ E).
Qed.

Lemma Math_max_12_fixed r : (12 <=? r) = true → Math_max 12 r = r.
Proof.
  intros Hr. destruct (leb_not_nan _ _ Hr) as [_ Hn].
  rewrite (Math_max_12 r Hn). destruct (12 <? r) eqn:E; [reflexivity|].
  symmetry. apply (incomparable_eq 12 r eq_refl Hn); [|exact E|].
  - intros s. vm_compute. discriminate.
  - apply leb_ltb_false, Hr.
Qed.

(** X3.  Clamping is idempotent: a clamped coordinate is clamped to itself. *)
Theorem clamp_idempotent (d : Z) (v : float) :
  PrimFloat.is_nan v = false → clamp d (clamp d v) = clamp d v.
Proof.
  intros Hv.
  pose proof (upper_bound_not_nan d) as Hhi.
  pose proof (clamp_at_least_12 d v Hv) as Hr.
  pose proof (clamp_not_nan d v Hv) as Hrn.
  pose proof (Math_min_not_nan _ _ Hhi Hv) as Hm.
  set (r := clamp d v) in *. unfold clamp at 1. fold r.
  destruct (of_long d - 12 <? r) eqn:Elt.
  - assert (Er : r = 12).
    { subst r. unfold clamp in *.
      destruct (Math_max_cases 12 _ eq_refl Hm) as [E | E]; [exact E|].
      rewrite E in Elt.
      rewrite (leb_ltb_false _ _ (Math_min_le_l _ _ Hhi Hv)) in Elt. discriminate Elt. }
    rewrite Er in *. clear Er.
    assert (Emin : Math_min (of_long d - 12) 12 = of_long d - 12).
    { unfold Math_min. rewrite Hhi, Elt. reflexivity. }
    rewrite Emin, (Math_max_12 _ Hhi), (ltb_asym _ _ Elt). reflexivity.
  - assert (Emin : Math_min (of_long d - 12) r = r).
    { unfold Math_min. rewrite Hhi, Hrn, Elt. simpl.
      destruct (r <? of_long d - 12) eqn:Egt; [reflexivity|].
      destruct (is_negative_zero (of_long d - 12)); [|reflexivity].
      apply (incomparable_eq r _ Hrn Hhi); [|exact Egt|exact Elt].
      intros s. apply at_least_12_not_zero, Hr. }
    rewrite Emin. apply Math_max_12_fixed, Hr.
Qed.

Lemma clamp_idempotent_witness :
  PrimFloat.is_nan 2500 = false ∧ clamp 1920 (clamp 1920 2500) = clamp 1920 2500.
Proof.
  assert (H : PrimFloat.is_nan 2500 = false) by reflexivity.
  split; [exact H|]. exact (clamp_idempotent 1920 2500 H).
Defined.

Lemma nothing_above_infinity b : (infinity <? b) = false.
Proof.
  rewrite FloatAxioms.ltb_spec. change (Prim2SF infinity) with (S754_infinity false).
  destruct (Prim2SF b) as [[]|[]| |[] ? ?]; reflexivity.
Qed.

Lemma nothing_below_neg_infinity b : (b <? neg_infinity) = false.
Proof.
  rewrite FloatAxioms.ltb_spec. change (Prim2SF neg_infinity) with (S754_infinity true).
  destruct (Prim2SF b) as [[]|[]| |[] ? ?]; reflexivity.
Qed.

(** X4.  An infinite coordinate is not rejected by the guard of lines
    157-166; the clamp puts +Infinity on the larger of 12 and
    [dimension - 12], and -Infinity on 12, in every window. *)
Theorem clamp_infinite (d : Z) :
  clamp d infinity = Math_max 12 (of_long d - 12)
  ∧ clamp d neg_infinity = 12.
Proof.
  pose proof (upper_bound_not_nan d) as Hhi. unfold clamp. split.
  - f_equal. unfold Math_min. rewrite Hhi. simpl.
    destruct (of_long d - 12 <? infinity) eqn:E; [reflexivity|].
    rewrite nothing_above_infinity.
    destruct (is_negative_zero (of_long d - 12)); [reflexivity|].
    symmetry. apply (incomparable_eq infinity _ eq_refl Hhi);
      [|apply nothing_above_infinity|exact E].
    intros s. vm_compute. discriminate.
  - assert (Emin : Math_min (of_long d - 12) neg_infinity = neg_infinity).
    { unfold Math_min. rewrite Hhi. simpl. rewrite nothing_below_neg_infinity.
      destruct (neg_infinity <? of_long d - 12) eqn:E; [reflexivity|].
      destruct (is_negative_zero (of_long d - 12)); [|reflexivity].
      apply (incomparable_eq neg_infinity _ eq_refl Hhi);
        [|exact E|apply nothing_below_neg_infinity].
      intros s. vm_compute. discriminate. }
    rewrite Emin. vm_compute. reflexivity.
Qed.

(** ** The highlight manager, beyond exclusivity *)

Lemma highlight_consistent_ext st st' :
  highlightedRef st' = highlightedRef st → classLists st' = classLists st →
  highlight_consistent st → highlight_consistent st'.
Proof.
  intros Hr Hc [Hown Hheld].
  assert (Hcl : ∀ el, classList st' el = classList st el)
    by (intros el; unfold classList; rewrite Hc; reflexivity).
  assert (Hcm : ∀ el, carries_marker st' el = carries_marker st el)
    by (intros el; unfold carries_marker; rewrite Hcl; reflexivity).
  split.
  - intros el Hel. rewrite Hr. apply Hown. rewrite <- Hcm. exact Hel.
  - intros el c Hel Hc'. rewrite Hcl. apply Hheld; [rewrite <- Hr; exact Hel|exact Hc'].
Qed.

Lemma clearHighlight_consistent st :
  marker_owned st → highlight_consistent (clearHighlight st).
Proof.
  intros Hown. destruct (clear_trace st Hown) as [_ Hnone].
  destruct (clearHighlight_spec st) as (Href & _ & _).
  split.
  - intros el Hel. discriminate (Hnone el Hel).
  - intros el c Hel. rewrite Href in Hel. discriminate Hel.
Qed.

Lemma applyHighlight_consistent t st :
  highlight_consistent st → highlight_consistent (applyHighlight t st).
Proof.
  intros [Hown Hheld]. split; [apply applyHighlight_trace, Hown|].
  intros el c Hel Hc. rewrite applyHighlight_ref in Hel. subst t.
  unfold applyHighlight, applyHighlight_steps. case_decide as E.
  - apply Hheld; assumption.
  - rewrite run_steps_app.
    change (run_steps ?s (RefAssign (Some el) :: ?l))
      with (run_steps (mutate s (RefAssign (Some el))) l).
    apply (proj2 (run_adds el highlightClasses _)). right. auto.
Qed.

(** X5.  From a state where the highlight is on the held element only,
    [applyHighlight(t)] leaves [t] held (nothing, for null), and an
    element carries a highlight class exactly when it is [t], which
    then has all six. *)
Theorem applyHighlight_moves_highlight (t : option Element) (st : Overlay) :
  highlight_consistent st →
  highlightedRef (applyHighlight t st) = t
  ∧ (∀ el, carries_marker (applyHighlight t st) el = true ↔ t = Some el)
  ∧ (∀ el c, t = Some el → c ∈ highlightClasses → c ∈ classList (applyHighlight t st) el).
Proof.
  intros Hc. destruct (applyHighlight_consistent t st Hc) as [Hown Hheld].
  pose proof (applyHighlight_ref t st) as Href.
  split; [exact Href|]. split.
  - intros el. split.
    + intros Hel. rewrite <- Href. apply Hown, Hel.
    + intros ->. apply carries_marker_iff. exists "ring-2". split.
      * apply list_elem_of_here.
      * apply Hheld; [exact Href|apply list_elem_of_here].
  - intros el c -> Hcin. apply Hheld; assumption.
Qed.

Lemma mounted_consistent page :
  unmarked_page page → highlight_consistent (mounted page).
Proof.
  intros Hpage. split.
  - intros el Hel. apply carries_marker_iff in Hel as (c & Hc & Hin).
    destruct (Hpage el c Hc Hin).
  - intros el c Hel. discriminate Hel.
Qed.

Lemma page_two_buttons_unmarked : unmarked_page page_two_buttons.
Proof.
  intros el c Hc Hin.
  assert (H : carries_marker (mounted page_two_buttons) el = true)
    by (apply carries_marker_iff; exists c; split; assumption).
  discriminate (mounted_two_buttons_owned el H).
Qed.

Lemma applyHighlight_moves_highlight_witness :
  highlight_consistent (mounted page_two_buttons)
  ∧ highlightedRef (applyHighlight (Some 2%positive) (mounted page_two_buttons))
      = Some 2%positive
  ∧ carries_marker (applyHighlight (Some 2%positive) (mounted page_two_buttons)) 1%positive
      = false.
Proof.
  assert (H : highlight_consistent (mounted page_two_buttons))
    by (apply mounted_consistent, page_two_buttons_unmarked).
  destruct (applyHighlight_moves_highlight (Some 2%positive) _ H) as (Hr & Hm & _).
  split; [exact H|]. split; [exact Hr|].
  apply not_true_iff_false. intros H1. apply Hm in H1. discriminate H1.
Defined.

(** Classes other than the six highlight classes. *)
Lemma run_steps_other_classes ms : ∀ st el c,
  Forall (λ m, match m with
               | ClassRemove _ cls | ClassAdd _ cls => cls ∈ highlightClasses
               | RefAssign _ => True
               end) ms →
  c ∉ highlightClasses →
  (c ∈ classList (run_steps st ms) el ↔ c ∈ classList st el).
Proof.
  induction ms as [|m ms IH]; intros st el c Hms Hc; [reflexivity|].
  inversion Hms as [|? ? Hm Hms']; subst.
  change (run_steps st (m :: ms)) with (run_steps (mutate st m) ms).
  rewrite (IH _ _ _ Hms' Hc), classList_mutate.
  destruct m as [e cls|e cls|t]; [| |reflexivity]; case_decide as E; try reflexivity; subst e.
  - rewrite elem_of_token_remove. split; [tauto|]. intros H. split; [exact H|].
    intros ->. exact (Hc Hm).
  - rewrite elem_of_token_add. split; [|tauto]. intros [H| ->]; [exact H|].
    destruct (Hc Hm).
Qed.

Lemma applyHighlight_steps_classes st t :
  Forall (λ m, match m with
               | ClassRemove _ cls | ClassAdd _ cls => cls ∈ highlightClasses
               | RefAssign _ => True
               end) (applyHighlight_steps st t).
Proof.
  assert (Hrm : ∀ e, Forall (λ m, match m with
               | ClassRemove _ cls | ClassAdd _ cls => cls ∈ highlightClasses
               | RefAssign _ => True
               end) (ClassRemove e <$> highlightClasses)).
  { intros e. apply Forall_fmap, Forall_forall. intros c Hc. exact Hc. }
  assert (Hadd : ∀ e, Forall (λ m, match m with
               | ClassRemove _ cls | ClassAdd _ cls => cls ∈ highlightClasses
               | RefAssign _ => True
               end) (ClassAdd e <$> highlightClasses)).
  { intros e. apply Forall_fmap, Forall_forall. intros c Hc. exact Hc. }
  assert (Hclear : Forall (λ m, match m with
               | ClassRemove _ cls | ClassAdd _ cls => cls ∈ highlightClasses
               | RefAssign _ => True
               end) (clearHighlight_steps st)).
  { unfold clearHighlight_steps. destruct (highlightedRef st); [|constructor].
    apply Forall_app. split; [apply Hrm|repeat constructor]. }
  unfold applyHighlight_steps. case_decide; [constructor|].
  destruct t as [el|]; [|exact Hclear].
  apply Forall_app. split; [exact Hclear|]. constructor; [exact I|apply Hadd].
Qed.

(** X6.  No sequence of [applyHighlight] calls, from any state, adds or
    removes a class other than the six highlight classes, on any
    element. *)
Theorem applyHighlight_keeps_other_classes
    (targets : list (option Element)) (st : Overlay) (el : Element) (c : string) :
  c ∉ highlightClasses →
  (c ∈ classList (applyHighlight_all targets st) el ↔ c ∈ classList st el).
Proof.
  intros Hc. revert st. induction targets as [|t ts IH]; intros st; [reflexivity|].
  change (applyHighlight_all (t :: ts) st) with (applyHighlight_all ts (applyHighlight t st)).
  rewrite IH. unfold applyHighlight.
  apply run_steps_other_classes; [apply applyHighlight_steps_classes|exact Hc].
Qed.

Lemma applyHighlight_keeps_other_classes_witness :
  ("btn-primary" ∉ highlightClasses)
  ∧ ("btn-primary" ∈ classList (applyHighlight_all [Some 2%positive; Some 1%positive; None]
                                  (mounted page_two_buttons)) 2%positive
     ↔ "btn-primary" ∈ classList (mounted page_two_buttons) 2%positive).
Proof.
  assert (H : "btn-primary" ∉ highlightClasses).
  { intros Hc. repeat (apply elem_of_cons in Hc as [Hc|Hc]; [discriminate Hc|]).
    revert Hc. apply not_elem_of_nil. }
  split; [exact H|]. exact (applyHighlight_keeps_other_classes _ _ _ _ H).
Defined.

Lemma highlightClasses_NoDup : NoDup highlightClasses.
Proof.
  unfold highlightClasses.
  repeat (apply NoDup_cons; split;
          [intros Hc; repeat (apply elem_of_cons in Hc as [Hc|Hc]; [discriminate Hc|]);
           revert Hc; apply not_elem_of_nil|]).
  apply NoDup_nil_2.
Qed.

Lemma run_adds_list el0 L : ∀ st el,
  classList (run_steps st (ClassAdd el0 <$> L)) el
  = if decide (el0 = el) then foldl (λ l c, token_add c l) (classList st el) L
    else classList st el.
Proof.
  induction L as [|cls L IH]; intros st el.
  - simpl. case_decide; reflexivity.
  - change (run_steps st (ClassAdd el0 <$> cls :: L))
      with (run_steps (mutate st (ClassAdd el0 cls)) (ClassAdd el0 <$> L)).
    rewrite IH, classList_mutate. case_decide as E; [subst el|]; reflexivity.
Qed.

Lemma run_removes_list el0 L : ∀ st el,
  classList (run_steps st (ClassRemove el0 <$> L)) el
  = if decide (el0 = el) then foldl (λ l c, token_remove c l) (classList st el) L
    else classList st el.
Proof.
  induction L as [|cls L IH]; intros st el.
  - simpl. case_decide; reflexivity.
  - change (run_steps st (ClassRemove el0 <$> cls :: L))
      with (run_steps (mutate st (ClassRemove el0 cls)) (ClassRemove el0 <$> L)).
    rewrite IH, classList_mutate. case_decide as E; [subst el|]; reflexivity.
Qed.

Lemma token_remove_absent c l : c ∉ l → token_remove c l = l.
Proof.
  unfold token_remove. induction l as [|a l IH]; intros Hc; [reflexivity|].
  apply not_elem_of_cons in Hc as [Hne Hc].
  rewrite filter_cons_True by congruence. rewrite IH by exact Hc. reflexivity.
Qed.

Lemma foldl_token_add_fresh L : ∀ l,
  NoDup L → (∀ c, c ∈ L → c ∉ l) → foldl (λ l c, token_add c l) l L = l ++ L.
Proof.
  induction L as [|c L IH]; intros l Hnd Hfresh; [symmetry; apply app_nil_r|].
  apply NoDup_cons in Hnd as [Hc Hnd].
  change (foldl (λ l c, token_add c l) l (c :: L))
    with (foldl (λ l c, token_add c l) (token_add c l) L).
  assert (Hadd : token_add c l = l ++ [c]).
  { unfold token_add. rewrite bool_decide_eq_false_2; [reflexivity|].
    apply Hfresh. left. }
  rewrite Hadd, IH; [rewrite <- app_assoc; reflexivity|exact Hnd|].
  intros c' Hc' Hin. apply elem_of_app in Hin as [Hin|Hin].
  - apply (Hfresh c'); [right; exact Hc'|exact Hin].
  - apply list_elem_of_singleton in Hin as ->. exact (Hc Hc').
Qed.

Lemma foldl_token_remove_appended L : ∀ l,
  NoDup L → (∀ c, c ∈ L → c ∉ l) →
  foldl (λ l c, token_remove c l) (l ++ L) L = l.
Proof.
  induction L as [|c L IH]; intros l Hnd Hfresh; [apply app_nil_r|].
  apply NoDup_cons in Hnd as [Hc Hnd].
  change (foldl (λ l c, token_remove c l) (l ++ c :: L) (c :: L))
    with (foldl (λ l c, token_remove c l) (token_remove c (l ++ c :: L)) L).
  assert (Hrm : token_remove c (l ++ c :: L) = l ++ L).
  { unfold token_remove. rewrite filter_app, filter_cons_False by (intros H; exact (H eq_refl)).
    fold (token_remove c l). fold (token_remove c L).
    rewrite !token_remove_absent; [reflexivity|exact Hc|apply Hfresh; left]. }
  rewrite Hrm. apply IH; [exact Hnd|].
  intros c' Hc'. apply Hfresh. right. exact Hc'.
Qed.

(** X7.  Round trip: highlighting an element that has none of the highlight
    classes and then clearing gives every element back the class list
    it had, in the same order. *)
Theorem highlight_then_clear (st : Overlay) (el : Element) :
  highlightedRef st = None →
  (∀ c, c ∈ highlightClasses → c ∉ classList st el) →
  highlightedRef (applyHighlight None (applyHighlight (Some el) st)) = None
  ∧ ∀ e, classList (applyHighlight None (applyHighlight (Some el) st)) e = classList st e.
Proof.
  intros Href Hfresh. split; [apply applyHighlight_ref|]. intros e.
  assert (H1 : ∀ e', classList (applyHighlight (Some el) st) e'
                     = if decide (el = e') then classList st el ++ highlightClasses
                       else classList st e').
  { intros e'. unfold applyHighlight, applyHighlight_steps, clearHighlight_steps.
    rewrite Href. rewrite decide_False by discriminate. cbn [app].
    change (run_steps st (RefAssign (Some el) :: ?l))
      with (run_steps (mutate st (RefAssign (Some el))) l).
    rewrite run_adds_list. case_decide as E; [subst e'|reflexivity].
    apply foldl_token_add_fresh; [apply highlightClasses_NoDup|exact Hfresh]. }
  pose proof (applyHighlight_ref (Some el) st) as Href1.
  set (st1 := applyHighlight (Some el) st) in *.
  unfold applyHighlight, applyHighlight_steps, clearHighlight_steps.
  rewrite Href1. rewrite decide_False by discriminate.
  rewrite run_steps_app.
  change (classList (run_steps ?s [RefAssign None]) e) with (classList s e).
  rewrite run_removes_list. case_decide as E.
  - subst e. rewrite H1, decide_True by reflexivity.
    apply foldl_token_remove_appended; [apply highlightClasses_NoDup|exact Hfresh].
  - rewrite H1, decide_False by exact E. reflexivity.
Qed.

Lemma highlight_then_clear_witness :
  highlightedRef (mounted page_two_buttons) = None
  ∧ classList (applyHighlight None (applyHighlight (Some 2%positive)
                 (mounted page_two_buttons))) 2%positive
    = classList (mounted page_two_buttons) 2%positive.
Proof.
  split; [reflexivity|].
  apply (highlight_then_clear (mounted page_two_buttons) 2%positive eq_refl).
  intros c Hc. exact (page_two_buttons_unmarked 2%positive c Hc).
Defined.

(** ** A cycle that yields a point (lines 168-175) *)

(** X8.  When the sample maps to a point, the cycle ends with that point
    displayed, the element resolved under it held (nothing, when there
    is none), the busy flag down and [enabled], the timer and the
    settings untouched; it does not look at [enabled].  If the
    highlight was on the held element only, it is now on the resolved
    element only. *)
Theorem cycle_displays_point (env : Env) (data : GazeData) (st : Overlay) (p : Point) :
  map_point data (calibrationRef st) (viewport env) = Some p →
  let st' := state_after (pollGaze_decoded env (JsonResolved data)) st in
  fst (pollGaze_decoded env (JsonResolved data) st) = Normal Done
  ∧ position st' = Some p
  ∧ highlightedRef st' = activateTargetAt env p
  ∧ pollingBusyRef st' = false
  ∧ enabled st' = enabled st
  ∧ pollTimerRef st' = pollTimerRef st
  ∧ backendRef st' = backendRef st
  ∧ (highlight_consistent st →
     ∀ el, carries_marker st' el = true ↔ activateTargetAt env p = Some el).
Proof.
  intros Hp st'. subst st'. unfold state_after.
  rewrite pollGaze_decoded_eq, Hp. cbn [fst snd].
  destruct (applyHighlight_frame (activateTargetAt env p) (setPosition (Some p) st))
    as (He & Hpos & Hb & Ht & _).
  split_conj; try reflexivity; try assumption.
  - apply applyHighlight_ref.
  - intros Hc el.
    destruct (applyHighlight_consistent (activateTargetAt env p) (setPosition (Some p) st)
                (highlight_consistent_ext st _ eq_refl eq_refl Hc)) as [Hown Hheld].
    pose proof (applyHighlight_ref (activateTargetAt env p) (setPosition (Some p) st)) as Href.
    split.
    + intros Hel. rewrite <- Href. apply Hown, Hel.
    + intros Htarget. apply carries_marker_iff. exists "ring-2". split; [left|].
      apply Hheld; [rewrite Href; exact Htarget|left].
Qed.

Lemma cycle_displays_point_witness :
  map_point (normalized_sample 0.5 0.5) None vp_1920_1080 = Some {| x := 960; y := 540 |}
  ∧ position (state_after (pollGaze_decoded env_over_button_1
                (JsonResolved (normalized_sample 0.5 0.5))) (mounted page_two_buttons))
    = Some {| x := 960; y := 540 |}
  ∧ highlightedRef (state_after (pollGaze_decoded env_over_button_1
                (JsonResolved (normalized_sample 0.5 0.5))) (mounted page_two_buttons))
    = Some 1%positive.
Proof.
  assert (H : map_point (normalized_sample 0.5 0.5) (calibrationRef (mounted page_two_buttons))
                (viewport env_over_button_1) = Some {| x := 960; y := 540 |})
    by (vm_compute; reflexivity).
  destruct (cycle_displays_point env_over_button_1 _ _ _ H) as (_ & Hp & Hr & _).
  split; [exact H|]. split; [exact Hp|exact Hr].
Defined.

(** ** Conditions kept by every handler and every effect run *)

Section Runs.

Variable JSON_parse : string → option Calibration.
Variable new_URL : string → string → option string.

Lemma point_clamped_None st : position st = None → point_clamped st.
Proof. intros H p Hp. congruence. Qed.

Lemma point_clamped_ext st st' :
  position st' = position st → point_clamped st → point_clamped st'.
Proof. intros H Hc p Hp. apply Hc. congruence. Qed.

Lemma backend_known_ext st st' :
  enabled st' = enabled st → backendRef st' = backendRef st →
  backend_known st → backend_known st'.
Proof. unfold backend_known. intros -> ->. auto. Qed.

Lemma cleared_ok st :
  let st' := set_pollingBusyRef false (applyHighlight None (setPosition None st)) in
  point_clamped st' ∧ (highlight_consistent st → highlight_consistent st').
Proof.
  intros st'. subst st'. split.
  - apply point_clamped_None. apply (cleared_spec st).
  - intros Hc.
    apply (highlight_consistent_ext (applyHighlight None (setPosition None st)));
      [reflexivity|reflexivity|].
    apply applyHighlight_consistent.
    exact (highlight_consistent_ext st _ eq_refl eq_refl Hc).
Qed.

(** The shape of the state [syncFromStorage] leaves: the refs read
    from storage aside, either the overlay is enabled with a non-empty
    backend URL and nothing else has changed, or it is disabled with
    the point and the highlight cleared. *)
Lemma syncFromStorage_shape ls st :
  ∃ base,
    (position base = position st ∧ pollTimerRef base = pollTimerRef st
     ∧ pollingBusyRef base = pollingBusyRef st
     ∧ highlightedRef base = highlightedRef st ∧ classLists base = classLists st)
    ∧ ((state_after (syncFromStorage JSON_parse ls) st = setEnabled true base
        ∧ truthy_opt (backendRef base) = true)
       ∨ state_after (syncFromStorage JSON_parse ls) st
         = clearHighlight (setPosition None (setEnabled false base))).
Proof.
  destruct ls as [|items].
  - exists (console_warn "Gaze overlay storage sync" st). split; [repeat split|].
    right. reflexivity.
  - unfold state_after, syncFromStorage, try_catch, syncFromStorage_try, getItem,
      JSON_decode. js_unfold.
    assert (Hframe : ∀ cal,
      let base := set_calibrationRef cal
                    (set_backendRef (items !! BACKEND_URL_STORAGE_KEY) st) in
      position base = position st ∧ pollTimerRef base = pollTimerRef st
      ∧ pollingBusyRef base = pollingBusyRef st
      ∧ highlightedRef base = highlightedRef st ∧ classLists base = classLists st)
      by (intros cal; repeat split).
    destruct (items !! CALIBRATION_STORAGE_KEY) as [raw|];
      [destruct (truthy raw); [destruct (JSON_parse raw) as [cal|]|]|]; cbn beta iota.
    2: { exists (console_warn "Gaze overlay storage sync"
                   (set_backendRef (items !! BACKEND_URL_STORAGE_KEY) st)).
         split; [repeat split|]. right. reflexivity. }
    all: match goal with
         | |- context [set_calibrationRef ?c _] =>
             exists (set_calibrationRef c
                       (set_backendRef (items !! BACKEND_URL_STORAGE_KEY) st));
             split; [apply Hframe|]
         end;
      cbn [backendRef set_calibrationRef set_backendRef];
      destruct (bool_decide (items !! OVERLAY_ENABLED_KEY = Some "true")) eqn:Ef;
      destruct (truthy_opt (items !! BACKEND_URL_STORAGE_KEY)) eqn:Eb;
      cbn [andb]; [left; split; reflexivity|right; reflexivity..].
Qed.

Lemma clearHighlight_timer st : pollTimerRef (clearHighlight st) = pollTimerRef st.
Proof.
  destruct (run_steps_frame (clearHighlight_steps st) st) as (_ & _ & _ & _ & H & _).
  exact H.
Qed.

Lemma clearHighlight_backendRef st : backendRef (clearHighlight st) = backendRef st.
Proof.
  destruct (run_steps_frame (clearHighlight_steps st) st) as (_ & _ & H & _).
  exact H.
Qed.

(** [syncFromStorage] leaves the timer and the busy flag alone. *)
Lemma sync_keeps_loop ls st :
  pollTimerRef (state_after (syncFromStorage JSON_parse ls) st) = pollTimerRef st
  ∧ pollingBusyRef (state_after (syncFromStorage JSON_parse ls) st) = pollingBusyRef st.
Proof.
  destruct (syncFromStorage_shape ls st) as (base & (_ & Ht & Hb & _) & [[-> _] | ->]).
  - split; assumption.
  - rewrite clearHighlight_timer, (proj2 (proj2 (clearHighlight_frame _))).
    split; assumption.
Qed.

(** A disabled overlay after [syncFromStorage] shows nothing. *)
Lemma sync_off_clears ls st :
  enabled (state_after (syncFromStorage JSON_parse ls) st) = false →
  position (state_after (syncFromStorage JSON_parse ls) st) = None
  ∧ highlightedRef (state_after (syncFromStorage JSON_parse ls) st) = None
  ∧ (∀ el, highlightedRef st = Some el →
           carries_marker (state_after (syncFromStorage JSON_parse ls) st) el = false).
Proof.
  intros Hoff.
  destruct (syncFromStorage_shape ls st) as (base & (_ & _ & _ & Hr & _) & [[E _] | E]).
  - rewrite E in Hoff. discriminate Hoff.
  - rewrite E. destruct (clearHighlight_spec (setPosition None (setEnabled false base)))
      as (Href & Hm & _).
    split; [|split].
    + rewrite (proj1 (proj2 (clearHighlight_frame _))). reflexivity.
    + exact Href.
    + intros el Hel. apply Hm. cbn. congruence.
Qed.

Lemma handled_refl st : handled st st.
Proof. split; [reflexivity|]. split; [|split]; auto. Qed.

Lemma handled_cleared st0 st :
  pollTimerRef st = pollTimerRef st0 → enabled st = enabled st0 →
  backendRef st = backendRef st0 → highlightedRef st = highlightedRef st0 →
  classLists st = classLists st0 →
  handled st0 (set_pollingBusyRef false (applyHighlight None (setPosition None st))).
Proof.
  intros Ht He Hb Hr Hc.
  destruct (cleared_spec st) as (_ & _ & _ & _ & He' & Hb' & Ht').
  destruct (cleared_ok st) as [Hp Hcons].
  split; [congruence|]. split; [|split].
  - apply backend_known_ext; congruence.
  - intros _. exact Hp.
  - intros H. apply Hcons. exact (highlight_consistent_ext st0 st Hr Hc H).
Qed.

Lemma sync_handled ls st :
  handled st (state_after (syncFromStorage JSON_parse ls) st)
  ∧ backend_known (state_after (syncFromStorage JSON_parse ls) st).
Proof.
  destruct (syncFromStorage_shape ls st)
    as (base & (Hp & Ht & _ & Hr & Hc) & [[-> Hback] | ->]).
  - split; [|intros _; exact Hback].
    split; [exact Ht|]. split; [intros _ _; exact Hback|]. split.
    + apply point_clamped_ext. exact Hp.
    + apply highlight_consistent_ext; assumption.
  - assert (Hoff : backend_known (clearHighlight (setPosition None (setEnabled false base)))).
    { intros H. rewrite (proj1 (clearHighlight_frame _)) in H. discriminate H. }
    split; [|exact Hoff].
    split; [rewrite clearHighlight_timer; exact Ht|]. split; [|split].
    + intros _. exact Hoff.
    + intros _. apply point_clamped_None.
      rewrite (proj1 (proj2 (clearHighlight_frame _))). reflexivity.
    + intros H. apply clearHighlight_consistent.
      exact (proj1 (highlight_consistent_ext st _ Hr Hc H)).
Qed.

(** A call of [pollGaze] by the interval or by the effect.  Where an
    enabled overlay has a backend URL, the call leaves [enabled] as it
    is: line 127 runs only when the state is false already. *)
Lemma tick_handled st :
  ∃ c st1, pollGaze_tick new_URL true st = (Normal c, st1) ∧ handled st st1
    ∧ (backend_known st → enabled st1 = enabled st)
    ∧ (∀ url, c = AwaitFetch url →
         pollingBusyRef st = false ∧ pollingBusyRef st1 = true
         ∧ new_URL "/api/gaze" (default "" (backendRef st)) = Some url).
Proof.
  rewrite pollGaze_tick_eq. cbn [negb orb].
  destruct (pollingBusyRef st) eqn:Hbusy.
  { exists Done, st. split_conj; auto using handled_refl. discriminate. }
  destruct (truthy_opt (backendRef st)) eqn:Hback.
  - destruct (new_URL "/api/gaze" (default "" (backendRef st))) as [url|] eqn:Hurl.
    + exists (AwaitFetch url). eexists. split; [reflexivity|]. split_conj.
      * split; [reflexivity|]. split; [apply backend_known_ext; reflexivity|]. split.
        -- apply point_clamped_ext. reflexivity.
        -- apply highlight_consistent_ext; reflexivity.
      * reflexivity.
      * intros url' [= <-]. auto.
    + exists Done. eexists. split; [reflexivity|]. split_conj.
      * apply handled_cleared; reflexivity.
      * intros _. apply (cleared_spec (set_pollingBusyRef true st)).
      * discriminate.
  - exists Done. eexists. split; [reflexivity|]. split_conj.
    + split; [reflexivity|]. split; [intros _ H; discriminate H|]. split.
      * apply point_clamped_ext. reflexivity.
      * apply highlight_consistent_ext; reflexivity.
    + intros Hknown. cbn [enabled setEnabled].
      destruct (enabled st) eqn:Hen; [|reflexivity].
      rewrite (Hknown Hen) in Hback. discriminate Hback.
    + discriminate.
Qed.

Lemma fetched_handled r st :
  ∃ c st1, pollGaze_fetched r st = (Normal c, st1) ∧ handled st st1
    ∧ enabled st1 = enabled st ∧ (∀ url, c ≠ AwaitFetch url).
Proof.
  rewrite pollGaze_fetched_eq.
  destruct r as [|status]; [|destruct (response_ok status)].
  - exists Done. eexists. split; [reflexivity|]. split_conj.
    + apply handled_cleared; reflexivity.
    + apply (cleared_spec st).
    + discriminate.
  - exists AwaitJson, st. split_conj; auto using handled_refl.
  - exists Done. eexists. split; [reflexivity|]. split_conj.
    + apply handled_cleared; reflexivity.
    + apply (cleared_spec st).
    + discriminate.
Qed.

Lemma decoded_handled env r st :
  handled st (snd (pollGaze_decoded env r st))
  ∧ enabled (snd (pollGaze_decoded env r st)) = enabled st.
Proof.
  rewrite pollGaze_decoded_eq. cbn [snd].
  assert (Hclear : handled st (set_pollingBusyRef false
                                 (applyHighlight None (setPosition None st)))
                   ∧ enabled (set_pollingBusyRef false
                                (applyHighlight None (setPosition None st))) = enabled st).
  { split; [apply handled_cleared; reflexivity|apply (cleared_spec st)]. }
  destruct r as [|data]; [exact Hclear|].
  destruct (map_point data (calibrationRef st) (viewport env)) as [p|] eqn:Hp;
    [|exact Hclear].
  destruct (applyHighlight_frame (activateTargetAt env p) (setPosition (Some p) st))
    as (He & Hpos & Hb & Ht & _).
  split; [|exact He]. split; [exact Ht|]. split; [|split].
  - apply backend_known_ext; [exact He|exact Hb].
  - intros _ q. cbn [position set_pollingBusyRef]. rewrite Hpos. intros [= <-].
    apply map_point_Some in Hp as (px & py & _ & Hx & Hy & ->).
    split; apply clamp_at_least_12; assumption.
  - intros H. apply (highlight_consistent_ext (applyHighlight (activateTargetAt env p)
                                                 (setPosition (Some p) st)));
      [reflexivity|reflexivity|].
    apply applyHighlight_consistent.
    exact (highlight_consistent_ext st _ eq_refl eq_refl H).
Qed.

Lemma sync_handler ls st :
  (syncFromStorage JSON_parse ls;; mret []) st
  = (Normal ([] : list Cycle), state_after (syncFromStorage JSON_parse ls) st).
Proof.
  pose proof (syncFromStorage_returns JSON_parse ls st) as H.
  unfold state_after, mbind, Js_bind, mret, Js_ret.
  destruct (syncFromStorage JSON_parse ls st) as [[[]|e] st']; [reflexivity|discriminate H].
Qed.

(** Without the flag [true] in storage the overlay ends disabled,
    whatever else is stored. *)
Lemma sync_without_flag items st :
  items !! OVERLAY_ENABLED_KEY ≠ Some "true" →
  enabled (state_after (syncFromStorage JSON_parse (StorageItems items)) st) = false.
Proof.
  intros Hflag.
  assert (Hok : ∀ cal,
    match items !! CALIBRATION_STORAGE_KEY with
    | Some raw => if truthy raw then JSON_parse raw = Some cal else cal = None
    | None => cal = None
    end →
    enabled (state_after (syncFromStorage JSON_parse (StorageItems items)) st) = false).
  { intros cal Hcal.
    destruct (syncFromStorage_ok JSON_parse items cal st Hcal) as (_ & _ & ->).
    rewrite bool_decide_eq_false_2 by exact Hflag. reflexivity. }
  destruct (items !! CALIBRATION_STORAGE_KEY) as [raw|] eqn:Eraw; [|apply (Hok None); reflexivity].
  destruct (truthy raw) eqn:Etr; [|apply (Hok None); reflexivity].
  destruct (JSON_parse raw) as [cal|] eqn:Ep; [apply (Hok cal); reflexivity|].
  rewrite (syncFromStorage_bad_calibration JSON_parse items raw st Eraw Etr Ep).
  rewrite (proj1 (clearHighlight_frame _)). reflexivity.
Qed.

(** The backend URL is taken from storage at line 58, before anything
    can throw. *)
Lemma sync_backendRef items st :
  backendRef (state_after (syncFromStorage JSON_parse (StorageItems items)) st)
  = items !! BACKEND_URL_STORAGE_KEY.
Proof.
  assert (Hok : ∀ cal,
    match items !! CALIBRATION_STORAGE_KEY with
    | Some raw => if truthy raw then JSON_parse raw = Some cal else cal = None
    | None => cal = None
    end →
    backendRef (state_after (syncFromStorage JSON_parse (StorageItems items)) st)
    = items !! BACKEND_URL_STORAGE_KEY).
  { intros cal Hcal.
    destruct (syncFromStorage_ok JSON_parse items cal st Hcal) as (_ & H & _). exact H. }
  destruct (items !! CALIBRATION_STORAGE_KEY) as [raw|] eqn:Eraw; [|apply (Hok None); reflexivity].
  destruct (truthy raw) eqn:Etr; [|apply (Hok None); reflexivity].
  destruct (JSON_parse raw) as [cal|] eqn:Ep; [apply (Hok cal); reflexivity|].
  rewrite (syncFromStorage_bad_calibration JSON_parse items raw st Eraw Etr Ep).
  rewrite clearHighlight_backendRef. reflexivity.
Qed.

Lemma handleKeyDown_escape ev items st :
  event_repeat ev = false → in_text_input ev = false → is_space ev = false →
  event_key ev = "Escape" →
  handleKeyDown JSON_parse ev (StorageItems items) st
  = (Normal {| defaultPrevented := false; clicked := None;
               storage_after := StorageItems (delete OVERLAY_ENABLED_KEY items) |},
     state_after (syncFromStorage JSON_parse
                    (StorageItems (delete OVERLAY_ENABLED_KEY items))) st).
Proof.
  intros Hrep Htext Hspace Hkey.
  unfold handleKeyDown. rewrite Hrep, Htext, Hspace, Hkey. cbn [String.eqb Ascii.eqb Bool.eqb].
  unfold try_catch, removeItem, handleOverlayEvent, state_after. js_unfold.
  pose proof (syncFromStorage_returns JSON_parse
                (StorageItems (delete OVERLAY_ENABLED_KEY items)) st) as H.
  destruct (syncFromStorage JSON_parse _ st) as [[[]|e] st']; [reflexivity|discriminate H].
Qed.

Lemma handleKeyDown_escape_blocked ev st :
  event_repeat ev = false → in_text_input ev = false → is_space ev = false →
  event_key ev = "Escape" →
  handleKeyDown JSON_parse ev StorageBlocked st
  = (Normal {| defaultPrevented := false; clicked := None; storage_after := StorageBlocked |},
     console_warn "Disable overlay via escape" st).
Proof.
  intros Hrep Htext Hspace Hkey.
  unfold handleKeyDown. rewrite Hrep, Htext, Hspace, Hkey. reflexivity.
Qed.

Lemma key_handler ev ls st :
  (handleKeyDown JSON_parse ev ls ≫= λ _, mret ([] : list Cycle)) st
  = (let '(r, st') := handleKeyDown JSON_parse ev ls st in
     match r with
     | Normal _ => (Normal [], st')
     | Throw e => (Throw e, st')
     end).
Proof.
  unfold mbind, Js_bind, mret, Js_ret.
  destruct (handleKeyDown JSON_parse ev ls st) as [[k|e] st']; reflexivity.
Qed.

(** Whatever the key and the storage, the listener returns normally
    and keeps the conditions. *)
Lemma key_handled ev ls st :
  ∃ k st1, handleKeyDown JSON_parse ev ls st = (Normal k, st1) ∧ handled st st1.
Proof.
  destruct (event_repeat ev) eqn:Hrep.
  { eexists _, st. unfold handleKeyDown. rewrite Hrep. split; [reflexivity|apply handled_refl]. }
  destruct (in_text_input ev) eqn:Htext.
  { eexists _, st. unfold handleKeyDown. rewrite Hrep, Htext.
    split; [reflexivity|apply handled_refl]. }
  destruct (is_space ev) eqn:Hspace.
  { eexists _, st. unfold handleKeyDown. rewrite Hrep, Htext, Hspace.
    split; [reflexivity|apply handled_refl]. }
  destruct (String.eqb (event_key ev) "Escape") eqn:Hkey.
  2: { eexists _, st. unfold handleKeyDown. rewrite Hrep, Htext, Hspace, Hkey.
       split; [reflexivity|apply handled_refl]. }
  apply String.eqb_eq in Hkey. destruct ls as [|items].
  - eexists _, _. rewrite (handleKeyDown_escape_blocked ev st Hrep Htext Hspace Hkey).
    split; [reflexivity|]. split; [reflexivity|]. split; [|split].
    + apply backend_known_ext; reflexivity.
    + apply point_clamped_ext. reflexivity.
    + apply highlight_consistent_ext; reflexivity.
  - eexists _, _. rewrite (handleKeyDown_escape ev items st Hrep Htext Hspace Hkey).
    split; [reflexivity|]. apply sync_handled.
Qed.

Lemma storage_handler key ls st :
  (handleStorage JSON_parse key ls ≫= λ _, mret ([] : list Cycle)) st
  = (Normal [],
     if bool_decide (key = Some BACKEND_URL_STORAGE_KEY)
        || bool_decide (key = Some CALIBRATION_STORAGE_KEY)
        || bool_decide (key = Some OVERLAY_ENABLED_KEY)
     then state_after (syncFromStorage JSON_parse ls) st else st).
Proof.
  unfold handleStorage.
  destruct (bool_decide (key = Some BACKEND_URL_STORAGE_KEY)
            || bool_decide (key = Some CALIBRATION_STORAGE_KEY)
            || bool_decide (key = Some OVERLAY_ENABLED_KEY)); [|reflexivity].
  apply sync_handler.
Qed.

(** ** Effect runs *)

(** The state the cleanup and the disabled branch leave. *)
Lemma rerun_off timer st :
  rerun_effect new_URL true false timer st
  = (Normal [Done],
     clearHighlight (setPosition None (set_pollingBusyRef false (set_pollTimerRef None
       (set_pollingBusyRef false (set_pollTimerRef None st)))))).
Proof. reflexivity. Qed.

Lemma rerun_on timer st :
  rerun_effect new_URL false true timer st
  = (let '(r, st1) := pollGaze_tick new_URL true st in
     match r with
     | Normal c => (Normal [c], set_pollTimerRef (Some timer) st1)
     | Throw e => (Throw e, st1)
     end).
Proof.
  unfold rerun_effect, poll_effect. js_unfold. cbn [eqb negb].
  destruct (pollGaze_tick new_URL true st) as [[c|e] st1]; reflexivity.
Qed.

Lemma rerun_same b timer st : rerun_effect new_URL b b timer st = (Normal [], st).
Proof. unfold rerun_effect. rewrite eqb_reflx. reflexivity. Qed.

Lemma quiesced_spec st1 :
  let st2 := clearHighlight (setPosition None (set_pollingBusyRef false (set_pollTimerRef None
               (set_pollingBusyRef false (set_pollTimerRef None st1))))) in
  enabled st2 = enabled st1 ∧ pollTimerRef st2 = None ∧ pollingBusyRef st2 = false
  ∧ position st2 = None ∧ highlightedRef st2 = None
  ∧ backendRef st2 = backendRef st1
  ∧ (∀ el, carries_marker st1 el = false → carries_marker st2 el = false)
  ∧ (∀ el, highlightedRef st1 = Some el → carries_marker st2 el = false).
Proof.
  intros st2. subst st2.
  set (s := setPosition None (set_pollingBusyRef false (set_pollTimerRef None
               (set_pollingBusyRef false (set_pollTimerRef None st1))))).
  destruct (run_steps_frame (clearHighlight_steps s) s) as (He & Hp & Hbk & _ & Ht & Hb & _).
  destruct (clearHighlight_spec s) as (Hr & Hm & Hsub).
  unfold clearHighlight in *. rewrite He, Hp, Ht, Hb, Hbk.
  split_conj; try reflexivity; try assumption.
  - intros el Hel. apply carries_marker_false. intros c Hc Hin.
    apply Hsub in Hin. exact (proj1 (carries_marker_false st1 el) Hel c Hc Hin).
Qed.

(** What an effect run keeps, and what it may start. *)
Lemma rerun_keeps before now timer st :
  (pollTimerRef st ≠ None ↔ before = true) →
  ∃ cs st2,
    rerun_effect new_URL before now timer st = (Normal cs, st2)
    ∧ (pollTimerRef st2 ≠ None ↔ now = true)
    ∧ (backend_known st → backend_known st2)
    ∧ (point_clamped st → point_clamped st2)
    ∧ (highlight_consistent st → highlight_consistent st2)
    ∧ (backend_known st → enabled st2 = enabled st)
    ∧ (length (requests_of cs) ≤ 1)%nat
    ∧ (requests_of cs ≠ [] → now = true ∧ pollingBusyRef st2 = true).
Proof.
  intros Htimer. destruct before, now.
  - exists [], st. rewrite rerun_same. split; [reflexivity|]. split_conj; auto;
      try (cbn; lia); try (intros H; destruct (H eq_refl)).
  - exists [Done]. eexists. rewrite rerun_off. split; [reflexivity|].
    destruct (quiesced_spec st) as (He & Ht & _ & Hp & _ & Hbk & _).
    split_conj.
    + rewrite Ht. split; [intros H; destruct (H eq_refl)|discriminate].
    + apply backend_known_ext; assumption.
    + intros _. apply point_clamped_None. exact Hp.
    + intros Hc. apply clearHighlight_consistent.
      exact (proj1 (highlight_consistent_ext st _ eq_refl eq_refl Hc)).
    + intros _. exact He.
    + cbn. lia.
    + intros H; destruct (H eq_refl).
  - destruct (tick_handled st) as (c & st1 & Htick & (Ht & Hk & Hp & Hc) & He & Hreq).
    exists [c], (set_pollTimerRef (Some timer) st1). rewrite rerun_on, Htick.
    split; [reflexivity|]. split_conj.
    + split; [reflexivity|discriminate].
    + intros H. apply (backend_known_ext st1); [reflexivity|reflexivity|exact (Hk H)].
    + intros H. apply (point_clamped_ext st1); [reflexivity|exact (Hp H)].
    + intros H. apply (highlight_consistent_ext st1); [reflexivity|reflexivity|exact (Hc H)].
    + exact He.
    + destruct c; cbn; lia.
    + destruct c as [|url|]; cbn; try (intros H; destruct (H eq_refl)).
      intros _. split; [reflexivity|]. apply (Hreq url eq_refl).
  - exists [], st. rewrite rerun_same. split; [reflexivity|]. split_conj; auto;
      try (cbn; lia); try (intros H; destruct (H eq_refl)).
Qed.

Lemma flush_eq w cs st2 :
  rerun_effect new_URL (effective w) (rendered w) (next_timer w) (overlay w) = (Normal cs, st2) →
  flush_effects new_URL w
  = {| overlay := st2; rendered := rendered w; effective := rendered w;
       suspended := suspended w ++ filter (λ c, is_suspended c = true) cs;
       fetched := fetched w ++ requests_of cs;
       next_timer := if rendered w && negb (effective w)
                     then Pos.succ (next_timer w) else next_timer w |}.
Proof. intros H. unfold flush_effects. rewrite (dispatch_eq w _ _ cs st2 H). reflexivity. Qed.

(** With no effect pending, nothing runs. *)
Lemma flush_same w : effective w = rendered w → flush_effects new_URL w = w.
Proof.
  intros E. rewrite (flush_eq w [] (overlay w)); [|rewrite E; apply rerun_same].
  rewrite E. destruct (rendered w) eqn:Er; cbn [andb negb];
    cbn [filter list_filter requests_of omap list_omap]; rewrite !app_nil_r;
    destruct w; cbn in *; subst; reflexivity.
Qed.

(** The effects of a render that saw the overlay disabled, after a run
    that saw it enabled: the interval is cleared and the flag lowered,
    the point and the highlight are cleared; suspended calls stay. *)
Lemma flush_off w :
  effective w = true → rendered w = false →
  flush_effects new_URL w
  = {| overlay := clearHighlight (setPosition None (set_pollingBusyRef false
                    (set_pollTimerRef None (set_pollingBusyRef false
                       (set_pollTimerRef None (overlay w))))));
       rendered := false; effective := false;
       suspended := suspended w; fetched := fetched w; next_timer := next_timer w |}.
Proof.
  intros He Hr. pose proof (rerun_off (next_timer w) (overlay w)) as Hrun.
  rewrite <- He in Hrun at 1. rewrite <- Hr in Hrun at 1.
  rewrite (flush_eq w [Done] _ Hrun).
  rewrite Hr. cbn [andb filter list_filter requests_of omap list_omap is_suspended].
  rewrite decide_False by discriminate. rewrite !app_nil_r. reflexivity.
Qed.

(** A render and the effects that follow it, once a handler has left
    an overlay whose effects last ran enabled with the state false. *)
Lemma commit_off w :
  enabled (overlay w) = false → effective w = true →
  run JSON_parse new_URL w [Render; EffectsRun]
  = {| overlay := clearHighlight (setPosition None (set_pollingBusyRef false
                    (set_pollTimerRef None (set_pollingBusyRef false
                       (set_pollTimerRef None (overlay w))))));
       rendered := false; effective := false;
       suspended := suspended w; fetched := fetched w; next_timer := next_timer w |}.
Proof.
  intros Hen Heff. unfold run. cbn [foldl step]. unfold render.
  destruct (rendered w) eqn:Hr.
  - rewrite (flush_same w) by congruence. rewrite Hen.
    rewrite flush_off; cbn [overlay rendered effective suspended fetched next_timer];
      [reflexivity|exact Heff|reflexivity].
  - rewrite (flush_off w Heff Hr).
    cbn [overlay rendered effective suspended fetched next_timer].
    rewrite (proj1 (quiesced_spec (overlay w))), Hen.
    apply flush_same. reflexivity.
Qed.

(** ** Along every run *)

Lemma dispatch_keeps w handler keep cs st1 :
  handler (overlay w) = (Normal cs, st1) → handled (overlay w) st1 →
  lifecycle_ok w →
  lifecycle_ok (dispatch w handler keep)
  ∧ (point_clamped (overlay w) → point_clamped (overlay (dispatch w handler keep)))
  ∧ (highlight_consistent (overlay w) →
     highlight_consistent (overlay (dispatch w handler keep))).
Proof.
  intros Hh (Ht & Hback & Hp & Hc) [Hlife Hknown].
  rewrite (dispatch_eq w handler keep cs st1 Hh).
  unfold lifecycle_ok. cbn [overlay effective]. rewrite Ht. auto.
Qed.

Lemma flush_keeps w :
  lifecycle_ok w →
  lifecycle_ok (flush_effects new_URL w)
  ∧ (point_clamped (overlay w) → point_clamped (overlay (flush_effects new_URL w)))
  ∧ (highlight_consistent (overlay w) →
     highlight_consistent (overlay (flush_effects new_URL w))).
Proof.
  intros [Hlife Hknown].
  destruct (rerun_keeps (effective w) (rendered w) (next_timer w) (overlay w) Hlife)
    as (cs & st2 & Hre & Ht & Hk & Hp & Hc & _).
  rewrite (flush_eq w cs st2 Hre). unfold lifecycle_ok. cbn [overlay effective]. auto.
Qed.

Lemma step_keeps w ev :
  lifecycle_ok w →
  lifecycle_ok (step JSON_parse new_URL w ev)
  ∧ (point_clamped (overlay w) → point_clamped (overlay (step JSON_parse new_URL w ev)))
  ∧ (highlight_consistent (overlay w) →
     highlight_consistent (overlay (step JSON_parse new_URL w ev))).
Proof.
  intros Hlife. destruct ev as [ls|key ls|key ls| |i r|i env r| |]; unfold step.
  - apply (dispatch_keeps w _ _ [] _ (sync_handler ls (overlay w)));
      [apply sync_handled|exact Hlife].
  - unfold storage_event.
    apply (dispatch_keeps w _ _ [] _ (storage_handler key ls (overlay w))); [|exact Hlife].
    destruct (_ || _); [apply sync_handled|apply handled_refl].
  - unfold keydown. destruct (effective w); [|auto].
    destruct (key_handled key ls (overlay w)) as (k & st1 & Hk & Hh).
    apply (dispatch_keeps w _ _ [] st1); [|exact Hh|exact Hlife].
    rewrite key_handler, Hk. reflexivity.
  - destruct (pollTimerRef (overlay w)); [|auto].
    destruct (tick_handled (overlay w)) as (c & st1 & Htick & Hh & _).
    apply (dispatch_keeps w _ _ [c] st1); [|exact Hh|exact Hlife].
    rewrite tick_handler, Htick. reflexivity.
  - destruct (suspended w !! i) as [[|url|]|]; auto.
    destruct (fetched_handled r (overlay w)) as (c & st1 & Hf & Hh & _).
    apply (dispatch_keeps w _ _ [c] st1); [|exact Hh|exact Hlife].
    rewrite fetched_handler, Hf. reflexivity.
  - destruct (suspended w !! i) as [[|url|]|]; auto.
    apply (dispatch_keeps w _ _ [Done] _ (decoded_handler env r (overlay w)));
      [apply decoded_handled|exact Hlife].
  - unfold render, lifecycle_ok. cbn [overlay effective]. exact (flush_keeps w Hlife).
  - exact (flush_keeps w Hlife).
Qed.

Lemma run_keeps evs : ∀ w,
  lifecycle_ok w →
  lifecycle_ok (run JSON_parse new_URL w evs)
  ∧ (point_clamped (overlay w) → point_clamped (overlay (run JSON_parse new_URL w evs)))
  ∧ (highlight_consistent (overlay w) →
     highlight_consistent (overlay (run JSON_parse new_URL w evs))).
Proof.
  induction evs as [|ev evs IH]; intros w Hlife; [auto|].
  destruct (step_keeps w ev Hlife) as (H1 & H2 & H3).
  destruct (IH _ H1) as (H4 & H5 & H6).
  change (run JSON_parse new_URL w (ev :: evs))
    with (run JSON_parse new_URL (step JSON_parse new_URL w ev) evs).
  auto.
Qed.

Lemma boot_lifecycle page : lifecycle_ok (boot page) ∧ point_clamped (mounted page).
Proof.
  split; [split|].
  - cbn. split; [intros H; destruct (H eq_refl)|discriminate].
  - intros H. discriminate H.
  - intros p Hp. discriminate Hp.
Qed.

Lemma run_lifecycle page evs :
  lifecycle_ok (run JSON_parse new_URL (boot page) evs).
Proof. exact (proj1 (run_keeps evs (boot page) (proj1 (boot_lifecycle page)))). Qed.

(** X9.  Along every run from mount, whatever the events, their payloads
    and their order: the interval timer exists exactly while the
    polling effect last ran enabled, and an overlay whose state is
    enabled has a non-empty backend URL.  Once the last render has seen
    the current state and its effects have run, the timer exists
    exactly while the overlay is enabled; between a handler that
    changes the state and those effects it need not. *)
Theorem timer_runs_iff_enabled (page : gmap positive (list string)) (evs : list Event) :
  let w := run JSON_parse new_URL (boot page) evs in
  (pollTimerRef (overlay w) ≠ None ↔ effective w = true)
  ∧ (enabled (overlay w) = true → truthy_opt (backendRef (overlay w)) = true)
  ∧ (settled w → (pollTimerRef (overlay w) ≠ None ↔ enabled (overlay w) = true)).
Proof.
  intros w. destruct (run_lifecycle page evs) as [Ht Hk]. fold w in Ht, Hk.
  split; [exact Ht|]. split; [exact Hk|].
  intros [Hr He]. rewrite <- Hr, <- He. exact Ht.
Qed.

(** X10.  Along every run from mount, a displayed point is at least 12
    pixels from the left and from the top of the window. *)
Theorem displayed_point_clamped
    (page : gmap positive (list string)) (evs : list Event) (p : Point) :
  position (overlay (run JSON_parse new_URL (boot page) evs)) = Some p →
  (12 <=? x p) = true ∧ (12 <=? y p) = true.
Proof.
  destruct (boot_lifecycle page) as [Hl Hp].
  exact (proj1 (proj2 (run_keeps evs (boot page) Hl)) Hp p).
Qed.

(** X11.  Along every run from mount over a page without highlight classes,
    an element carries a highlight class exactly when it is the held
    element, and the held element has all six; so at most one element
    is highlighted at any time, stale results included. *)
Theorem highlight_follows_held
    (page : gmap positive (list string)) (evs : list Event) :
  unmarked_page page →
  let st := overlay (run JSON_parse new_URL (boot page) evs) in
  (∀ el, carries_marker st el = true ↔ highlightedRef st = Some el)
  ∧ (∀ el c, highlightedRef st = Some el → c ∈ highlightClasses → c ∈ classList st el)
  ∧ exclusive st.
Proof.
  intros Hpage st.
  destruct (proj2 (proj2 (run_keeps evs (boot page) (proj1 (boot_lifecycle page))))
              (mounted_consistent page Hpage)) as [Hown Hheld].
  fold st in Hown, Hheld. split_conj.
  - intros el. split; [apply Hown|]. intros Hel.
    apply carries_marker_iff. exists "ring-2". split; [left|].
    apply (Hheld el); [exact Hel|left].
  - exact Hheld.
  - exact (marks_within_exclusive _ _ Hown).
Qed.

(** ** Requests and transitions *)

(** X12.  A settings change that turns off an overlay whose effects ran
    enabled.  The handler itself hides the point and clears the
    highlight, and leaves the interval, the busy flag and the calls in
    flight as they are; it issues no request.  Until React has rendered
    again and run the effects the interval is still registered: a tick
    in between that finds the flag down and a backend URL that
    resolves issues a request.  The effects then stop the interval and
    lower the flag, issue no request and keep the calls in flight. *)
Theorem disable_quiesces (w : World) (ls : LocalStorage) :
  effective w = true →
  let w1 := step JSON_parse new_URL w (SettingsChanged ls) in
  enabled (overlay w1) = false →
  let w2 := run JSON_parse new_URL w1 [Render; EffectsRun] in
  (position (overlay w1) = None
   ∧ highlightedRef (overlay w1) = None
   ∧ (∀ el, highlightedRef (overlay w) = Some el → carries_marker (overlay w1) el = false)
   ∧ pollTimerRef (overlay w1) = pollTimerRef (overlay w)
   ∧ pollingBusyRef (overlay w1) = pollingBusyRef (overlay w)
   ∧ effective w1 = true
   ∧ suspended w1 = suspended w
   ∧ fetched w1 = fetched w)
  ∧ (∀ timer backend url,
       pollTimerRef (overlay w) = Some timer → pollingBusyRef (overlay w) = false →
       backendRef (overlay w1) = Some backend → truthy backend = true →
       new_URL "/api/gaze" backend = Some url →
       fetched (step JSON_parse new_URL w1 TimerTick) = fetched w ++ [url])
  ∧ (enabled (overlay w2) = false
     ∧ effective w2 = false
     ∧ pollTimerRef (overlay w2) = None
     ∧ pollingBusyRef (overlay w2) = false
     ∧ position (overlay w2) = None
     ∧ highlightedRef (overlay w2) = None
     ∧ (∀ el, highlightedRef (overlay w) = Some el → carries_marker (overlay w2) el = false)
     ∧ suspended w2 = suspended w
     ∧ fetched w2 = fetched w).
Proof.
  intros Heff w1 Hoff w2.
  assert (Hw1 : w1 = {| overlay := state_after (syncFromStorage JSON_parse ls) (overlay w);
                        rendered := rendered w; effective := effective w;
                        suspended := suspended w; fetched := fetched w;
                        next_timer := next_timer w |}).
  { subst w1. unfold step.
    rewrite (dispatch_eq w _ _ [] _ (sync_handler ls (overlay w))).
    cbn [filter list_filter requests_of omap list_omap]. rewrite !app_nil_r. reflexivity. }
  assert (Hw2 : w2 = run JSON_parse new_URL w1 [Render; EffectsRun]) by reflexivity.
  rewrite commit_off in Hw2; [|exact Hoff|rewrite Hw1; exact Heff].
  rewrite Hw1 in Hoff. cbn [overlay] in Hoff.
  destruct (sync_off_clears ls (overlay w) Hoff) as (Hp & Hr & Hm).
  destruct (sync_keeps_loop ls (overlay w)) as [Ht Hb].
  destruct (quiesced_spec (overlay w1)) as (He2 & Ht2 & Hb2 & Hp2 & Hr2 & _ & Hkeep & _).
  rewrite Hw2. cbn [overlay rendered effective suspended fetched].
  rewrite He2, Ht2, Hb2, Hp2, Hr2.
  rewrite Hw1 in Hkeep. cbn [overlay] in Hkeep.
  rewrite Hw1. cbn [overlay rendered effective suspended fetched].
  split; [split_conj; try assumption; reflexivity|].
  split; [|split_conj; try assumption; try reflexivity].
  - intros timer backend url Htimer Hbusy Hback Htruthy Hurl.
    rewrite (step_tick_idle _ _ _ timer backend url);
      cbn [overlay fetched]; try assumption; congruence.
  - intros el Hel. apply Hkeep, Hm, Hel.
Qed.

(** The effects of a render that saw the overlay enabled, after a run
    that saw it disabled: [pollGaze] is called once and the interval
    is registered. *)
Lemma commit_on w url :
  enabled (overlay w) = true → rendered w = false → effective w = false →
  pollingBusyRef (overlay w) = false → truthy_opt (backendRef (overlay w)) = true →
  new_URL "/api/gaze" (default "" (backendRef (overlay w))) = Some url →
  run JSON_parse new_URL w [Render; EffectsRun]
  = {| overlay := set_pollTimerRef (Some (next_timer w)) (set_pollingBusyRef true (overlay w));
       rendered := true; effective := true;
       suspended := suspended w ++ [AwaitFetch url];
       fetched := fetched w ++ [url];
       next_timer := Pos.succ (next_timer w) |}.
Proof.
  intros Hen Hr Heff Hbusy Hback Hurl. unfold run. cbn [foldl step]. unfold render.
  rewrite (flush_same w) by congruence. rewrite Hen.
  assert (Hrun : rerun_effect new_URL (effective w) true (next_timer w) (overlay w)
                 = (Normal [AwaitFetch url],
                    set_pollTimerRef (Some (next_timer w))
                      (set_pollingBusyRef true (overlay w)))).
  { rewrite Heff, rerun_on, pollGaze_tick_eq, Hbusy, Hback, Hurl. reflexivity. }
  match goal with
  | |- flush_effects _ ?w1 = _ =>
      rewrite (flush_eq w1 [AwaitFetch url]
                 (set_pollTimerRef (Some (next_timer w)) (set_pollingBusyRef true (overlay w))))
  end; [|exact Hrun].
  cbn [overlay rendered effective suspended fetched next_timer].
  rewrite Heff. reflexivity.
Qed.

(** X13.  A settings change that turns on an idle overlay whose effects
    ran disabled, with a backend URL that resolves.  The handler sets
    the state and the refs; no interval exists yet, so no tick can run
    before the effects.  When React has rendered and run them, one
    cycle has started at once (one request, busy flag up, one call
    suspended at the fetch) and the interval is set; the point and the
    highlight are as they were. *)
Theorem enable_starts_polling
    (w : World) (items : gmap string string) (backend url : string) (cal : Calibration) :
  rendered w = false → effective w = false →
  pollingBusyRef (overlay w) = false →
  items !! OVERLAY_ENABLED_KEY = Some "true" →
  items !! BACKEND_URL_STORAGE_KEY = Some backend →
  truthy backend = true →
  new_URL "/api/gaze" backend = Some url →
  match items !! CALIBRATION_STORAGE_KEY with
  | Some raw => if truthy raw then JSON_parse raw = Some cal else cal = None
  | None => cal = None
  end →
  let w1 := step JSON_parse new_URL w (SettingsChanged (StorageItems items)) in
  let w' := run JSON_parse new_URL w1 [Render; EffectsRun] in
  (enabled (overlay w1) = true
   ∧ pollTimerRef (overlay w1) = pollTimerRef (overlay w)
   ∧ fetched w1 = fetched w
   ∧ suspended w1 = suspended w)
  ∧ enabled (overlay w') = true
  ∧ pollTimerRef (overlay w') = Some (next_timer w)
  ∧ pollingBusyRef (overlay w') = true
  ∧ calibrationRef (overlay w') = cal
  ∧ backendRef (overlay w') = Some backend
  ∧ fetched w' = fetched w ++ [url]
  ∧ suspended w' = suspended w ++ [AwaitFetch url]
  ∧ position (overlay w') = position (overlay w)
  ∧ highlightedRef (overlay w') = highlightedRef (overlay w)
  ∧ settled w'.
Proof.
  intros Hr Heff Hbusy Hflag Hback Htruthy Hurl Hcal w1 w'.
  assert (Hw1 : w1 = {| overlay := state_after (syncFromStorage JSON_parse (StorageItems items))
                                     (overlay w);
                        rendered := rendered w; effective := effective w;
                        suspended := suspended w; fetched := fetched w;
                        next_timer := next_timer w |}).
  { subst w1. unfold step.
    rewrite (dispatch_eq w _ _ [] _ (sync_handler (StorageItems items) (overlay w))).
    cbn [filter list_filter requests_of omap list_omap]. rewrite !app_nil_r. reflexivity. }
  destruct (syncFromStorage_ok JSON_parse items cal (overlay w) Hcal) as (Hc1 & Hb1 & He1).
  rewrite Hflag, Hback in He1. rewrite Hback in Hb1.
  rewrite bool_decide_eq_true_2 in He1 by reflexivity. cbn [andb truthy_opt] in He1.
  rewrite Htruthy in He1.
  destruct (sync_keeps_loop (StorageItems items) (overlay w)) as [Ht1 Hbusy1].
  destruct (syncFromStorage_shape (StorageItems items) (overlay w))
    as (base & (Hp & _ & _ & Href & _) & [[E _] | E]).
  2: { rewrite E, (proj1 (clearHighlight_frame _)) in He1. discriminate He1. }
  set (st1 := state_after (syncFromStorage JSON_parse (StorageItems items)) (overlay w)) in *.
  assert (Hw' : w' = run JSON_parse new_URL w1 [Render; EffectsRun]) by reflexivity.
  rewrite (commit_on w1 url) in Hw';
    rewrite Hw1; cbn [overlay rendered effective suspended fetched next_timer];
    try assumption; try congruence.
  2: { rewrite Hb1. exact Htruthy. }
  2: { rewrite Hb1. exact Hurl. }
  rewrite Hw1 in Hw'. cbn [overlay rendered effective suspended fetched next_timer] in Hw'.
  rewrite Hw'. cbn [overlay rendered effective suspended fetched next_timer
                    enabled pollTimerRef pollingBusyRef calibrationRef backendRef
                    position highlightedRef set_pollTimerRef set_pollingBusyRef].
  split_conj; try assumption; try reflexivity.
  - rewrite E. cbn. exact Hp.
  - rewrite E. cbn. exact Href.
  - split; cbn [overlay rendered effective enabled set_pollTimerRef set_pollingBusyRef];
      congruence.
Qed.

Lemma settle_quiet (w : World) (i : nat) (ev : Event) :
  (∃ r, ev = FetchSettled i r) ∨ (∃ env r, ev = BodySettled i env r) →
  let w' := step JSON_parse new_URL w ev in
  fetched w' = fetched w
  ∧ enabled (overlay w') = enabled (overlay w)
  ∧ pollTimerRef (overlay w') = pollTimerRef (overlay w)
  ∧ (length (suspended w') ≤ length (suspended w))%nat
  ∧ rendered w' = rendered w
  ∧ effective w' = effective w.
Proof.
  intros [[r ->] | (env & r & ->)] w'; subst w'; unfold step.
  - destruct (suspended w !! i) as [[|url|]|] eqn:Ei; try (split_conj; auto; lia).
    destruct (fetched_handled r (overlay w)) as (c & st1 & Hf & (Ht & _) & He & Hc).
    rewrite (dispatch_eq w _ _ [c] st1); [|rewrite fetched_handler, Hf; reflexivity].
    cbn [overlay suspended fetched rendered effective].
    pose proof (lookup_lt_Some _ _ _ Ei) as Hlt.
    split_conj; auto.
    + destruct c as [|u|]; try (apply app_nil_r). destruct (Hc u eq_refl).
    + rewrite length_app, length_delete by (eexists; exact Ei).
      destruct c; cbn; (case_decide; cbn; lia).
  - destruct (suspended w !! i) as [[|url|]|] eqn:Ei; try (split_conj; auto; lia).
    destruct (decoded_handled env r (overlay w)) as [(Ht & _) He].
    rewrite (dispatch_eq w _ _ [Done] _ (decoded_handler env r (overlay w))).
    cbn [overlay suspended fetched rendered effective].
    pose proof (lookup_lt_Some _ _ _ Ei) as Hlt.
    split_conj; auto.
    + apply app_nil_r.
    + rewrite length_app, length_delete by (eexists; exact Ei). cbn.
      case_decide; cbn; lia.
Qed.

(** X14.  A settled fetch or body, whatever it settles to and in whatever
    world, issues no request, leaves the timer, [enabled] and the
    pending effects as they were, and suspends no further call. *)
Theorem settle_issues_no_request (w : World) :
  (∀ i r,
     let w' := step JSON_parse new_URL w (FetchSettled i r) in
     fetched w' = fetched w
     ∧ enabled (overlay w') = enabled (overlay w)
     ∧ pollTimerRef (overlay w') = pollTimerRef (overlay w)
     ∧ (length (suspended w') ≤ length (suspended w))%nat
     ∧ rendered w' = rendered w
     ∧ effective w' = effective w)
  ∧ (∀ i env r,
       let w' := step JSON_parse new_URL w (BodySettled i env r) in
       fetched w' = fetched w
       ∧ enabled (overlay w') = enabled (overlay w)
       ∧ pollTimerRef (overlay w') = pollTimerRef (overlay w)
       ∧ (length (suspended w') ≤ length (suspended w))%nat
       ∧ rendered w' = rendered w
       ∧ effective w' = effective w).
Proof.
  split.
  - intros i r. apply (settle_quiet w i). left. eauto.
  - intros i env r. apply (settle_quiet w i). right. eauto.
Qed.

(** The requests of one event. *)
Lemma step_requests w ev :
  lifecycle_ok w →
  let w' := step JSON_parse new_URL w ev in
  ∃ new, fetched w' = fetched w ++ new
    ∧ (length new ≤ 1)%nat
    ∧ (new ≠ [] →
       effective w' = true ∧ pollTimerRef (overlay w') ≠ None
       ∧ pollingBusyRef (overlay w') = true)
    ∧ (settled w → new ≠ [] → enabled (overlay w') = true).
Proof.
  intros Hlife w'.
  assert (Hnone : fetched w' = fetched w →
            ∃ new, fetched w' = fetched w ++ new
              ∧ (length new ≤ 1)%nat
              ∧ (new ≠ [] →
                 effective w' = true ∧ pollTimerRef (overlay w') ≠ None
                 ∧ pollingBusyRef (overlay w') = true)
              ∧ (settled w → new ≠ [] → enabled (overlay w') = true)).
  { intros E. exists []. rewrite E, app_nil_r.
    split_conj; [reflexivity|cbn; lia|congruence|congruence]. }
  assert (Hflush : ∀ w0, w0 = flush_effects new_URL w ∨ w0 = render new_URL w →
            ∃ new, fetched w0 = fetched w ++ new
              ∧ (length new ≤ 1)%nat
              ∧ (new ≠ [] →
                 effective w0 = true ∧ pollTimerRef (overlay w0) ≠ None
                 ∧ pollingBusyRef (overlay w0) = true)
              ∧ (settled w → new ≠ [] → enabled (overlay w0) = true)).
  { intros w0 Hw0.
    destruct (rerun_keeps (effective w) (rendered w) (next_timer w) (overlay w) (proj1 Hlife))
      as (cs & st2 & Hre & Ht & _ & _ & _ & _ & Hlen & Hreq).
    pose proof (flush_eq w cs st2 Hre) as Hf.
    assert (E : fetched w0 = fetched w ++ requests_of cs
                ∧ effective w0 = rendered w ∧ overlay w0 = st2).
    { destruct Hw0 as [-> | ->]; [|unfold render]; rewrite Hf; repeat split. }
    destruct E as (E1 & E2 & E3). exists (requests_of cs). rewrite E1, E2, E3.
    split_conj; [reflexivity|exact Hlen| |].
    - intros Hne. destruct (Hreq Hne) as [Hnow Hb]. split_conj; [exact Hnow| |exact Hb].
      apply Ht, Hnow.
    - intros [_ Hs] Hne. exfalso. rewrite Hs, rerun_same in Hre.
      injection Hre as <- _. apply Hne. reflexivity. }
  subst w'. destruct ev as [ls|key ls|key ls| |i r|i env r| |].
  - apply Hnone. unfold step.
    rewrite (dispatch_eq w _ _ [] _ (sync_handler ls (overlay w))). apply app_nil_r.
  - apply Hnone. unfold step, storage_event.
    rewrite (dispatch_eq w _ _ [] _ (storage_handler key ls (overlay w))). apply app_nil_r.
  - apply Hnone. unfold step, keydown. destruct (effective w); [|reflexivity].
    destruct (key_handled key ls (overlay w)) as (k & st1 & Hk & _).
    rewrite (dispatch_eq w _ _ [] st1); [apply app_nil_r|].
    rewrite key_handler, Hk. reflexivity.
  - destruct (pollTimerRef (overlay w)) eqn:Et.
    2: { apply Hnone. unfold step. rewrite Et. reflexivity. }
    unfold step. rewrite Et.
    destruct (tick_handled (overlay w)) as (c & st1 & Htick & (Ht1 & _) & He & Hc).
    rewrite (dispatch_eq w _ _ [c] st1); [|rewrite tick_handler, Htick; reflexivity].
    cbn [fetched overlay effective]. exists (requests_of [c]). split; [reflexivity|].
    assert (Heff : effective w = true) by (apply (proj1 Hlife); congruence).
    destruct c as [|url|]; cbn; split_conj; try lia; try congruence.
    + intros _. split_conj; [exact Heff|congruence|apply (Hc url eq_refl)].
    + intros [Hr Hs] _. rewrite (He (proj2 Hlife)). congruence.
  - apply Hnone. apply (settle_quiet w i (FetchSettled i r)). left. eauto.
  - apply Hnone. apply (settle_quiet w i (BodySettled i env r)). right. eauto.
  - apply Hflush. right. reflexivity.
  - apply Hflush. left. reflexivity.
Qed.

(** X15.  Along every run from mount, an event issues at most one
    request, and when it issues one the polling effect is mounted
    (its last run was enabled, so the interval is registered) and the
    busy flag is up afterwards.  When the last render had seen the
    current state and its effects had run, the overlay is enabled as
    well; a tick that falls between a handler that disables the
    overlay and the effects that stop the interval still polls. *)
Theorem polls_only_while_enabled
    (page : gmap positive (list string)) (evs : list Event) (ev : Event) :
  let w := run JSON_parse new_URL (boot page) evs in
  let w' := step JSON_parse new_URL w ev in
  ∃ new, fetched w' = fetched w ++ new
    ∧ (length new ≤ 1)%nat
    ∧ (new ≠ [] →
       effective w' = true ∧ pollTimerRef (overlay w') ≠ None
       ∧ pollingBusyRef (overlay w') = true)
    ∧ (settled w → new ≠ [] → enabled (overlay w') = true).
Proof. intros w. exact (step_requests w ev (run_lifecycle page evs)). Qed.

(** X16.  Along every run from mount, a tick of the timer leaves the
    state [enabled] as it is.  The branch of lines 126-129 can be
    taken, by a tick that falls between a handler that removed the
    backend URL and the effects that stop the interval, but then the
    state is false already and [setEnabled(false)] changes nothing.
    Once the effects have run for the current state, a registered
    interval finds a backend URL. *)
Theorem tick_keeps_enabled (page : gmap positive (list string)) (evs : list Event) :
  let w := run JSON_parse new_URL (boot page) evs in
  enabled (overlay (step JSON_parse new_URL w TimerTick)) = enabled (overlay w)
  ∧ (truthy_opt (backendRef (overlay w)) = false → enabled (overlay w) = false)
  ∧ (settled w → pollTimerRef (overlay w) ≠ None →
     truthy_opt (backendRef (overlay w)) = true).
Proof.
  intros w. destruct (run_lifecycle page evs) as [Ht Hk]. fold w in Ht, Hk. split_conj.
  - unfold step. destruct (pollTimerRef (overlay w)) eqn:Et; [|reflexivity].
    destruct (tick_handled (overlay w)) as (c & st1 & Htick & _ & He & _).
    rewrite (dispatch_eq w _ _ [c] st1); [|rewrite tick_handler, Htick; reflexivity].
    cbn [overlay]. exact (He Hk).
  - intros Hback. destruct (enabled (overlay w)) eqn:Hen; [|reflexivity].
    rewrite (Hk Hen) in Hback. discriminate Hback.
  - intros [Hr Hs] Htimer. apply Hk. rewrite <- Hr, <- Hs. apply Ht, Htimer.
Qed.

(** ** Listeners *)

(** A key press that reaches the listener. *)
Lemma keydown_eq w ev ls k st1 :
  effective w = true →
  handleKeyDown JSON_parse ev ls (overlay w) = (Normal k, st1) →
  keydown JSON_parse w ev ls
  = {| overlay := st1; rendered := rendered w; effective := effective w;
       suspended := suspended w; fetched := fetched w; next_timer := next_timer w |}.
Proof.
  intros Heff Hk. unfold keydown. rewrite Heff.
  rewrite (dispatch_eq w _ _ [] st1) by (rewrite key_handler, Hk; reflexivity).
  rewrite Heff. cbn [filter list_filter requests_of omap list_omap].
  rewrite !app_nil_r. reflexivity.
Qed.

(** X17.  Escape, pressed while the key listener is registered and
    storage can be written.  The handler removes the flag from storage
    and, whatever else is stored, leaves the state disabled with the
    point hidden and the highlight cleared; the interval, the busy
    flag and the calls in flight are as before, and no request is
    issued.  Until React has rendered and run the effects the interval
    is still registered: a tick in between that finds the flag down
    and a backend URL that resolves issues a request.  The effects
    then stop the interval and lower the flag, issue no request and
    keep the calls in flight. *)
Theorem escape_disables (w : World) (ev : KeyboardEvent) (items : gmap string string) :
  effective w = true →
  event_repeat ev = false → in_text_input ev = false → is_space ev = false →
  event_key ev = "Escape" →
  let w1 := keydown JSON_parse w ev (StorageItems items) in
  let w2 := run JSON_parse new_URL w1 [Render; EffectsRun] in
  fst (handleKeyDown JSON_parse ev (StorageItems items) (overlay w))
    = Normal {| defaultPrevented := false; clicked := None;
                storage_after := StorageItems (delete OVERLAY_ENABLED_KEY items) |}
  ∧ (enabled (overlay w1) = false
     ∧ position (overlay w1) = None
     ∧ highlightedRef (overlay w1) = None
     ∧ (∀ el, highlightedRef (overlay w) = Some el → carries_marker (overlay w1) el = false)
     ∧ pollTimerRef (overlay w1) = pollTimerRef (overlay w)
     ∧ pollingBusyRef (overlay w1) = pollingBusyRef (overlay w)
     ∧ effective w1 = true
     ∧ suspended w1 = suspended w
     ∧ fetched w1 = fetched w)
  ∧ (∀ timer backend url,
       pollTimerRef (overlay w) = Some timer → pollingBusyRef (overlay w) = false →
       items !! BACKEND_URL_STORAGE_KEY = Some backend → truthy backend = true →
       new_URL "/api/gaze" backend = Some url →
       fetched (step JSON_parse new_URL w1 TimerTick) = fetched w ++ [url])
  ∧ (enabled (overlay w2) = false
     ∧ effective w2 = false
     ∧ pollTimerRef (overlay w2) = None
     ∧ pollingBusyRef (overlay w2) = false
     ∧ position (overlay w2) = None
     ∧ highlightedRef (overlay w2) = None
     ∧ (∀ el, highlightedRef (overlay w) = Some el → carries_marker (overlay w2) el = false)
     ∧ suspended w2 = suspended w
     ∧ fetched w2 = fetched w).
Proof.
  intros Heff Hrep Htext Hspace Hkey w1 w2.
  pose proof (handleKeyDown_escape ev items (overlay w) Hrep Htext Hspace Hkey) as Hk.
  set (ls' := StorageItems (delete OVERLAY_ENABLED_KEY items)) in *.
  assert (Hw1 : w1 = {| overlay := state_after (syncFromStorage JSON_parse ls') (overlay w);
                        rendered := rendered w; effective := effective w;
                        suspended := suspended w; fetched := fetched w;
                        next_timer := next_timer w |}).
  { exact (keydown_eq w ev _ _ _ Heff Hk). }
  assert (Hoff : enabled (overlay w1) = false).
  { rewrite Hw1. apply sync_without_flag. rewrite lookup_delete_eq. discriminate. }
  assert (Hw2 : w2 = run JSON_parse new_URL w1 [Render; EffectsRun]) by reflexivity.
  rewrite commit_off in Hw2; [|exact Hoff|rewrite Hw1; exact Heff].
  destruct (quiesced_spec (overlay w1)) as (He2 & Ht2 & Hb2 & Hp2 & Hr2 & _ & Hkeep & _).
  rewrite Hw2. cbn [overlay rendered effective suspended fetched].
  rewrite He2, Ht2, Hb2, Hp2, Hr2. clear Hw2 He2 Ht2 Hb2 Hp2 Hr2.
  rewrite Hw1 in Hoff, Hkeep. cbn [overlay] in Hoff, Hkeep.
  destruct (sync_off_clears ls' (overlay w) Hoff) as (Hp & Hr & Hm).
  destruct (sync_keeps_loop ls' (overlay w)) as [Ht Hb].
  pose proof (sync_backendRef (delete OVERLAY_ENABLED_KEY items) (overlay w)) as Hback.
  rewrite lookup_delete_ne in Hback by discriminate. fold ls' in Hback.
  rewrite Hw1. cbn [overlay rendered effective suspended fetched].
  split; [rewrite Hk; reflexivity|].
  split; [split_conj; try assumption; reflexivity|].
  split; [|split_conj; try assumption; try reflexivity].
  - intros timer backend url Htimer Hbusy Hitem Htruthy Hurl.
    rewrite (step_tick_idle _ _ _ timer backend url);
      cbn [overlay fetched]; try assumption; congruence.
  - intros el Hel. apply Hkeep, Hm, Hel.
Qed.

(** X18.  Escape, pressed while storage cannot be written: the failure is
    caught and logged, and nothing else changes; the overlay keeps
    running as before. *)
Theorem escape_with_blocked_storage (w : World) (ev : KeyboardEvent) :
  effective w = true →
  event_repeat ev = false → in_text_input ev = false → is_space ev = false →
  event_key ev = "Escape" →
  let w' := keydown JSON_parse w ev StorageBlocked in
  overlay w' = console_warn "Disable overlay via escape" (overlay w)
  ∧ enabled (overlay w') = enabled (overlay w)
  ∧ pollTimerRef (overlay w') = pollTimerRef (overlay w)
  ∧ pollingBusyRef (overlay w') = pollingBusyRef (overlay w)
  ∧ suspended w' = suspended w
  ∧ fetched w' = fetched w
  ∧ rendered w' = rendered w
  ∧ effective w' = effective w.
Proof.
  intros Heff Hrep Htext Hspace Hkey w'. subst w'.
  pose proof (handleKeyDown_escape_blocked ev (overlay w) Hrep Htext Hspace Hkey) as Hk.
  rewrite (keydown_eq w ev _ _ _ Heff Hk).
  cbn [overlay suspended fetched rendered effective]. split_conj; reflexivity.
Qed.

(** X19.  The space bar, pressed outside a text input: the default action is
    prevented, the held element (if any) is clicked, once, and nothing
    changes in the component or in storage.  When the highlight is on
    the held element only, the element clicked is exactly the one that
    shows the highlight. *)
Theorem space_clicks_highlighted (w : World) (ev : KeyboardEvent) (ls : LocalStorage) :
  event_repeat ev = false → in_text_input ev = false → is_space ev = true →
  handleKeyDown JSON_parse ev ls (overlay w)
  = (Normal {| defaultPrevented := true; clicked := highlightedRef (overlay w);
               storage_after := ls |}, overlay w)
  ∧ keydown JSON_parse w ev ls = w
  ∧ (highlight_consistent (overlay w) →
     ∀ el, highlightedRef (overlay w) = Some el ↔ carries_marker (overlay w) el = true).
Proof.
  intros Hrep Htext Hspace.
  assert (Hk : handleKeyDown JSON_parse ev ls (overlay w)
               = (Normal {| defaultPrevented := true; clicked := highlightedRef (overlay w);
                            storage_after := ls |}, overlay w)).
  { unfold handleKeyDown. rewrite Hrep, Htext, Hspace. reflexivity. }
  split; [exact Hk|]. split.
  - unfold keydown. destruct (effective w); [|reflexivity].
    apply (dispatch_nothing w _ []); [|constructor]. rewrite key_handler, Hk. reflexivity.
  - intros [Hown Hheld] el. split; [|apply Hown].
    intros Hel. apply carries_marker_iff. exists "ring-2". split; [left|].
    apply (Hheld el); [exact Hel|left].
Qed.

(** X20.  A key press does nothing at all (no click, no default prevented,
    storage and component untouched) when the key listener is not
    registered, which is when the effect of lines 196-230 last ran with
    the overlay disabled, when the event is an auto-repeat, or when its
    target is an INPUT or a TEXTAREA.  This holds for Escape too. *)
Theorem keydown_ignored (w : World) (ev : KeyboardEvent) (ls : LocalStorage) :
  effective w = false ∨ event_repeat ev = true ∨ in_text_input ev = true →
  keydown JSON_parse w ev ls = w
  ∧ (event_repeat ev = true ∨ in_text_input ev = true →
     handleKeyDown JSON_parse ev ls (overlay w)
     = (Normal {| defaultPrevented := false; clicked := None; storage_after := ls |},
        overlay w)).
Proof.
  intros H.
  assert (Hk : event_repeat ev = true ∨ in_text_input ev = true →
     handleKeyDown JSON_parse ev ls (overlay w)
     = (Normal {| defaultPrevented := false; clicked := None; storage_after := ls |},
        overlay w)).
  { unfold handleKeyDown. intros [-> | Ht]; [reflexivity|].
    rewrite Ht. destruct (event_repeat ev); reflexivity. }
  split; [|exact Hk].
  unfold keydown. destruct (effective w) eqn:Heff; [|reflexivity].
  destruct H as [H|H]; [discriminate H|].
  apply (dispatch_nothing w _ []); [|constructor]. rewrite key_handler, (Hk H). reflexivity.
Qed.

(** X21.  A [storage] event that names one of the three keys re-reads the
    settings; one that names another key, or none (the storage was
    cleared), changes nothing, even when the flag is gone. *)
Theorem storage_event_filter (w : World) (key : option string) (ls : LocalStorage) :
  (key = Some BACKEND_URL_STORAGE_KEY ∨ key = Some CALIBRATION_STORAGE_KEY
   ∨ key = Some OVERLAY_ENABLED_KEY →
   storage_event JSON_parse w key ls
   = step JSON_parse new_URL w (SettingsChanged ls))
  ∧ (key ≠ Some BACKEND_URL_STORAGE_KEY → key ≠ Some CALIBRATION_STORAGE_KEY →
     key ≠ Some OVERLAY_ENABLED_KEY →
     storage_event JSON_parse w key ls = w).
Proof.
  unfold storage_event, handleStorage. split.
  - intros H.
    assert (E : bool_decide (key = Some BACKEND_URL_STORAGE_KEY)
                || bool_decide (key = Some CALIBRATION_STORAGE_KEY)
                || bool_decide (key = Some OVERLAY_ENABLED_KEY) = true).
    { destruct H as [-> | [-> | ->]]; reflexivity. }
    rewrite E. reflexivity.
  - intros H1 H2 H3. rewrite !bool_decide_eq_false_2 by assumption. cbn [orb].
    apply (dispatch_nothing w _ []); [|constructor]. reflexivity.
Qed.

(** X22.  The cleanup of the mount effect, from a state where only the held
    element is highlighted: no timer is left, nothing is held and no
    element of the page carries a highlight class. *)
Theorem unmount_clears_page (st : Overlay) :
  marker_owned st →
  let st' := state_after mount_cleanup st in
  fst (mount_cleanup st) = Normal ()
  ∧ pollTimerRef st' = None
  ∧ highlightedRef st' = None
  ∧ (∀ el, carries_marker st' el = false)
  ∧ position st' = position st.
Proof.
  intros Hown st'. subst st'. unfold state_after, mount_cleanup. js_unfold. cbn [fst snd].
  set (s := set_pollTimerRef None st).
  assert (Hown' : marker_owned s) by exact Hown.
  destruct (clear_trace s Hown') as [_ Hnone].
  destruct (clearHighlight_spec s) as (Hr & _ & _).
  split_conj; try reflexivity.
  - rewrite clearHighlight_timer. reflexivity.
  - exact Hr.
  - intros el. apply not_true_iff_false. intros H. discriminate (Hnone el H).
  - rewrite (proj1 (proj2 (clearHighlight_frame s))). reflexivity.
Qed.

End Runs.

(** ** Instances on the sample page *)

Lemma displayed_point_clamped_witness :
  position (overlay (run JSON_parse_sample new_URL_origin (boot page_two_buttons) events_late))
    = Some {| x := 960; y := 540 |}
  ∧ (12 <=? x {| x := 960; y := 540 |}) = true
  ∧ (12 <=? y {| x := 960; y := 540 |}) = true.
Proof.
  assert (H : position (overlay (run JSON_parse_sample new_URL_origin
                                   (boot page_two_buttons) events_late))
              = Some {| x := 960; y := 540 |}) by (vm_compute; reflexivity).
  split; [exact H|].
  exact (displayed_point_clamped JSON_parse_sample new_URL_origin _ _ _ H).
Defined.

Lemma highlight_follows_held_witness :
  unmarked_page page_two_buttons
  ∧ exclusive (overlay (run JSON_parse_sample new_URL_origin
                          (boot page_two_buttons) events_late)).
Proof.
  split; [exact page_two_buttons_unmarked|].
  apply (highlight_follows_held JSON_parse_sample new_URL_origin page_two_buttons
           events_late page_two_buttons_unmarked).
Defined.

Lemma disable_quiesces_witness :
  effective world_idle = true
  ∧ fetched world_idle = ["http://localhost:8000/api/gaze"]
  ∧ enabled (overlay (step JSON_parse_sample new_URL_origin world_idle
                        (SettingsChanged storage_off))) = false
  ∧ pollTimerRef (overlay (step JSON_parse_sample new_URL_origin world_idle
                             (SettingsChanged storage_off))) = Some 1%positive
  ∧ fetched (run JSON_parse_sample new_URL_origin world_idle
               [SettingsChanged storage_off; TimerTick])
    = ["http://localhost:8000/api/gaze"; "http://localhost:8000/api/gaze"]
  ∧ pollTimerRef (overlay (run JSON_parse_sample new_URL_origin world_idle
                             [SettingsChanged storage_off; Render; EffectsRun])) = None
  ∧ fetched (run JSON_parse_sample new_URL_origin world_idle
               [SettingsChanged storage_off; Render; EffectsRun])
    = ["http://localhost:8000/api/gaze"].
Proof.
  assert (H1 : effective world_idle = true) by (vm_compute; reflexivity).
  assert (Hf : fetched world_idle = ["http://localhost:8000/api/gaze"])
    by (vm_compute; reflexivity).
  assert (H2 : enabled (overlay (step JSON_parse_sample new_URL_origin world_idle
                                   (SettingsChanged storage_off))) = false)
    by (vm_compute; reflexivity).
  destruct (disable_quiesces JSON_parse_sample new_URL_origin world_idle storage_off H1 H2)
    as ((_ & _ & _ & Ht1 & _) & Hgap & (_ & _ & Ht2 & _ & _ & _ & _ & _ & Hf2)).
  split; [exact H1|]. split; [exact Hf|]. split; [exact H2|].
  split; [rewrite Ht1; vm_compute; reflexivity|].
  split; [|split; [exact Ht2|rewrite <- Hf; exact Hf2]].
  unfold run. cbn [foldl].
  rewrite (Hgap 1%positive "http://localhost:8000" "http://localhost:8000/api/gaze")
    by (vm_compute; reflexivity).
  rewrite Hf. reflexivity.
Defined.

Lemma enable_starts_polling_witness :
  rendered (boot page_two_buttons) = false
  ∧ fetched (run JSON_parse_sample new_URL_origin (boot page_two_buttons)
               [SettingsChanged (StorageItems items_on); Render; EffectsRun])
    = ["http://localhost:8000/api/gaze"]
  ∧ pollingBusyRef (overlay (run JSON_parse_sample new_URL_origin (boot page_two_buttons)
               [SettingsChanged (StorageItems items_on); Render; EffectsRun])) = true.
Proof.
  split; [reflexivity|].
  destruct (enable_starts_polling JSON_parse_sample new_URL_origin (boot page_two_buttons)
              items_on "http://localhost:8000" "http://localhost:8000/api/gaze" None)
    as (_ & _ & _ & Hb & _ & _ & Hf & _); try (vm_compute; reflexivity).
  split; [exact Hf|exact Hb].
Defined.

Lemma escape_disables_witness :
  effective world_idle = true
  ∧ fetched world_idle = ["http://localhost:8000/api/gaze"]
  ∧ enabled (overlay (keydown JSON_parse_sample world_idle escape_key
                        (StorageItems items_on))) = false
  ∧ fetched (step JSON_parse_sample new_URL_origin
               (keydown JSON_parse_sample world_idle escape_key (StorageItems items_on))
               TimerTick)
    = ["http://localhost:8000/api/gaze"; "http://localhost:8000/api/gaze"]
  ∧ pollTimerRef (overlay (run JSON_parse_sample new_URL_origin
                             (keydown JSON_parse_sample world_idle escape_key
                                (StorageItems items_on))
                             [Render; EffectsRun])) = None.
Proof.
  assert (H1 : effective world_idle = true) by (vm_compute; reflexivity).
  assert (Hf : fetched world_idle = ["http://localhost:8000/api/gaze"])
    by (vm_compute; reflexivity).
  destruct (escape_disables JSON_parse_sample new_URL_origin world_idle escape_key items_on
              H1 eq_refl eq_refl eq_refl eq_refl)
    as (_ & (He & _) & Hgap & (_ & _ & Ht & _)).
  split; [exact H1|]. split; [exact Hf|]. split; [exact He|]. split; [|exact Ht].
  rewrite (Hgap 1%positive "http://localhost:8000" "http://localhost:8000/api/gaze")
    by (vm_compute; reflexivity).
  rewrite Hf. reflexivity.
Defined.

Lemma escape_with_blocked_storage_witness :
  effective world_polling = true
  ∧ enabled (overlay world_polling) = true
  ∧ enabled (overlay (keydown JSON_parse_sample world_polling escape_key
                        StorageBlocked)) = true.
Proof.
  assert (H1 : effective world_polling = true) by (vm_compute; reflexivity).
  assert (H2 : enabled (overlay world_polling) = true) by (vm_compute; reflexivity).
  destruct (escape_with_blocked_storage JSON_parse_sample world_polling
              escape_key H1 eq_refl eq_refl eq_refl eq_refl) as (_ & He & _).
  split; [exact H1|]. split; [exact H2|]. rewrite He. exact H2.
Defined.

Lemma space_clicks_highlighted_witness :
  is_space space_key = true
  ∧ keydown JSON_parse_sample world_polling space_key storage_on = world_polling.
Proof.
  split; [reflexivity|].
  apply (space_clicks_highlighted JSON_parse_sample world_polling space_key
           storage_on eq_refl eq_refl eq_refl).
Defined.

Lemma keydown_ignored_witness :
  effective (boot page_two_buttons) = false
  ∧ keydown JSON_parse_sample (boot page_two_buttons) escape_key storage_on
    = boot page_two_buttons.
Proof.
  split; [reflexivity|].
  apply (keydown_ignored JSON_parse_sample (boot page_two_buttons)
           escape_key storage_on (or_introl eq_refl)).
Defined.

Lemma storage_event_filter_witness :
  storage_event JSON_parse_sample world_polling None storage_off = world_polling.
Proof.
  apply (proj2 (storage_event_filter JSON_parse_sample new_URL_origin world_polling
                  None storage_off)); discriminate.
Defined.

Lemma unmount_clears_page_witness :
  marker_owned (overlay world_late)
  ∧ carries_marker (overlay world_late) 1%positive = true
  ∧ carries_marker (state_after mount_cleanup (overlay world_late)) 1%positive = false.
Proof.
  assert (H : marker_owned (overlay world_late)).
  { intros el Hel. destruct (decide (el = 1%positive)) as [->|Hne];
      [vm_compute; reflexivity|exfalso].
    apply carries_marker_iff in Hel as (c & Hc & Hin). revert Hin.
    unfold classList.
    change (classLists (overlay world_late))
      with (<[1%positive := "btn" :: highlightClasses]> page_two_buttons).
    rewrite lookup_insert_ne by congruence. intros Hin.
    exact (page_two_buttons_unmarked el c Hc Hin). }
  split; [exact H|]. split; [vm_compute; reflexivity|].
  apply (unmount_clears_page (overlay world_late) H).
Defined.
